(** * AeroGame: the simulation core of the flight game

    The repository holds two builds of the game script: [src/game.js] (the
    plain build) and a themed build (stored as [src/unnamed/part_000]) that
    adds side barriers, a tower-model loader, a developer lock switch and an
    explicit "Continue" step.  The functions [update], [endGame] and
    [returnToMainMenu] are textually the same in both; [checkCollisions],
    [completeLevel], [restartGame], [selectLevel] and [generatePillars]
    differ.  The shared code is embedded once (module [Core]), the code that
    differs once per build (modules [Plain] and [Themed]).

    Numbers: a JavaScript number is an IEEE-754 double.  In the modules
    [Core], [Plain] and [Themed] it is modelled as an exact rational ([Q]);
    what is stated on that embedding are clamps, comparisons of numbers that
    a double holds exactly and thresholds with a margin, none of which turns
    on how a sum is rounded.  Where the rounding decides, the code is
    embedded a second time on doubles: the throttle statement (module
    [Binary64]) and the ring block of [update], with the steering and pitch
    statements that feed it (module [Ring64]).  What is stated of the
    ring's verdict is stated there.  In [Core], [Math.sqrt] only occurs
    under a comparison with a constant and is embedded as the comparison of
    the exact radicand with the square of the constant (lemma
    [RingFacts.sqrt_leb_real] and its siblings relate this to the real
    square root); where the distance is within a rounding error of 6 or 8
    its verdict can differ from the script's (lemma
    [Ring64Facts.rounded_distance_completes]).

    The plane model and exceptions: [Plain.step] and [Themed.step] embed the
    handlers as they run once the plane model has loaded, and give no next
    state when a handler throws.  Module [Browser] adds the load of the
    model as an event of its own and, for every handler, the state it
    leaves behind when it throws; what is stated of every state the page can
    be in is stated there.

    Not embedded: the scene graph, lights, textures and the camera
    transform.  They are written by the tick and never read back by it.
    What the tick pushes to the score, speed, distance and level displays is
    embedded as a function of the state ([updateUI], after the two
    builds). *)

From Stdlib Require Import QArith Qminmax Qround ZArith List Bool String Ascii Lia.
From Stdlib Require Import Reals Qreals Lra Lqa.
From Stdlib Require Floats.
Import ListNotations.
Local Open Scope Q_scope.

Module Core.

(** ** Numbers *)

Definition Qltb (a b : Q) : bool := negb (Qle_bool b a).

Definition Math_min (a b : Q) : Q := Qmin a b.
Definition Math_max (a b : Q) : Q := Qmax a b.
Definition Math_floor (a : Q) : Z := Qfloor a.

(** [Math.sqrt(s) <= c], [Math.sqrt(s) < c] and [Math.sqrt(s) > c].  A
    negative radicand gives NaN in JavaScript, and every comparison with NaN
    is false. *)
Definition sqrt_leb (s c : Q) : bool :=
  Qle_bool 0 s && Qle_bool 0 c && Qle_bool s (c * c).
Definition sqrt_ltb (s c : Q) : bool :=
  Qle_bool 0 s && Qltb 0 c && Qltb s (c * c).
Definition sqrt_gtb (s c : Q) : bool :=
  Qle_bool 0 s && (Qltb c 0 || Qltb (c * c) s).

(** ** Game settings *)

Definition PILLAR_HEIGHT : Q := 20.
Definition PILLAR_WIDTH : Q := 2.
Definition PILLAR_SPACING : Q := 50.
Definition INITIAL_SPEED : Q := 0.5.
Definition MAX_SPEED : Q := 5.
Definition MIN_SPEED : Q := 0.1.

(** ** Data *)

Record Vec3 := mkVec3 { vx : Q; vy : Q; vz : Q }.

Definition PLANE_PERMANENT_ROTATION : Vec3 := mkVec3 0 0 0.

(** The loaded plane model (a THREE.js object): [plane.position],
    [plane.rotation], [plane.visible]. *)
Record Mesh := mkMesh { position : Vec3; rotation : Vec3; visible : bool }.

(** A pillar group.  [xPosition], [zPosition] and [passed] are its
    [userData]; [pid] is the identity of the object (every [createPillar]
    makes a new one), kept so that one obstacle can be followed over ticks. *)
Record Pillar := mkPillar
  { pid : nat; xPosition : Q; zPosition : Q; passed : bool }.

(** The golden ring: its world position and [userData.zPosition]. *)
Record Ring := mkRing { ring_position : Vec3; ring_zPosition : Q }.

(** An entry of [LEVELS]. *)
Record Level := mkLevel
  { level_number : Z; level_distance : Q; level_unlocked : bool }.

Definition LEVELS0 : list Level :=
  [ mkLevel 1 3000 true; mkLevel 2 6000 false; mkLevel 3 9000 false;
    mkLevel 4 12000 false; mkLevel 5 15000 false ].

(** Text of the restart button and of the game-over title. *)
Inductive BtnText := RestartGameText | ContinueText.
Inductive TitleText := GameOverTitle | LevelCompleteTitle | AllLevelsCompleteTitle.

(** Messages shown with [alert]. *)
Inductive Alert :=
  | LevelLockedAlert (levelNum : Z)
  | TowerModelFailedAlert
  | PlaneModelFailedAlert.

(** The global variables of the script, the parts of the page it reads or
    writes, and the host facilities it calls. *)
Record State := mkState
  { plane : Mesh;
    pillars : list Pillar;
    barriers : list Q;
    goldenRing : option Ring;
    keys : string -> bool;
    gameStarted : bool;
    gameOver : bool;
    LEVELS : list Level;
    currentLevel : Z;
    levelDistance : Q;
    speed : Q;
    score : Z;
    distance : Q;
    planeRotation : Vec3;
    planePosition : Vec3;
    cameraAngle : Q;
    firstPersonView : bool;
    (* page *)
    restartBtnText : BtnText;
    gameOverTitle : TitleText;
    gameOverHidden : bool;
    startScreenHidden : bool;
    alerts : list Alert;
    (* host *)
    timers : nat;          (* pending [setTimeout] callbacks *)
    loads : nat;           (* pending loads of the tower model *)
    entropy : nat -> Q;    (* the values [Math.random] will return *)
    draws : nat;           (* how many of them were consumed *)
    nextId : nat           (* identity given to the next object created *)
  }.

(** *** Assignment to one global *)

Definition eta (s : State) : State :=
  mkState (plane s) (pillars s) (barriers s) (goldenRing s) (keys s)
    (gameStarted s) (gameOver s) (LEVELS s) (currentLevel s) (levelDistance s)
    (speed s) (score s) (distance s) (planeRotation s) (planePosition s)
    (cameraAngle s) (firstPersonView s) (restartBtnText s) (gameOverTitle s)
    (gameOverHidden s) (startScreenHidden s) (alerts s) (timers s) (loads s)
    (entropy s) (draws s) (nextId s).

Ltac assign proj :=
  let e := eval cbv [eta] in eta in
  match eval pattern proj in e with
  | ?F _ =>
      let t := eval cbv beta in (fun v s => F (fun _ => v) s) in exact t
  end.

Definition set_plane : Mesh -> State -> State := ltac:(assign plane).
Definition set_pillars : list Pillar -> State -> State := ltac:(assign pillars).
Definition set_barriers : list Q -> State -> State := ltac:(assign barriers).
Definition set_goldenRing : option Ring -> State -> State := ltac:(assign goldenRing).
Definition set_keys : (string -> bool) -> State -> State := ltac:(assign keys).
Definition set_gameStarted : bool -> State -> State := ltac:(assign gameStarted).
Definition set_gameOver : bool -> State -> State := ltac:(assign gameOver).
Definition set_LEVELS : list Level -> State -> State := ltac:(assign LEVELS).
Definition set_currentLevel : Z -> State -> State := ltac:(assign currentLevel).
Definition set_levelDistance : Q -> State -> State := ltac:(assign levelDistance).
Definition set_speed : Q -> State -> State := ltac:(assign speed).
Definition set_score : Z -> State -> State := ltac:(assign score).
Definition set_distance : Q -> State -> State := ltac:(assign distance).
Definition set_planeRotation : Vec3 -> State -> State := ltac:(assign planeRotation).
Definition set_planePosition : Vec3 -> State -> State := ltac:(assign planePosition).
Definition set_cameraAngle : Q -> State -> State := ltac:(assign cameraAngle).
Definition set_firstPersonView : bool -> State -> State := ltac:(assign firstPersonView).
Definition set_restartBtnText : BtnText -> State -> State := ltac:(assign restartBtnText).
Definition set_gameOverTitle : TitleText -> State -> State := ltac:(assign gameOverTitle).
Definition set_gameOverHidden : bool -> State -> State := ltac:(assign gameOverHidden).
Definition set_startScreenHidden : bool -> State -> State := ltac:(assign startScreenHidden).
Definition set_alerts : list Alert -> State -> State := ltac:(assign alerts).
Definition set_timers : nat -> State -> State := ltac:(assign timers).
Definition set_loads : nat -> State -> State := ltac:(assign loads).
Definition set_draws : nat -> State -> State := ltac:(assign draws).
Definition set_nextId : nat -> State -> State := ltac:(assign nextId).

(** Assignment to one coordinate of a vector, and to the parts of [plane]. *)
Definition set_vx (v : Q) (p : Vec3) : Vec3 := mkVec3 v (vy p) (vz p).
Definition set_vy (v : Q) (p : Vec3) : Vec3 := mkVec3 (vx p) v (vz p).
Definition set_vz (v : Q) (p : Vec3) : Vec3 := mkVec3 (vx p) (vy p) v.
Definition set_position (v : Vec3) (m : Mesh) : Mesh :=
  mkMesh v (rotation m) (visible m).
Definition set_rotation (v : Vec3) (m : Mesh) : Mesh :=
  mkMesh (position m) v (visible m).
Definition set_visible (v : bool) (m : Mesh) : Mesh :=
  mkMesh (position m) (rotation m) v.

(** ** The four top-level states

    The script keeps two flags, [gameStarted] and [gameOver]; a finished run
    is a completed level when the restart button reads "Continue" and a lost
    run when it reads "Restart Game". *)
Inductive Phase := Menu | Playing | LevelComplete | GameOver.

Definition phase (s : State) : Phase :=
  if gameOver s then
    match restartBtnText s with
    | ContinueText => LevelComplete
    | RestartGameText => GameOver
    end
  else if gameStarted s then Playing else Menu.

(** The guard of [update]: [if (!gameStarted || gameOver) return]. *)
Definition running (s : State) : bool := gameStarted s && negb (gameOver s).


(** ** Keyboard: [onKeyDown], [onKeyUp] *)

(** [String.prototype.toLowerCase] on a key name of ASCII characters: A to
    Z are lowered.  Cased letters outside ASCII are left as they are, which
    the script's function does not do; what is stated of the key table is
    stated for ASCII names. *)
Definition lower_ascii (c : ascii) : ascii :=
  let n := nat_of_ascii c in
  if (65 <=? n)%nat && (n <=? 90)%nat then ascii_of_nat (n + 32) else c.

Fixpoint toLowerCase (k : string) : string :=
  match k with
  | EmptyString => EmptyString
  | String c k' => String (lower_ascii c) (toLowerCase k')
  end.

Definition assignKey (key : string) (v : bool) (ks : string -> bool) : string -> bool :=
  fun k => if String.eqb k key then v else ks k.

(** [onKeyDown] once the plane model has loaded, when the guard
    [key === 'c' && plane] comes down to [key === 'c'].  Before that the
    handler is [Browser.onKeyDownBeforePlane]. *)
Definition onKeyDown (eventKey : string) (s : State) : State :=
  let key := toLowerCase eventKey in
  let s := set_keys (assignKey key true (keys s)) s in
  if String.eqb key "c" then
    let s := set_firstPersonView (negb (firstPersonView s)) s in
    set_plane (set_visible (negb (firstPersonView s)) (plane s)) s
  else s.

Definition onKeyUp (eventKey : string) (s : State) : State :=
  set_keys (assignKey (toLowerCase eventKey) false (keys s)) s.

(** ** Pillars: [createPillar], the row loops, [createGoldenRing] *)

Definition Math_random (s : State) : Q * State :=
  (entropy s (draws s), set_draws (S (draws s)) s).

Definition createPillar (xPos zPos : Q) (s : State) : State :=
  let s := set_pillars (pillars s ++ [mkPillar (nextId s) xPos zPos false]) s in
  set_nextId (S (nextId s)) s.

(** [for (let i = 0; i < numPillars; i++)] with its body. *)
Fixpoint spawnPillars (n : nat) (zPos : Q) (s : State) : State :=
  match n with
  | O => s
  | S n' =>
      let (r, s) := Math_random s in
      let xPos := (r - 0.5) * 80 in
      spawnPillars n' zPos (createPillar xPos zPos s)
  end.

(** The body of a row loop: draw the number of pillars, then place them. *)
Definition spawnRow (zPos : Q) (s : State) : State :=
  let (r, s) := Math_random s in
  let numPillars := (Math_floor (r * 3) + 1)%Z in
  spawnPillars (Z.to_nat numPillars) zPos s.

(** [for (let z = from; z < upto; z += PILLAR_SPACING)].  The recursion is
    on a number of rounds; [rowRounds] gives one that the guard exhausts
    first (lemma [forRows_rounds]). *)
Fixpoint forRows (rounds : nat) (zPos upto : Q) (s : State) : State :=
  match rounds with
  | O => s
  | S rounds' =>
      if Qltb zPos upto
      then forRows rounds' (zPos + PILLAR_SPACING) upto (spawnRow zPos s)
      else s
  end.

Definition rowRounds (from upto : Q) : nat :=
  Z.to_nat (Qceiling ((upto - from) / PILLAR_SPACING)).

Definition rows (from upto : Q) (s : State) : State :=
  forRows (rowRounds from upto) from upto s.

(** [generatePillars], with the z of its first row (20 in the plain build,
    60 in the themed one). *)
Definition generatePillarsFrom (first : Q) (s : State) : State :=
  rows first (levelDistance s - 100) s.

Definition createGoldenRing (s : State) : State :=
  set_goldenRing
    (Some (mkRing (mkVec3 0 8 (levelDistance s - 50)) (levelDistance s - 50))) s.

(** ** The level table *)

(** [LEVELS[i]]; [None] stands for [undefined]. *)
Definition lookupLevel (i : Z) (ls : list Level) : option Level :=
  if (i <? 0)%Z then None else nth_error ls (Z.to_nat i).

(** [LEVELS[i].unlocked = true]. *)
Fixpoint unlockAt (i : nat) (ls : list Level) : list Level :=
  match ls, i with
  | [], _ => []
  | l :: ls', O => mkLevel (level_number l) (level_distance l) true :: ls'
  | l :: ls', S i' => l :: unlockAt i' ls'
  end.

Definition LEVELS_length (s : State) : Z := Z.of_nat (List.length (LEVELS s)).

(** The part of [completeLevel] that both builds have.  [currentLevel] is
    never negative (it starts at 1, is assigned a level number whose entry
    exists, or is incremented), so the index is taken as a natural number. *)
Definition completeLevelCommon (s : State) : State :=
  let s := set_gameOver true s in
  let s := set_gameStarted false s in
  let s :=
    if (currentLevel s <? LEVELS_length s)%Z
    then set_LEVELS (unlockAt (Z.to_nat (currentLevel s)) (LEVELS s)) s
    else s in
  let s :=
    set_gameOverTitle
      (if (currentLevel s =? LEVELS_length s)%Z
       then AllLevelsCompleteTitle else LevelCompleteTitle) s in
  let s := set_restartBtnText ContinueText s in
  set_gameOverHidden false s.

(** The assignments by which [restartGame] resets the run, up to and
    including [pillars = []]. *)
Definition resetRun (s : State) : State :=
  let s := set_gameOver false s in
  let s := set_gameStarted true s in
  let s := set_speed INITIAL_SPEED s in
  let s := set_score 0%Z s in
  let s := set_distance 0 s in
  let s := set_planePosition (mkVec3 0 5 0) s in
  let s := set_planeRotation (mkVec3 0 0 0) s in
  let s := set_cameraAngle 0 s in
  let s := set_firstPersonView false s in
  let s := set_plane (mkMesh (mkVec3 0 5 0) PLANE_PERMANENT_ROTATION true) s in
  set_pillars [] s.

(** What the host can deliver to the script. *)
Inductive Event :=
  | Frame                          (* the animation frame: [update] *)
  | KeyDown (key : string)
  | KeyUp (key : string)
  | ClickStart
  | ClickRestart
  | ClickMainMenu
  | ClickLevel (levelNum : Z)      (* a level button, with its [data-level] *)
  | TimerFires                     (* a pending [setTimeout] callback runs *)
  | TowerLoaded (ok : bool).       (* a pending model load ends *)

(** The globals as the script declares them, before [init] has run.  The
    page (which is not part of the script) is taken to show the start screen
    and to hide the game-over panel, whose button reads "Restart Game".
    [plane] is declared without a value; the field holds the model as the
    callback of its load makes it for the declared [planePosition], and
    nothing reads it before that callback has run ([Browser]). *)
Definition globals0 (rnd : nat -> Q) : State :=
  mkState (mkMesh (mkVec3 0 5 0) PLANE_PERMANENT_ROTATION true)
    [] [] None (fun _ => false) false false LEVELS0 1%Z 3000
    INITIAL_SPEED 0%Z 0 (mkVec3 0 0 0) (mkVec3 0 5 0) 0 false
    RestartGameText GameOverTitle true false [] O O rnd O O.

(** ** [endGame] *)

Definition endGame (s : State) : State :=
  let s := set_gameOver true s in
  let s := set_gameStarted false s in
  let s := set_restartBtnText RestartGameText s in
  let s := set_gameOverTitle GameOverTitle s in
  set_gameOverHidden false s.

(** ** [returnToMainMenu] *)

Definition returnToMainMenu (s : State) : State :=
  let s := set_gameOver false s in
  let s := set_gameStarted false s in
  let s := set_speed INITIAL_SPEED s in
  let s := set_score 0%Z s in
  let s := set_distance 0 s in
  let s := set_planePosition (mkVec3 0 5 0) s in
  let s := set_planeRotation (mkVec3 0 0 0) s in
  let s := set_cameraAngle 0 s in
  let s := set_firstPersonView false s in
  let s := set_plane (mkMesh (mkVec3 0 5 0) PLANE_PERMANENT_ROTATION true) s in
  let s := set_pillars [] s in
  let s := set_gameOverHidden true s in
  set_startScreenHidden false s.

(** ** [startGame] *)

Definition startGame (s : State) : State :=
  let s := set_gameStarted true s in
  set_startScreenHidden true s.

(** ** [update], block by block *)

(** Handle speed controls. *)
Definition throttle (s : State) : State :=
  let s := if keys s "w" then set_speed (Math_min (speed s + 0.01) MAX_SPEED) s else s in
  if keys s "s" then set_speed (Math_max (speed s - 0.01) MIN_SPEED) s else s.

(** Handle steering (D = right, A = left). *)
Definition steer (s : State) : State :=
  let p := planePosition s in
  let r := planeRotation s in
  if keys s "d" then
    let s := set_planePosition (set_vx (vx p - 0.3) p) s in
    set_planeRotation (set_vz (Math_min (vz r + 0.02) 0.3) r) s
  else if keys s "a" then
    let s := set_planePosition (set_vx (vx p + 0.3) p) s in
    set_planeRotation (set_vz (Math_max (vz r - 0.02) (-0.3)) r) s
  else
    set_planeRotation (set_vz (vz r * 0.9) r) s.

(** Handle pitch (up/down). *)
Definition pitch (s : State) : State :=
  let p := planePosition s in
  let r := planeRotation s in
  if keys s "arrowup" then
    let s := set_planePosition (set_vy (Math_max (vy p - 0.1) 1) p) s in
    set_planeRotation (set_vx (Math_min (vx r + 0.02) 0.3) r) s
  else if keys s "arrowdown" then
    let s := set_planePosition (set_vy (Math_min (vy p + 0.1) 15) p) s in
    set_planeRotation (set_vx (Math_max (vx r - 0.02) (-0.3)) r) s
  else
    set_planeRotation (set_vx (vx r * 0.9) r) s.

(** Handle camera rotation around the plane (left/right arrows). *)
Definition orbit (s : State) : State :=
  if keys s "arrowright" then set_cameraAngle (cameraAngle s + 0.02) s
  else if keys s "arrowleft" then set_cameraAngle (cameraAngle s - 0.02) s
  else s.

(** Update plane position and rotation: x, y, roll and pitch are copied to
    the model. *)
Definition syncPlane (s : State) : State :=
  let m := plane s in
  let pos := set_vy (vy (planePosition s)) (set_vx (vx (planePosition s)) (position m)) in
  let rot := set_vx (vx (planeRotation s)) (set_vz (vz (planeRotation s)) (rotation m)) in
  set_plane (set_rotation rot (set_position pos m)) s.

(** Move plane forward, update distance. *)
Definition advance (s : State) : State :=
  let p := planePosition s in
  let s := set_planePosition (set_vz (vz p + speed s) p) s in
  let m := plane s in
  let s := set_plane (set_position (set_vz (vz (planePosition s)) (position m)) m) s in
  set_distance (distance s + speed s) s.

(** The blocks of [update] that move the plane, in their order. *)
Definition kinematics (s : State) : State :=
  advance (syncPlane (orbit (pitch (steer (throttle s))))).

(** Check which pillars have been passed: the body of the [forEach]. *)
Definition justPassed (planeZ : Q) (p : Pillar) : bool :=
  negb (passed p) && Qltb (zPosition p) planeZ.

Definition markPassed (p : Pillar) : Pillar :=
  mkPillar (pid p) (xPosition p) (zPosition p) true.

Fixpoint scorePass (planeZ : Q) (ps : list Pillar) (sc : Z) : list Pillar * Z :=
  match ps with
  | [] => ([], sc)
  | p :: ps' =>
      if justPassed planeZ p then
        let (qs, sc') := scorePass planeZ ps' (sc + 10)%Z in
        (markPassed p :: qs, sc')
      else
        let (qs, sc') := scorePass planeZ ps' sc in
        (p :: qs, sc')
  end.

Definition scorePillars (s : State) : State :=
  let (ps, sc) := scorePass (vz (position (plane s))) (pillars s) (score s) in
  set_score sc (set_pillars ps s).

(** The overlap test of [checkCollisions] for one pillar. *)
Definition hitsPillar (m : Mesh) (p : Pillar) : bool :=
  let pos := position m in
  let minX := vx pos - 3 in
  let maxX := vx pos + 3 in
  let minY := vy pos - 0.5 in
  let maxY := vy pos + 0.5 in
  let minZ := vz pos - 1 in
  let maxZ := vz pos + 1 in
  let pillarMinX := xPosition p - PILLAR_WIDTH / 2 in
  let pillarMaxX := xPosition p + PILLAR_WIDTH / 2 in
  let pillarMinY := 0 in
  let pillarMaxY := PILLAR_HEIGHT in
  let pillarMinZ := zPosition p - PILLAR_WIDTH / 2 in
  let pillarMaxZ := zPosition p + PILLAR_WIDTH / 2 in
  let collisionX := Qle_bool pillarMinX maxX && Qle_bool minX pillarMaxX in
  let collisionY := Qle_bool pillarMinY maxY && Qle_bool minY pillarMaxY in
  let collisionZ := Qle_bool pillarMinZ maxZ && Qle_bool minZ pillarMaxZ in
  collisionX && collisionY && collisionZ.

(** [pillars.forEach] in [checkCollisions]; [box] is the plane as it was
    when [planeBox] was built. *)
Fixpoint pillarCollisions (box : Mesh) (ps : list Pillar) (s : State) : State :=
  match ps with
  | [] => s
  | p :: ps' =>
      pillarCollisions box ps' (if hitsPillar box p then endGame s else s)
  end.

(** The ground part of [checkCollisions]. *)
Definition groundCollision (s : State) : State :=
  if Qltb (vy (position (plane s))) 0.5 then endGame s else s.

(** Generate more pillars if needed. *)
Definition furthestPillar (ps : list Pillar) : Q :=
  fold_left (fun mx p => if Qltb mx (zPosition p) then zPosition p else mx) ps 0.

Definition streamPillars (s : State) : State :=
  let furthest := furthestPillar (pillars s) in
  let planeZ := vz (position (plane s)) in
  if Qltb furthest (planeZ + 200)
  then rows (furthest + PILLAR_SPACING) (planeZ + 500) s
  else s.

(** Remove pillars that are far behind the plane:
    [for (let i = pillars.length - 1; i >= 0; i--)] with [splice(i, 1)]. *)
Definition splice1 (i : nat) (ps : list Pillar) : list Pillar :=
  firstn i ps ++ skipn (S i) ps.

Fixpoint evictFrom (count : nat) (planeZ : Q) (ps : list Pillar) : list Pillar :=
  match count with
  | O => ps
  | S i =>
      match nth_error ps i with
      | Some p =>
          evictFrom i planeZ
            (if Qltb (zPosition p) (planeZ - 100) then splice1 i ps else ps)
      | None => evictFrom i planeZ ps
      end
  end.

Definition evictPillars (s : State) : State :=
  set_pillars
    (evictFrom (List.length (pillars s)) (vz (position (plane s))) (pillars s)) s.

(** The squared planar distance from the ring centre (x and y only). *)
Definition planarDistSq (m : Mesh) (ring : Ring) : Q :=
  (vx (position m) - vx (ring_position ring)) ^ 2 +
  (vy (position m) - vy (ring_position ring)) ^ 2.

Definition inRingWindow (planeZ : Q) (ring : Ring) : bool :=
  Qle_bool (ring_zPosition ring - 2) planeZ &&
  Qle_bool planeZ (ring_zPosition ring + 2).

Section Update.

(** The two callees of [update] that differ between the builds. *)
Variable checkCollisions : State -> State.
Variable completeLevel : State -> State.

(** Check if plane reached the golden ring. *)
Definition ringCheck (s : State) : State :=
  match goldenRing s with
  | Some ring =>
      if inRingWindow (vz (position (plane s))) ring then
        let distSq := planarDistSq (plane s) ring in
        if sqrt_leb distSq 6 then completeLevel s
        else if sqrt_gtb distSq 6 && sqrt_ltb distSq 8 then endGame s
        else s
      else s
  | None => s
  end.

(** Check if plane passed the ring without going through it. *)
Definition flewPastCheck (s : State) : State :=
  match goldenRing s with
  | Some ring =>
      if Qltb (ring_zPosition ring + 10) (vz (position (plane s)))
      then endGame s else s
  | None => s
  end.

(** The state when the eviction loop is reached. *)
Definition beforeEviction (s : State) : State :=
  streamPillars (checkCollisions (scorePillars (kinematics s))).

(** The state when the ring is examined. *)
Definition beforeRing (s : State) : State :=
  evictPillars (beforeEviction s).

Definition update (s : State) : State :=
  if negb (gameStarted s) || gameOver s then s
  else flewPastCheck (ringCheck (beforeRing s)).

End Update.

End Core.

(** * The plain build: [src/game.js] *)

Module Plain.
Import Core.

Definition checkCollisions (s : State) : State :=
  let s := pillarCollisions (plane s) (pillars s) s in
  groundCollision s.

(** [completeLevel]: the common part, then "Auto-advance to next level after
    a delay": a callback is scheduled when a next level exists. *)
Definition completeLevel (s : State) : State :=
  let s := completeLevelCommon s in
  if (currentLevel s <? LEVELS_length s)%Z
  then set_timers (S (timers s)) s
  else s.

Definition update : State -> State := Core.update checkCollisions completeLevel.

Definition generatePillars : State -> State := generatePillarsFrom 20.

Definition restartGame (s : State) : State :=
  let s := resetRun s in
  let s := generatePillars s in
  let s := createGoldenRing s in
  set_gameOverHidden true s.

(** The callback given to [setTimeout] by [completeLevel].  [None]: the
    entry [LEVELS[currentLevel - 1]] is [undefined] and reading its
    [distance] throws.  The callback has by then hidden the panel and
    incremented [currentLevel]; the state it leaves is given by
    [Browser.plainAutoAdvance]. *)
Definition autoAdvance (s : State) : option State :=
  let s := set_gameOverHidden true s in
  let s := set_currentLevel (currentLevel s + 1)%Z s in
  match lookupLevel (currentLevel s - 1) (LEVELS s) with
  | Some level => Some (restartGame (set_levelDistance (level_distance level) s))
  | None => None
  end.

(** [selectLevel], given the level number of the button.  [None]: no such
    entry in [LEVELS], reading [level.unlocked] throws. *)
Definition selectLevel (levelNum : Z) (s : State) : option State :=
  match lookupLevel (levelNum - 1) (LEVELS s) with
  | None => None
  | Some level =>
      if negb (level_unlocked level)
      then Some (set_alerts (alerts s ++ [LevelLockedAlert levelNum]) s)
      else
        let s := set_currentLevel levelNum s in
        let s := set_levelDistance (level_distance level) s in
        Some (startGame s)
  end.

(** [init]: the pillars and the ring are made at once. *)
Definition init (rnd : nat -> Q) : State :=
  createGoldenRing (generatePillars (globals0 rnd)).

(** One reaction of the script, with the plane model loaded.  [None]: the
    event cannot occur (no timer is pending, no loader exists) or the
    handler throws. *)
Definition step (e : Event) (s : State) : option State :=
  match e with
  | Frame => Some (update s)
  | KeyDown k => Some (onKeyDown k s)
  | KeyUp k => Some (onKeyUp k s)
  | ClickStart => Some (startGame s)
  | ClickRestart => Some (restartGame s)
  | ClickMainMenu => Some (returnToMainMenu s)
  | ClickLevel n => selectLevel n s
  | TimerFires =>
      match timers s with
      | O => None
      | S n => autoAdvance (set_timers n s)
      end
  | TowerLoaded _ => None
  end.

End Plain.

(** * The themed build: [src/unnamed/part_000] *)

Module Themed.
Import Core.

(** Developer setting: levels must be unlocked in order. *)
Definition LOCK_LEVEL : bool := true.

Definition BARRIER_X_POSITION : Q := 42.

Definition createBarriers (s : State) : State :=
  set_barriers [- BARRIER_X_POSITION; BARRIER_X_POSITION] s.

(** Check barrier collisions - constrain position instead of ending game. *)
Definition constrainToBarriers (s : State) : State :=
  let BARRIER_X_LIMIT := 42 in
  let PLANE_HALF_WIDTH := 3 in
  let p := planePosition s in
  let m := plane s in
  if Qltb (vx p - PLANE_HALF_WIDTH) (- BARRIER_X_LIMIT) then
    let s := set_planePosition (set_vx (- BARRIER_X_LIMIT + PLANE_HALF_WIDTH) p) s in
    set_plane (set_position (set_vx (vx (planePosition s)) (position m)) m) s
  else if Qltb BARRIER_X_LIMIT (vx p + PLANE_HALF_WIDTH) then
    let s := set_planePosition (set_vx (BARRIER_X_LIMIT - PLANE_HALF_WIDTH) p) s in
    set_plane (set_position (set_vx (vx (planePosition s)) (position m)) m) s
  else s.

Definition checkCollisions (s : State) : State :=
  let s := pillarCollisions (plane s) (pillars s) s in
  let s := constrainToBarriers s in
  groundCollision s.

(** [completeLevel]: "Player must click Continue button to advance to next
    level.  No auto-advance." *)
Definition completeLevel (s : State) : State := completeLevelCommon s.

Definition update : State -> State := Core.update checkCollisions completeLevel.

(** "Start at 60m to give player a safe zone at the beginning." *)
Definition generatePillars : State -> State := generatePillarsFrom 60.

(** [loadTowerModel] starts a load; the pillars, barriers and ring are made
    by its callbacks. *)
Definition loadTowerModel (s : State) : State := set_loads (S (loads s)) s.

Definition towerLoaded (ok : bool) (s : State) : State :=
  if ok then
    let s := set_pillars [] s in
    let s := set_barriers [] s in
    let s := set_goldenRing None s in
    createGoldenRing (createBarriers (generatePillars s))
  else
    let s := set_alerts (alerts s ++ [TowerModelFailedAlert]) s in
    createGoldenRing (createBarriers (generatePillars s)).

(** [restartGame].  [None]: [LEVELS[currentLevel - 1]] is [undefined]. *)
Definition restartGame (s : State) : option State :=
  let advanced :=
    match restartBtnText s with
    | ContinueText =>
        if (currentLevel s <? LEVELS_length s)%Z then
          let s := set_currentLevel (currentLevel s + 1)%Z s in
          match lookupLevel (currentLevel s - 1) (LEVELS s) with
          | Some level => Some (set_levelDistance (level_distance level) s)
          | None => None
          end
        else Some s
    | RestartGameText => Some s
    end in
  match advanced with
  | None => None
  | Some s =>
      let s := set_restartBtnText RestartGameText s in
      let s := set_gameOverTitle GameOverTitle s in
      let s := resetRun s in
      let s := loadTowerModel s in
      Some (set_gameOverHidden true s)
  end.

(** [selectLevel] with the lock switch as an argument. *)
Definition selectLevelWith (lock : bool) (levelNum : Z) (s : State) : option State :=
  match lookupLevel (levelNum - 1) (LEVELS s) with
  | None => None
  | Some level =>
      if lock && negb (level_unlocked level)
      then Some (set_alerts (alerts s ++ [LevelLockedAlert levelNum]) s)
      else
        let s := set_currentLevel levelNum s in
        let s := set_levelDistance (level_distance level) s in
        let s := set_pillars [] s in
        let s := loadTowerModel s in
        let s := set_startScreenHidden true s in
        let s := set_gameStarted true s in
        Some (set_gameOver false s)
  end.

Definition selectLevel : Z -> State -> option State := selectLevelWith LOCK_LEVEL.

(** [init]: the tower model is requested; nothing is generated yet. *)
Definition init (rnd : nat -> Q) : State := loadTowerModel (globals0 rnd).

(** One reaction of the script, with the plane model loaded.  This build
    sets no timer. *)
Definition step (e : Event) (s : State) : option State :=
  match e with
  | Frame => Some (update s)
  | KeyDown k => Some (onKeyDown k s)
  | KeyUp k => Some (onKeyUp k s)
  | ClickStart => Some (startGame s)
  | ClickRestart => restartGame s
  | ClickMainMenu => Some (returnToMainMenu s)
  | ClickLevel n => selectLevel n s
  | TimerFires => None
  | TowerLoaded ok =>
      match loads s with
      | O => None
      | S n => Some (towerLoaded ok (set_loads n s))
      end
  end.

End Themed.

(** * The throttle statement on doubles *)

Module Binary64.
Import PrimFloat.
Local Open Scope float_scope.

(** [Math.min] on doubles: NaN if an argument is NaN, else the smaller
    one, with -0 below +0. *)
Definition Math_min (a b : float) : float :=
  if is_nan a then a
  else if is_nan b then b
  else if a <? b then a
  else if b <? a then b
  else if get_sign a then a else b.

Definition MAX_SPEED : float := 5.

(** [speed = Math.min(speed + 0.01, MAX_SPEED)], the statement that a frame
    runs when "w" is held. *)
#[warnings="-inexact-float"]
Definition throttleUp (speed : float) : float :=
  Math_min (speed + 0.01) MAX_SPEED.

Fixpoint frames (n : nat) (speed : float) : float :=
  match n with
  | O => speed
  | S n' => frames n' (throttleUp speed)
  end.

(** [INITIAL_SPEED], the value 1, and the double next but one above 1,
    which prints as 1.0000000000000004. *)
Definition INITIAL_SPEED : float := 0.5.
Definition one : float := 1.
Definition one_and_two_ulps : float := 0x1.0000000000002p+0.

End Binary64.

(** * Both builds at once *)

Import Core.

Inductive Build := PlainBuild | ThemedBuild.

Definition updateOf (b : Build) : State -> State :=
  match b with PlainBuild => Plain.update | ThemedBuild => Themed.update end.

Definition checkCollisionsOf (b : Build) : State -> State :=
  match b with
  | PlainBuild => Plain.checkCollisions
  | ThemedBuild => Themed.checkCollisions
  end.

Definition completeLevelOf (b : Build) : State -> State :=
  match b with
  | PlainBuild => Plain.completeLevel
  | ThemedBuild => Themed.completeLevel
  end.

Definition stepOf (b : Build) : Event -> State -> option State :=
  match b with PlainBuild => Plain.step | ThemedBuild => Themed.step end.

Definition initOf (b : Build) : (nat -> Q) -> State :=
  match b with PlainBuild => Plain.init | ThemedBuild => Themed.init end.

(** Consecutive frames. *)
Fixpoint ticks (b : Build) (n : nat) (s : State) : State :=
  match n with
  | O => s
  | S n' => ticks b n' (updateOf b s)
  end.

(** A sequence of events, oldest first. *)
Fixpoint run (b : Build) (es : list Event) (s : State) : option State :=
  match es with
  | [] => Some s
  | e :: es' =>
      match stepOf b e s with
      | Some s' => run b es' s'
      | None => None
      end
  end.

(** ** Which globals a function leaves alone

    Each eraser overwrites a group of globals with fixed values; a function
    [f] writes at most that group when [erase (f s) = erase s]. *)

(** The obstacle collection, the score and the two host counters. *)
Definition eraseWorld (s : State) : State :=
  set_score 0%Z (set_nextId O (set_draws O (set_pillars [] s))).

(** What [endGame] and [completeLevel] write. *)
Definition eraseOutcome (s : State) : State :=
  set_timers O (set_LEVELS [] (set_gameOverHidden false
    (set_gameOverTitle GameOverTitle (set_restartBtnText RestartGameText
      (set_gameStarted false (set_gameOver false s)))))).

(** The lateral position, in [planePosition] and in the model. *)
Definition eraseX (s : State) : State :=
  set_plane (set_position (set_vx 0 (position (plane s))) (plane s))
    (set_planePosition (set_vx 0 (planePosition s)) s).

Definition eraseTail (s : State) : State :=
  eraseWorld (eraseOutcome (eraseX s)).

(** What only [streamPillars], [evictPillars], [ringCheck] and
    [flewPastCheck] may write. *)
Definition eraseWO (s : State) : State := eraseWorld (eraseOutcome s).

(** What the kinematic blocks write. *)
Definition eraseKin (s : State) : State :=
  set_distance 0
    (set_plane (mkMesh (mkVec3 0 0 0) (mkVec3 0 0 0) (visible (plane s)))
      (set_cameraAngle 0 (set_planeRotation (mkVec3 0 0 0)
        (set_planePosition (mkVec3 0 0 0) (set_speed 0 s))))).

(** Where the plane is, how it is turned and how fast it flies. *)
Definition pose (s : State) : Vec3 * Vec3 * Q :=
  (planePosition s, planeRotation s, speed s).

Definition startPose : Vec3 * Vec3 * Q :=
  (mkVec3 0 5 0, mkVec3 0 0 0, INITIAL_SPEED).

(** ** Envelopes *)

Definition inEnvelope (s : State) : Prop :=
  MIN_SPEED <= speed s <= MAX_SPEED /\
  -0.3 <= vx (planeRotation s) <= 0.3 /\
  -0.3 <= vz (planeRotation s) <= 0.3.

Definition withinBarriers (s : State) : Prop :=
  -39 <= vx (planePosition s) <= 39.

(** The run is in Playing at each of the next [n] frames. *)
Fixpoint staysRunning (b : Build) (n : nat) (s : State) : bool :=
  match n with
  | O => true
  | S n' => running s && staysRunning b n' (updateOf b s)
  end.

(** The state on which [checkCollisions] makes its ground test. *)
Definition atGroundTest (b : Build) (s : State) : State :=
  let c := scorePillars (kinematics s) in
  match b with
  | PlainBuild => pillarCollisions (plane c) (pillars c) c
  | ThemedBuild =>
      Themed.constrainToBarriers (pillarCollisions (plane c) (pillars c) c)
  end.

(** ** Obstacles over a frame *)

(** What the scoring pass makes of one pillar, and what the eviction loop
    keeps, for the plane at [planeZ]. *)
Definition scoreOne (planeZ : Q) (p : Pillar) : Pillar :=
  if justPassed planeZ p then markPassed p else p.

Definition keepsPillar (planeZ : Q) (p : Pillar) : bool :=
  negb (Qltb (zPosition p) (planeZ - 100)).

(** Obstacles made by [createPillar]: appended, unpassed, with the next
    identities in order. *)
Definition Spawned (s s' : State) (fresh : list Pillar) : Prop :=
  pillars s' = pillars s ++ fresh /\
  map pid fresh = seq (nextId s) (List.length fresh) /\
  nextId s' = (nextId s + List.length fresh)%nat /\
  Forall (fun p => passed p = false) fresh.

Definition Spawns (s s' : State) : Prop := exists fresh, Spawned s s' fresh.

(** The live obstacles are distinct objects made before now. *)
Definition distinctPillars (s : State) : Prop :=
  NoDup (map pid (pillars s)) /\
  Forall (fun p => (pid p < nextId s)%nat) (pillars s).

(** The z of the plane that a frame starting in [s] scores and evicts by. *)
Definition frameZ (s : State) : Q := vz (position (plane (kinematics s))).

(** The obstacles that the frame starting in [s] adds 10 points for, and
    those of [n] consecutive frames, oldest first. *)
Definition scoredInFrame (s : State) : list nat :=
  if running s
  then map pid (filter (justPassed (frameZ s)) (pillars s))
  else [].

Fixpoint scoredLog (b : Build) (n : nat) (s : State) : list nat :=
  match n with
  | O => []
  | S n' => scoredInFrame s ++ scoredLog b n' (updateOf b s)
  end.

(** [plane.position.z], and the obstacle collection with the score and
    the identity counter. *)
Definition planeZ (s : State) : Q := vz (position (plane s)).

Definition worldOf (s : State) : list Pillar * Z * nat :=
  (pillars s, score s, nextId s).

(** The obstacle collection, the identity counter and the random draws. *)
Definition eraseSpawn (s : State) : State :=
  set_nextId O (set_draws O (set_pillars [] s)).

(** The state on which a frame examines the ring. *)
Definition atRing (b : Build) (s : State) : State :=
  beforeRing (checkCollisionsOf b) s.

(** [plane.position.y], which the ground test reads. *)
Definition planeY (s : State) : Q := vy (position (plane s)).

(** The level being played and its length. *)
Definition levelOf (s : State) : Z * Q := (currentLevel s, levelDistance s).

(** The page's alerts. *)
Definition eraseAlerts (s : State) : State := set_alerts [] s.

(** The ring of a level of the given length. *)
Definition ringFor (dist : Q) : Ring :=
  mkRing (mkVec3 0 8 (dist - 50)) (dist - 50).

(** ** Sample states *)

Module Samples.

(** A source of random numbers that always answers 1/2. *)
Definition half : nat -> Q := fun _ => 0.5.

(** The plain build, started from its menu with "a" (steer left) held. *)
Definition plainEvents : list Event := [ClickStart; KeyDown "a"].

Definition plainStart : State :=
  match run PlainBuild plainEvents (Plain.init half) with
  | Some s => s
  | None => Plain.init half
  end.

(** The themed build after level 1 was chosen and its model has loaded,
    with "w" held. *)
Definition themedEvents : list Event :=
  [TowerLoaded true; ClickLevel 1; TowerLoaded true; KeyDown "w"].

Definition themedStart : State :=
  match run ThemedBuild themedEvents (Themed.init half) with
  | Some s => s
  | None => Themed.init half
  end.

(** The plain build after 130 frames of steering left. *)
Definition plainAtWall : State := ticks PlainBuild 130 plainStart.

(** The themed build, level 1 chosen and loaded, after 131 frames of
    steering left. *)
Definition themedSteering : State :=
  match run ThemedBuild [TowerLoaded true; ClickLevel 1; TowerLoaded true; KeyDown "a"]
          (Themed.init half) with
  | Some s => s
  | None => Themed.init half
  end.

Definition themedAtWall : State := ticks ThemedBuild 131 themedSteering.

(** The plane put at a given place. *)
Definition placeAt (p : Vec3) (s : State) : State :=
  set_plane (set_position p (plane s)) (set_planePosition p s).

(** Level 1 of the plain build, half a metre before the ring plane and on
    the ring's axis; and ten metres behind the ring plane, off the axis. *)
Definition nearRing : State := placeAt (mkVec3 0 8 2949.5) plainStart.
Definition pastRing : State := placeAt (mkVec3 30 8 2960) plainStart.
Definition ring1 : Ring := mkRing (mkVec3 0 8 (3000 - 50)) (3000 - 50).

(** A run of the themed build with two obstacles behind the plane, one
    104.6 m back and one 94.6 m back, and one far ahead. *)
Definition oldPillar : Pillar := mkPillar 0 10 30 true.
Definition recentPillar : Pillar := mkPillar 1 10 40 false.
Definition farPillar : Pillar := mkPillar 2 10 400 false.

Definition twoBehind : State :=
  placeAt (mkVec3 0 5 134.6)
    (set_nextId 3
       (set_pillars [oldPillar; recentPillar; farPillar]
          (resetRun (globals0 half)))).

(** The plain build at the end of the frame that takes the plane through
    the ring of level 1. *)
Definition levelDone : State := Plain.update nearRing.

End Samples.

(** * Further views of the state *)

(** ** The collision verdict *)

(** Some pillar of the collection overlaps the box of the model [m]. *)
Definition collides (m : Mesh) (ps : list Pillar) : bool :=
  existsb (hitsPillar m) ps.

(** The state on which [checkCollisions] is called has a pillar in the
    plane's box, or the plane below 0.5. *)
Definition crashes (c : State) : bool :=
  collides (plane c) (pillars c) || Qltb (vy (position (plane c))) 0.5.

(** What [checkCollisions] does besides ending the run: nothing in the
    plain build, the barrier clamp in the themed one. *)
Definition settle (b : Build) (s : State) : State :=
  match b with
  | PlainBuild => s
  | ThemedBuild => Themed.constrainToBarriers s
  end.

(** ** The plane and the counters of a run *)

(** The model, the logical position and rotation, and the counters of a
    run: what [restartGame] and [returnToMainMenu] reset. *)
Definition runView (s : State) : Vec3 * Vec3 * Vec3 * Vec3 * Q * Z * Q * Q :=
  (position (plane s), rotation (plane s), planePosition s, planeRotation s,
   speed s, score s, distance s, cameraAngle s).

Definition startRun : Vec3 * Vec3 * Vec3 * Vec3 * Q * Z * Q * Q :=
  (mkVec3 0 5 0, PLANE_PERMANENT_ROTATION, mkVec3 0 5 0, mkVec3 0 0 0,
   INITIAL_SPEED, 0%Z, 0, 0).

(** The model is where and how the logical position and rotation say, and
    the distance flown is the plane's z. *)
Definition inStep (s : State) : Prop :=
  position (plane s) = planePosition s /\
  rotation (plane s) = planeRotation s /\
  distance s = vz (planePosition s).

(** What the handlers other than the frame and the keyboard may write
    without it showing in the plane, the counters of a run, the view mode,
    the level table or the random source: the obstacles, the ring, the
    barriers, the keys, the phase flags, the level being played, the page
    and the pending timers and loads. *)
Definition eraseSession (s : State) : State :=
  set_barriers [] (set_goldenRing None (set_keys (fun _ => false)
    (set_gameStarted false (set_gameOver false (set_currentLevel 0%Z
      (set_levelDistance 0 (set_restartBtnText RestartGameText
        (set_gameOverTitle GameOverTitle (set_gameOverHidden false
          (set_startScreenHidden false (set_alerts [] (set_timers O
            (set_loads O (eraseSpawn s)))))))))))))).

(** The events of a flight: frames and the keyboard. *)
Definition flying (e : Event) : bool :=
  match e with
  | Frame | KeyDown _ | KeyUp _ => true
  | _ => false
  end.

(** ** The level table *)

(** The entry of index [i] exists and is unlocked. *)
Definition unlockedAt (i : nat) (ls : list Level) : bool :=
  match nth_error ls i with
  | Some l => level_unlocked l
  | None => false
  end.

(** The numbers and the distances of the table are those of its
    declaration. *)
Definition tableShape (ls : list Level) : Prop :=
  map level_number ls = [1; 2; 3; 4; 5]%Z /\
  map level_distance ls = [3000; 6000; 9000; 12000; 15000].

(** [currentLevel] names an entry of the table and [levelDistance] is
    that entry's distance. *)
Definition levelKept (s : State) : Prop :=
  exists l, lookupLevel (currentLevel s - 1) (LEVELS s) = Some l /\
            levelDistance s = level_distance l.

(** ** The readouts: [updateUI] and [updateLevelDisplay]

    The same in both builds.  [updateUI] ends every frame in Playing and
    [restartGame]; the page elements it writes are taken to exist. *)

(** What [updateUI] writes to the page: the speed, score and distance
    displays, and the level line "Level <n> - <remaining>m to goal" as the
    pair of its two numbers. *)
Record Hud := mkHud
  { speedDisplay : Z;
    scoreDisplay : Z;
    distanceDisplay : Z;
    levelInfo : Z * Q }.

Definition updateLevelDisplay (s : State) : Z * Q :=
  let remaining :=
    Math_max 0 (levelDistance s - inject_Z (Math_floor (distance s))) in
  (currentLevel s, remaining).

Definition updateUI (s : State) : Hud :=
  mkHud (Math_floor (speed s * 100)) (score s) (Math_floor (distance s))
    (updateLevelDisplay s).

(** ** The course *)

(** [Math.random] returns numbers from 0 (included) to 1 (excluded). *)
Definition fair (rnd : nat -> Q) : Prop := forall n, 0 <= rnd n < 1.

(** A pillar as [createPillar] makes it for the row at [z]. *)
Definition inRow (z : Q) (p : Pillar) : Prop :=
  zPosition p == z /\ -40 <= xPosition p < 40 /\ passed p = false.

(** Rows of one to three pillars, [PILLAR_SPACING] apart, the first at
    [first]. *)
Definition rowsFrom (first : Q) (rws : list (list Pillar)) : Prop :=
  forall k row, nth_error rws k = Some row ->
    (1 <= List.length row <= 3)%nat /\
    Forall (inRow (first + PILLAR_SPACING * inject_Z (Z.of_nat k))) row.

(** ** More sample states *)

(** A short flight of the themed build: level 1 chosen and loaded, "w"
    held, three frames. *)
Definition shortFlight : list Event :=
  Samples.themedEvents ++ [Frame; Frame; Frame].

(** Level 1 of the plain build with the plane on the ring's axis, 2.5
    before the ring, at full speed; and 2.2 before the ring at the initial
    speed. *)
Definition fastBeforeRing : State :=
  set_speed 5 (Samples.placeAt (mkVec3 0 8 2947.5) Samples.plainStart).

Definition slowBeforeRing : State :=
  Samples.placeAt (mkVec3 0 8 2947.8) Samples.plainStart.

(** Level 1 of the plain build, half a metre before the ring plane and on
    the ring's axis, with the distance flown equal to the plane's z. *)
Definition atRingDoor : State := set_distance 2949.5 Samples.nearRing.

(** Level 1 of the themed build, chosen and loaded, with the plane on the
    ring's axis half a metre before the ring plane. *)
Definition themedAtRingDoor : State :=
  Samples.placeAt (mkVec3 0 8 2949.5) Samples.themedStart.

(** Level 1 of the themed build in Playing with the plane 1000 along the
    course, as when a model load ends late. *)
Definition midCourse : State :=
  Samples.placeAt (mkVec3 30 5 1000) Samples.themedStart.


(** * The ring block on doubles

    The numbers of the script are IEEE-754 doubles, and the ring block
    compares a rounded distance with 6 and 8: the two squares, their sum and
    the square root are each rounded.  At positions that the keys reach the
    rounded distance falls on the other side of 6 or 8 than the exact one
    does, so the verdict of the block is embedded here on doubles: the
    block is given the numbers it reads ([plane.position] and, of the ring,
    [position] and [userData.zPosition]) as doubles, next to the globals
    that its callees [completeLevel] and [endGame] write, none of which is
    a number the block reads. *)

Module Ring64.
Import PrimFloat.
Local Open Scope float_scope.

Record Vec3 := mkVec3 { vx : float; vy : float; vz : float }.

(** [goldenRing.position] and [goldenRing.userData.zPosition]. *)
Record Ring := mkRing { ring_position : Vec3; ring_zPosition : float }.

Definition createGoldenRing (levelDistance : float) : Ring :=
  mkRing (mkVec3 0 8 (levelDistance - 50)) (levelDistance - 50).


(** [planeZ >= zPosition - 2 && planeZ <= zPosition + 2]. *)
Definition inRingWindow (planeZ : float) (ring : Ring) : bool :=
  (ring_zPosition ring - 2 <=? planeZ) && (planeZ <=? ring_zPosition ring + 2).

Section RingBlock.

(** [Math.sqrt] and [Math.pow] of the host.  The language leaves their
    accuracy to the implementation, so the block is embedded for whatever
    they return. *)
Variable Math_sqrt : float -> float.
Variable Math_pow : float -> float -> float.

Definition distanceFromCenter (p : Vec3) (ring : Ring) : float :=
  Math_sqrt (Math_pow (vx p - vx (ring_position ring)) 2 +
             Math_pow (vy p - vy (ring_position ring)) 2).

(** Check if plane reached the golden ring, for the plane at [p]. *)
Definition ringCheck (b : Build) (p : Vec3) (goldenRing : option Ring)
    (s : State) : State :=
  match goldenRing with
  | Some ring =>
      if inRingWindow (vz p) ring then
        let distanceFromCenter := distanceFromCenter p ring in
        if distanceFromCenter <=? 6 then completeLevelOf b s
        else if (6 <? distanceFromCenter) && (distanceFromCenter <? 8)
        then endGame s
        else s
      else s
  | None => s
  end.

(** Check if plane passed the ring without going through it. *)
Definition flewPastCheck (p : Vec3) (goldenRing : option Ring) (s : State) : State :=
  match goldenRing with
  | Some ring => if ring_zPosition ring + 10 <? vz p then endGame s else s
  | None => s
  end.

(** The two blocks in their order. *)
Definition ringBlocks (b : Build) (p : Vec3) (goldenRing : option Ring)
    (s : State) : State :=
  flewPastCheck p goldenRing (ringCheck b p goldenRing s).

End RingBlock.

(** A host whose [Math.sqrt] is the correctly rounded square root and whose
    [Math.pow] with the exponent 2 is the correctly rounded square (it is
    used with no other exponent). *)
Definition sqrtRounded (a : float) : float := sqrt a.
Definition powRounded (a e : float) : float := a * a.

(** [Math.max] on doubles: NaN if an argument is NaN, else the larger one,
    with +0 above -0. *)
Definition Math_max (a b : float) : float :=
  if is_nan a then a
  else if is_nan b then b
  else if a <? b then b
  else if b <? a then a
  else if get_sign a then b else a.

(** What the steering and pitch blocks of [update] do to [planePosition.x]
    and [planePosition.y], given which keys are held. *)
#[warnings="-inexact-float"]
Definition steerX (d a : bool) (x : float) : float :=
  if d then x - 0.3 else if a then x + 0.3 else x.

#[warnings="-inexact-float"]
Definition pitchY (arrowup arrowdown : bool) (y : float) : float :=
  if arrowup then Math_max (y - 0.1) 1
  else if arrowdown then Binary64.Math_min (y + 0.1) 15
  else y.

(** The same keys held for [n] frames. *)
Fixpoint held (n : nat) (f : float -> float) (v : float) : float :=
  match n with
  | O => v
  | S n' => held n' f (f v)
  end.

(** From the start of a run (x = 0, y = 5): "a" held for 12 frames, and
    "arrowdown" held for 101 frames, then "arrowup" for 22. *)
Definition leftTwelve : float := held 12 (steerX false true) 0.
Definition downThenUp : float :=
  held 22 (pitchY true false) (held 101 (pitchY false true) 5).

(** "a" for 14 frames, "d" for 68, "a" for 74; "arrowdown" for 101 frames,
    then "arrowup" for 70. *)
Definition leftRightLeft : float :=
  held 74 (steerX false true) (held 68 (steerX true false)
    (held 14 (steerX false true) 0)).
Definition downThenFurtherUp : float :=
  held 70 (pitchY true false) (held 101 (pitchY false true) 5).

End Ring64.

(** ** The order of doubles

    [SFcompare] read as the comparison of triples of integers: the class
    (-2 for -infinity, -1 for a negative number, 0 for a zero, 1 for a
    positive number, 2 for +infinity), then the exponent and the mantissa,
    both negated for a negative number.  NaN has no triple. *)

Module FloatOrder.
Import SpecFloat.
Local Open Scope Z_scope.

Definition key (f : spec_float) : option (Z * Z * Z) :=
  match f with
  | S754_nan => None
  | S754_zero _ => Some (0, 0, 0)
  | S754_infinity s => Some (if s then -2 else 2, 0, 0)
  | S754_finite s m e =>
      Some (if s then (-1, - e, - Zpos m) else (1, e, Zpos m))
  end.

Definition lex (a b : Z * Z * Z) : comparison :=
  let '(a1, a2, a3) := a in
  let '(b1, b2, b3) := b in
  match a1 ?= b1 with
  | Eq => match a2 ?= b2 with Eq => a3 ?= b3 | c => c end
  | c => c
  end.

(** The rational number that a finite double is. *)
Definition toQ (f : PrimFloat.float) : Q :=
  match FloatOps.Prim2SF f with
  | S754_finite s m e =>
      let v := (inject_Z (Zpos m) * 2 ^ e)%Q in
      if s then (- v)%Q else v
  | _ => 0%Q
  end.

End FloatOrder.

(** * The page as the browser runs it

    [Plain.step] and [Themed.step] take the plane model as loaded and give
    no next state when a handler throws.  The script itself only starts the
    load of the model in [init] ([createPlane]) and does not wait for it:
    until the callback of the load has run, [plane] is [undefined], a frame
    in Playing throws at [plane.position.x = planePosition.x], after the
    four blocks that read the keys, and [restartGame] throws at
    [plane.position.set].  An exception ends the handler that raised it and
    nothing else: what the handler had written stays written, the next
    animation frame is already requested, and the page runs on.  This
    module embeds that: the state of the load next to the globals, and
    every handler as a total function that gives the state it leaves behind,
    whether it returns or throws.  While the load has not succeeded the
    field [plane] of the globals stands for nothing and is neither read nor
    written. *)

Module Browser.

(** [update] while [plane] is [undefined]. *)
Definition updateBeforePlane (s : State) : State :=
  if negb (gameStarted s) || gameOver s then s
  else orbit (pitch (steer (throttle s))).

(** [onKeyDown] while [plane] is [undefined]: the guard
    [key === 'c' && plane] fails. *)
Definition onKeyDownBeforePlane (eventKey : string) (s : State) : State :=
  let key := toLowerCase eventKey in
  set_keys (assignKey key true (keys s)) s.

(** "Reset game state": the assignments with which [restartGame] and
    [returnToMainMenu] begin; [started] is what [gameStarted] is given. *)
Definition resetGlobals (started : bool) (s : State) : State :=
  let s := set_gameOver false s in
  let s := set_gameStarted started s in
  let s := set_speed INITIAL_SPEED s in
  let s := set_score 0%Z s in
  let s := set_distance 0 s in
  let s := set_planePosition (mkVec3 0 5 0) s in
  let s := set_planeRotation (mkVec3 0 0 0) s in
  let s := set_cameraAngle 0 s in
  set_firstPersonView false s.

(** [returnToMainMenu] while [plane] is [undefined]: [if (plane)] skips the
    reset of the model. *)
Definition returnToMainMenuBeforePlane (s : State) : State :=
  let s := resetGlobals false s in
  let s := set_pillars [] s in
  let s := set_gameOverHidden true s in
  set_startScreenHidden false s.

(** [restartGame] of the plain build; [loaded]: whether [plane] is
    defined.  If it is not, [plane.position.set] throws after the reset of
    the globals. *)
Definition plainRestartGame (loaded : bool) (s : State) : State :=
  if loaded then Plain.restartGame s else resetGlobals true s.

(** The callback that [completeLevel] of the plain build gives to
    [setTimeout].  When [LEVELS[currentLevel - 1]] is [undefined] the read
    of its [distance] throws: the panel is hidden and [currentLevel]
    incremented, and nothing else is done. *)
Definition plainAutoAdvance (loaded : bool) (s : State) : State :=
  let s := set_gameOverHidden true s in
  let s := set_currentLevel (currentLevel s + 1)%Z s in
  match lookupLevel (currentLevel s - 1) (LEVELS s) with
  | Some level =>
      plainRestartGame loaded (set_levelDistance (level_distance level) s)
  | None => s
  end.

(** [restartGame] of the themed build.  It throws at the read of
    [LEVELS[currentLevel - 1].distance] if that entry is [undefined], and
    at [plane.position.set] if [plane] is. *)
Definition themedRestartGame (loaded : bool) (s : State) : State :=
  let finish (s : State) : State :=
    let s := set_restartBtnText RestartGameText s in
    let s := set_gameOverTitle GameOverTitle s in
    let s := resetGlobals true s in
    if loaded then
      let s := set_plane (mkMesh (mkVec3 0 5 0) PLANE_PERMANENT_ROTATION true) s in
      let s := set_pillars [] s in
      let s := Themed.loadTowerModel s in
      set_gameOverHidden true s
    else s in
  match restartBtnText s with
  | ContinueText =>
      if (currentLevel s <? LEVELS_length s)%Z then
        let s := set_currentLevel (currentLevel s + 1)%Z s in
        match lookupLevel (currentLevel s - 1) (LEVELS s) with
        | Some level => finish (set_levelDistance (level_distance level) s)
        | None => s
        end
      else finish s
  | RestartGameText => finish s
  end.

(** [selectLevel] of either build; it does not use [plane].  When
    [LEVELS[levelNum - 1]] is [undefined], the read of its [unlocked]
    throws before anything is written. *)
Definition selectLevel (b : Build) (levelNum : Z) (s : State) : State :=
  let selected :=
    match b with
    | PlainBuild => Plain.selectLevel levelNum s
    | ThemedBuild => Themed.selectLevel levelNum s
    end in
  match selected with
  | Some s' => s'
  | None => s
  end.

(** One reaction of the script to an event of the page.  [None]: the event
    cannot occur, because no timer or no load is pending. *)
Definition handle (b : Build) (loaded : bool) (e : Event) (s : State)
    : option State :=
  match e with
  | Frame => Some (if loaded then updateOf b s else updateBeforePlane s)
  | KeyDown k => Some (if loaded then onKeyDown k s else onKeyDownBeforePlane k s)
  | KeyUp k => Some (onKeyUp k s)
  | ClickStart => Some (startGame s)
  | ClickRestart =>
      Some (match b with
            | PlainBuild => plainRestartGame loaded s
            | ThemedBuild => themedRestartGame loaded s
            end)
  | ClickMainMenu =>
      Some (if loaded then returnToMainMenu s else returnToMainMenuBeforePlane s)
  | ClickLevel n => Some (selectLevel b n s)
  | TimerFires =>
      match b, timers s with
      | PlainBuild, S n => Some (plainAutoAdvance loaded (set_timers n s))
      | _, _ => None
      end
  | TowerLoaded ok =>
      match b, loads s with
      | ThemedBuild, S n => Some (Themed.towerLoaded ok (set_loads n s))
      | _, _ => None
      end
  end.

(** The load of the plane model that [createPlane] starts. *)
Inductive PlaneLoad := Pending | Loaded | Failed.

Definition isLoaded (l : PlaneLoad) : bool :=
  match l with Loaded => true | _ => false end.

Record Page := mkPage { globals : State; planeLoad : PlaneLoad }.

(** The callbacks of the load: on success the model is put at
    [planePosition] and turned by [PLANE_PERMANENT_ROTATION], and [plane]
    is set; on failure there is an alert and [plane] stays [undefined]. *)
Definition planeLoadEnds (ok : bool) (p : Page) : option Page :=
  match planeLoad p with
  | Pending =>
      let s := globals p in
      if ok then
        Some (mkPage
                (set_plane
                   (mkMesh (planePosition s) PLANE_PERMANENT_ROTATION true) s)
                Loaded)
      else
        Some (mkPage (set_alerts (alerts s ++ [PlaneModelFailedAlert]) s) Failed)
  | _ => None
  end.

(** What the host delivers: an event of the script, or the end of the load
    of the plane model. *)
Inductive Signal :=
  | Deliver (e : Event)
  | PlaneLoadEnds (ok : bool).

Definition react (b : Build) (sig : Signal) (p : Page) : option Page :=
  match sig with
  | Deliver e =>
      match handle b (isLoaded (planeLoad p)) e (globals p) with
      | Some s' => Some (mkPage s' (planeLoad p))
      | None => None
      end
  | PlaneLoadEnds ok => planeLoadEnds ok p
  end.

(** The page after [init]: the load of the plane model is pending. *)
Definition init (b : Build) (rnd : nat -> Q) : Page :=
  mkPage (initOf b rnd) Pending.

(** A sequence of signals, oldest first. *)
Fixpoint run (b : Build) (sigs : list Signal) (p : Page) : option Page :=
  match sigs with
  | [] => Some p
  | sig :: sigs' =>
      match react b sig p with
      | Some p' => run b sigs' p'
      | None => None
      end
  end.

End Browser.

(** ** A sample of the page

    The themed build: level 1 is chosen while the plane model is still
    loading, and "a" is held for 131 frames. *)
Definition steeringEarly : list Browser.Signal :=
  Browser.Deliver (ClickLevel 1) :: Browser.Deliver (KeyDown "a")
    :: repeat (Browser.Deliver Frame) 131.

Definition earlyPage : Browser.Page :=
  match Browser.run ThemedBuild steeringEarly
          (Browser.init ThemedBuild Samples.half) with
  | Some p => p
  | None => Browser.init ThemedBuild Samples.half
  end.

(** Then the model loads, and a frame follows. *)
Definition earlyLoaded : Browser.Page :=
  match Browser.react ThemedBuild (Browser.PlaneLoadEnds true) earlyPage with
  | Some p => p
  | None => earlyPage
  end.

Definition earlyClamped : Browser.Page :=
  match Browser.react ThemedBuild (Browser.Deliver Frame) earlyLoaded with
  | Some p => p
  | None => earlyLoaded
  end.

(** The themed build: the plane model loads, the tower model loads, level
    1 is chosen and its model loads, "w" is held, three frames. *)
Definition pageFlight : list Browser.Signal :=
  Browser.PlaneLoadEnds true :: map Browser.Deliver shortFlight.

Definition pageAfterFlight : Browser.Page :=
  Browser.mkPage (ticks ThemedBuild 3 Samples.themedStart) Browser.Loaded.

(** A key name of ASCII characters.  On these [toLowerCase] above is
    [String.prototype.toLowerCase]; cased letters outside ASCII it leaves
    as they are. *)
Fixpoint asciiKey (k : string) : bool :=
  match k with
  | EmptyString => true
  | String c k' => (nat_of_ascii c <? 128)%nat && asciiKey k'
  end.

(** ** The overlap test by axis

    [collisionX] and [collisionZ] of [checkCollisions]: the comparisons of
    the plane's box with the pillar's in x and in z. *)
Definition collisionX (m : Mesh) (p : Pillar) : bool :=
  Qle_bool (xPosition p - PILLAR_WIDTH / 2) (vx (position m) + 3) &&
  Qle_bool (vx (position m) - 3) (xPosition p + PILLAR_WIDTH / 2).

Definition collisionZ (m : Mesh) (p : Pillar) : bool :=
  Qle_bool (zPosition p - PILLAR_WIDTH / 2) (vz (position m) + 1) &&
  Qle_bool (vz (position m) - 1) (zPosition p + PILLAR_WIDTH / 2).
(** * Numbers *)

Lemma Qltb_lt a b : Qltb a b = true <-> a < b.
Proof.
  unfold Qltb. rewrite negb_true_iff, <- not_true_iff_false, Qle_bool_iff.
  split; [apply Qnot_le_lt | apply Qlt_not_le].
Qed.

Lemma Qltb_ge a b : Qltb a b = false <-> b <= a.
Proof. unfold Qltb. rewrite negb_false_iff. apply Qle_bool_iff. Qed.

Lemma Qle_bool_gt a b : Qle_bool a b = false <-> b < a.
Proof.
  rewrite <- not_true_iff_false, Qle_bool_iff.
  split; [apply Qnot_le_lt | apply Qlt_not_le].
Qed.

Lemma Math_min_cases a b :
  (a <= b /\ Math_min a b = a) \/ (b < a /\ Math_min a b = b).
Proof.
  unfold Math_min, Qmin, GenericMinMax.gmin.
  destruct (a ?= b) eqn:E.
  - left. split; [apply Qeq_alt in E; rewrite E; apply Qle_refl | reflexivity].
  - left. split; [apply Qlt_alt in E; apply Qlt_le_weak, E | reflexivity].
  - right. split; [apply Qgt_alt in E; exact E | reflexivity].
Qed.

Lemma Math_max_cases a b :
  (b <= a /\ Math_max a b = a) \/ (a < b /\ Math_max a b = b).
Proof.
  unfold Math_max, Qmax, GenericMinMax.gmax.
  destruct (a ?= b) eqn:E.
  - left. split; [apply Qeq_alt in E; rewrite E; apply Qle_refl | reflexivity].
  - right. split; [apply Qlt_alt in E; exact E | reflexivity].
  - left. split; [apply Qgt_alt in E; apply Qlt_le_weak, E | reflexivity].
Qed.

(** Split every [Math_min] and [Math_max] of the goal into its two cases. *)
Ltac minmax :=
  repeat match goal with
  | |- context [Math_min ?a ?b] =>
      let H := fresh in let E := fresh in
      destruct (Math_min_cases a b) as [[H E]|[H E]]; rewrite E in *; clear E
  | |- context [Math_max ?a ?b] =>
      let H := fresh in let E := fresh in
      destruct (Math_max_cases a b) as [[H E]|[H E]]; rewrite E in *; clear E
  end.

(** * Frame conditions *)

(** A global that an eraser keeps is kept by every function that writes
    at most what the eraser overwrites. *)
Lemma unchanged_by {A} (erase : State -> State) (f : State -> A)
    (g : State -> State) :
  (forall y, f (erase y) = f y) ->
  (forall x, erase (g x) = erase x) ->
  forall x, f (g x) = f x.
Proof. intros Hf Hg x. rewrite <- (Hf (g x)), Hg. apply Hf. Qed.

(** Two states that agree once erased agree on every global the eraser
    keeps. *)
Lemma agree_on {A} (erase : State -> State) (f : State -> A) :
  (forall y, f (erase y) = f y) ->
  forall x x', erase x = erase x' -> f x = f x'.
Proof. intros Hf x x' E. rewrite <- (Hf x), E. apply Hf. Qed.

(** [frame erase H] proves [f (g x) = f x] from [H : forall x, erase (g x)
    = erase x]. *)
Ltac frame erase H :=
  lazymatch goal with
  | |- ?f (?g ?x) = ?f ?x =>
      exact (unchanged_by erase f g (fun _ => eq_refl) H x)
  end.

Section Frames.

Lemma createPillar_world x z s : eraseWorld (createPillar x z s) = eraseWorld s.
Proof. reflexivity. Qed.

Lemma spawnPillars_world n z : forall s, eraseWorld (spawnPillars n z s) = eraseWorld s.
Proof.
  induction n as [|n IH]; intros s; simpl; [reflexivity|].
  rewrite IH. reflexivity.
Qed.

Lemma spawnRow_world z s : eraseWorld (spawnRow z s) = eraseWorld s.
Proof. unfold spawnRow. simpl. rewrite spawnPillars_world. reflexivity. Qed.

Lemma forRows_world n : forall z hi s, eraseWorld (forRows n z hi s) = eraseWorld s.
Proof.
  induction n as [|n IH]; intros z hi s; simpl; [reflexivity|].
  destruct (Qltb z hi); [|reflexivity].
  rewrite IH. apply spawnRow_world.
Qed.

Lemma rows_world a b s : eraseWorld (rows a b s) = eraseWorld s.
Proof. apply forRows_world. Qed.

Lemma streamPillars_world s : eraseWorld (streamPillars s) = eraseWorld s.
Proof.
  unfold streamPillars. destruct (Qltb _ _); [apply rows_world | reflexivity].
Qed.

Lemma scorePillars_world s : eraseWorld (scorePillars s) = eraseWorld s.
Proof. unfold scorePillars. destruct (scorePass _ _ _). reflexivity. Qed.

Lemma evictPillars_world s : eraseWorld (evictPillars s) = eraseWorld s.
Proof. reflexivity. Qed.

Lemma endGame_outcome s : eraseOutcome (endGame s) = eraseOutcome s.
Proof. reflexivity. Qed.

Lemma pillarCollisions_outcome box ps :
  forall s, eraseOutcome (pillarCollisions box ps s) = eraseOutcome s.
Proof.
  induction ps as [|p ps IH]; intros s; simpl; [reflexivity|].
  rewrite IH. destruct (hitsPillar box p); reflexivity.
Qed.

Lemma groundCollision_outcome s : eraseOutcome (groundCollision s) = eraseOutcome s.
Proof. unfold groundCollision. destruct (Qltb _ _); reflexivity. Qed.

Lemma eraseOutcome_timers n s : eraseOutcome (set_timers n s) = eraseOutcome s.
Proof. reflexivity. Qed.

Lemma completeLevelCommon_outcome s :
  eraseOutcome (completeLevelCommon s) = eraseOutcome s.
Proof.
  unfold completeLevelCommon.
  change (LEVELS_length (set_gameStarted false (set_gameOver true s)))
    with (LEVELS_length s).
  change (currentLevel (set_gameStarted false (set_gameOver true s)))
    with (currentLevel s).
  destruct (currentLevel s <? LEVELS_length s)%Z; reflexivity.
Qed.

Lemma constrainToBarriers_x s :
  eraseX (Themed.constrainToBarriers s) = eraseX s.
Proof.
  unfold Themed.constrainToBarriers.
  destruct (Qltb _ _); [reflexivity|]. destruct (Qltb _ _); reflexivity.
Qed.

(** The three erasers commute: each can be brought to the front. *)
Lemma eraseTail_world s : eraseTail s = eraseOutcome (eraseX (eraseWorld s)).
Proof. reflexivity. Qed.

Lemma eraseTail_outcome s : eraseTail s = eraseWorld (eraseX (eraseOutcome s)).
Proof. reflexivity. Qed.

Lemma eraseTail_x s : eraseTail s = eraseWorld (eraseOutcome (eraseX s)).
Proof. reflexivity. Qed.

Lemma tail_of_world (f : State -> State) :
  (forall s, eraseWorld (f s) = eraseWorld s) ->
  forall s, eraseTail (f s) = eraseTail s.
Proof. intros H s. rewrite !eraseTail_world, H. reflexivity. Qed.

Lemma tail_of_outcome (f : State -> State) :
  (forall s, eraseOutcome (f s) = eraseOutcome s) ->
  forall s, eraseTail (f s) = eraseTail s.
Proof. intros H s. rewrite !eraseTail_outcome, H. reflexivity. Qed.

Lemma tail_of_x (f : State -> State) :
  (forall s, eraseX (f s) = eraseX s) ->
  forall s, eraseTail (f s) = eraseTail s.
Proof. intros H s. rewrite !eraseTail_x, H. reflexivity. Qed.

Lemma completeLevelOf_outcome b s :
  eraseOutcome (completeLevelOf b s) = eraseOutcome s.
Proof.
  destruct b; cbn [completeLevelOf].
  - unfold Plain.completeLevel.
    destruct (_ <? _)%Z; [|apply completeLevelCommon_outcome].
    rewrite eraseOutcome_timers. apply completeLevelCommon_outcome.
  - apply completeLevelCommon_outcome.
Qed.

Lemma checkCollisionsOf_tail b s :
  eraseTail (checkCollisionsOf b s) = eraseTail s.
Proof.
  destruct b; cbn [checkCollisionsOf].
  - unfold Plain.checkCollisions.
    rewrite (tail_of_outcome _ groundCollision_outcome).
    apply (tail_of_outcome _ (pillarCollisions_outcome _ _)).
  - unfold Themed.checkCollisions.
    rewrite (tail_of_outcome _ groundCollision_outcome).
    rewrite (tail_of_x _ constrainToBarriers_x).
    apply (tail_of_outcome _ (pillarCollisions_outcome _ _)).
Qed.

Lemma ringCheck_outcome b s :
  eraseOutcome (ringCheck (completeLevelOf b) s) = eraseOutcome s.
Proof.
  unfold ringCheck. destruct (goldenRing s) as [ring|]; [|reflexivity].
  destruct (inRingWindow _ _); [|reflexivity].
  destruct (sqrt_leb _ _); [apply completeLevelOf_outcome|].
  destruct (_ && _); reflexivity.
Qed.

Lemma flewPastCheck_outcome s : eraseOutcome (flewPastCheck s) = eraseOutcome s.
Proof.
  unfold flewPastCheck. destruct (goldenRing s) as [ring|]; [|reflexivity].
  destruct (Qltb _ _); reflexivity.
Qed.

Lemma updateOf_unfold b s :
  updateOf b s =
  if negb (gameStarted s) || gameOver s then s
  else flewPastCheck (ringCheck (completeLevelOf b)
         (evictPillars (streamPillars (checkCollisionsOf b
            (scorePillars (kinematics s)))))).
Proof.
  destruct b;
    unfold updateOf, Plain.update, Themed.update, update, beforeRing,
      beforeEviction, checkCollisionsOf, completeLevelOf;
    reflexivity.
Qed.

Lemma running_guard s :
  running s = true -> negb (gameStarted s) || gameOver s = false.
Proof.
  unfold running. destruct (gameStarted s), (gameOver s); simpl; congruence.
Qed.

Lemma not_running_guard s :
  running s = false -> negb (gameStarted s) || gameOver s = true.
Proof.
  unfold running. destruct (gameStarted s), (gameOver s); simpl; congruence.
Qed.

Lemma updateOf_idle b s : running s = false -> updateOf b s = s.
Proof.
  intros H. rewrite updateOf_unfold, (not_running_guard _ H). reflexivity.
Qed.

(** After the kinematic blocks, a frame writes only the obstacle
    collection, the score, the outcome of the run and the lateral
    position. *)
Lemma updateOf_tail b s :
  running s = true -> eraseTail (updateOf b s) = eraseTail (kinematics s).
Proof.
  intros H. rewrite updateOf_unfold, (running_guard _ H).
  rewrite (tail_of_outcome _ flewPastCheck_outcome).
  rewrite (tail_of_outcome _ (ringCheck_outcome b)).
  rewrite (tail_of_world _ evictPillars_world).
  rewrite (tail_of_world _ streamPillars_world).
  rewrite checkCollisionsOf_tail.
  apply (tail_of_world _ scorePillars_world).
Qed.

End Frames.


(** * The kinematic blocks *)

Section Blocks.

Local Ltac by_keys :=
  intros;
  repeat match goal with
  | |- context [if keys ?s ?k then _ else _] => destruct (keys s k)
  end;
  reflexivity.

Lemma throttle_kin s : eraseKin (throttle s) = eraseKin s.
Proof. unfold throttle. destruct (keys s "w"); cbn [keys set_speed]; by_keys. Qed.

Lemma steer_kin s : eraseKin (steer s) = eraseKin s.
Proof. unfold steer. by_keys. Qed.

Lemma pitch_kin s : eraseKin (pitch s) = eraseKin s.
Proof. unfold pitch. by_keys. Qed.

Lemma orbit_kin s : eraseKin (orbit s) = eraseKin s.
Proof. unfold orbit. by_keys. Qed.

Lemma syncPlane_kin s : eraseKin (syncPlane s) = eraseKin s.
Proof. reflexivity. Qed.

Lemma advance_kin s : eraseKin (advance s) = eraseKin s.
Proof. reflexivity. Qed.

Lemma kinematics_kin s : eraseKin (kinematics s) = eraseKin s.
Proof.
  unfold kinematics.
  rewrite advance_kin, syncPlane_kin, orbit_kin, pitch_kin, steer_kin.
  apply throttle_kin.
Qed.

(** The globals that the kinematic blocks do not write. *)
Lemma kinematics_keys s : keys (kinematics s) = keys s.
Proof. frame eraseKin kinematics_kin. Qed.

Lemma kinematics_pillars s : pillars (kinematics s) = pillars s.
Proof. frame eraseKin kinematics_kin. Qed.

Lemma kinematics_score s : score (kinematics s) = score s.
Proof. frame eraseKin kinematics_kin. Qed.

Lemma kinematics_goldenRing s : goldenRing (kinematics s) = goldenRing s.
Proof. frame eraseKin kinematics_kin. Qed.

Lemma throttle_keys s : keys (throttle s) = keys s.
Proof. frame eraseKin throttle_kin. Qed.

Lemma steer_keys s : keys (steer s) = keys s.
Proof. frame eraseKin steer_kin. Qed.

Lemma pitch_keys s : keys (pitch s) = keys s.
Proof. frame eraseKin pitch_kin. Qed.

(** What each block computes for the global it writes. *)
Lemma throttle_speed s :
  speed (throttle s) =
    let v := if keys s "w" then Math_min (speed s + 0.01) MAX_SPEED else speed s in
    if keys s "s" then Math_max (v - 0.01) MIN_SPEED else v.
Proof. unfold throttle. destruct (keys s "w"); cbn [keys set_speed]; by_keys. Qed.

Lemma steer_roll s :
  vz (planeRotation (steer s)) =
    if keys s "d" then Math_min (vz (planeRotation s) + 0.02) 0.3
    else if keys s "a" then Math_max (vz (planeRotation s) - 0.02) (-0.3)
    else vz (planeRotation s) * 0.9.
Proof. unfold steer. by_keys. Qed.

Lemma steer_x s :
  vx (planePosition (steer s)) =
    if keys s "d" then vx (planePosition s) - 0.3
    else if keys s "a" then vx (planePosition s) + 0.3
    else vx (planePosition s).
Proof. unfold steer. by_keys. Qed.

Lemma pitch_pitch s :
  vx (planeRotation (pitch s)) =
    if keys s "arrowup" then Math_min (vx (planeRotation s) + 0.02) 0.3
    else if keys s "arrowdown" then Math_max (vx (planeRotation s) - 0.02) (-0.3)
    else vx (planeRotation s) * 0.9.
Proof. unfold pitch. by_keys. Qed.

Lemma pitch_y s :
  vy (planePosition (pitch s)) =
    if keys s "arrowup" then Math_max (vy (planePosition s) - 0.1) 1
    else if keys s "arrowdown" then Math_min (vy (planePosition s) + 0.1) 15
    else vy (planePosition s).
Proof. unfold pitch. by_keys. Qed.

(** What each block leaves as it is. *)
Lemma throttle_pose s :
  planePosition (throttle s) = planePosition s /\
  planeRotation (throttle s) = planeRotation s.
Proof.
  unfold throttle. destruct (keys s "w"); cbn [keys set_speed];
    destruct (keys s "s"); split; reflexivity.
Qed.

Lemma steer_rest s :
  speed (steer s) = speed s /\
  vx (planeRotation (steer s)) = vx (planeRotation s) /\
  vy (planePosition (steer s)) = vy (planePosition s).
Proof. unfold steer. destruct (keys s "d"), (keys s "a"); repeat split. Qed.

Lemma pitch_rest s :
  speed (pitch s) = speed s /\
  vz (planeRotation (pitch s)) = vz (planeRotation s) /\
  vx (planePosition (pitch s)) = vx (planePosition s).
Proof.
  unfold pitch. destruct (keys s "arrowup"), (keys s "arrowdown"); repeat split.
Qed.

Lemma orbit_rest s :
  speed (orbit s) = speed s /\
  planeRotation (orbit s) = planeRotation s /\
  planePosition (orbit s) = planePosition s.
Proof.
  unfold orbit. destruct (keys s "arrowright"), (keys s "arrowleft"); repeat split.
Qed.

Lemma syncPlane_rest s :
  speed (syncPlane s) = speed s /\
  planeRotation (syncPlane s) = planeRotation s /\
  planePosition (syncPlane s) = planePosition s.
Proof. repeat split. Qed.

Lemma advance_rest s :
  speed (advance s) = speed s /\
  planeRotation (advance s) = planeRotation s /\
  vx (planePosition (advance s)) = vx (planePosition s) /\
  vy (planePosition (advance s)) = vy (planePosition s).
Proof. repeat split. Qed.

(** The same for the whole of [kinematics]. *)
Lemma kinematics_speed s : speed (kinematics s) = speed (throttle s).
Proof.
  unfold kinematics.
  rewrite (proj1 (advance_rest _)), (proj1 (syncPlane_rest _)).
  rewrite (proj1 (orbit_rest _)), (proj1 (pitch_rest _)), (proj1 (steer_rest _)).
  reflexivity.
Qed.

Lemma kinematics_roll s :
  vz (planeRotation (kinematics s)) = vz (planeRotation (steer s)).
Proof.
  unfold kinematics.
  rewrite (proj1 (proj2 (advance_rest _))), (proj1 (proj2 (syncPlane_rest _))).
  rewrite (proj1 (proj2 (orbit_rest _))), (proj1 (proj2 (pitch_rest _))).
  rewrite !steer_roll, throttle_keys, (proj2 (throttle_pose s)). reflexivity.
Qed.

Lemma kinematics_pitch s :
  vx (planeRotation (kinematics s)) = vx (planeRotation (pitch s)).
Proof.
  unfold kinematics.
  rewrite (proj1 (proj2 (advance_rest _))), (proj1 (proj2 (syncPlane_rest _))).
  rewrite (proj1 (proj2 (orbit_rest _))).
  rewrite !pitch_pitch, steer_keys, throttle_keys.
  rewrite (proj1 (proj2 (steer_rest _))), (proj2 (throttle_pose s)). reflexivity.
Qed.

Lemma kinematics_y s :
  vy (planePosition (kinematics s)) = vy (planePosition (pitch s)).
Proof.
  unfold kinematics.
  rewrite (proj2 (proj2 (proj2 (advance_rest _)))).
  rewrite (proj2 (proj2 (syncPlane_rest _))).
  rewrite (proj2 (proj2 (orbit_rest _))).
  rewrite !pitch_y, steer_keys, throttle_keys.
  rewrite (proj2 (proj2 (steer_rest _))), (proj1 (throttle_pose s)). reflexivity.
Qed.

Lemma kinematics_x s :
  vx (planePosition (kinematics s)) = vx (planePosition (steer s)).
Proof.
  unfold kinematics.
  rewrite (proj1 (proj2 (proj2 (advance_rest _)))).
  rewrite (proj2 (proj2 (syncPlane_rest _))).
  rewrite (proj2 (proj2 (orbit_rest _))), (proj2 (proj2 (pitch_rest _))).
  rewrite !steer_x, throttle_keys, (proj1 (throttle_pose s)). reflexivity.
Qed.

(** When the kinematic blocks are done the model is where [planePosition]
    says. *)
Lemma kinematics_plane s :
  vx (position (plane (kinematics s))) = vx (planePosition (kinematics s)) /\
  vy (position (plane (kinematics s))) = vy (planePosition (kinematics s)) /\
  vz (position (plane (kinematics s))) = vz (planePosition (kinematics s)).
Proof. unfold kinematics. repeat split. Qed.

End Blocks.

(** A global kept by [eraseTail] has, after a frame in Playing, the value
    the kinematic blocks gave it. *)
Lemma tail_field {A} (f : State -> A) b s :
  (forall y, f (eraseTail y) = f y) ->
  running s = true -> f (updateOf b s) = f (kinematics s).
Proof.
  intros Hf H. rewrite <- (Hf (updateOf b s)), (updateOf_tail b s H). apply Hf.
Qed.

Lemma updateOf_speed b s :
  running s = true -> speed (updateOf b s) = speed (throttle s).
Proof.
  intros H. rewrite (tail_field speed b s (fun _ => eq_refl) H).
  apply kinematics_speed.
Qed.

Lemma updateOf_keys b s : keys (updateOf b s) = keys s.
Proof.
  destruct (running s) eqn:H; [|rewrite (updateOf_idle b s H); reflexivity].
  rewrite (tail_field keys b s (fun _ => eq_refl) H). apply kinematics_keys.
Qed.

Lemma updateOf_roll b s :
  running s = true ->
  vz (planeRotation (updateOf b s)) = vz (planeRotation (steer s)).
Proof.
  intros H.
  rewrite (tail_field (fun x => vz (planeRotation x)) b s (fun _ => eq_refl) H).
  apply kinematics_roll.
Qed.

Lemma updateOf_pitch b s :
  running s = true ->
  vx (planeRotation (updateOf b s)) = vx (planeRotation (pitch s)).
Proof.
  intros H.
  rewrite (tail_field (fun x => vx (planeRotation x)) b s (fun _ => eq_refl) H).
  apply kinematics_pitch.
Qed.

Lemma updateOf_y b s :
  running s = true ->
  vy (planePosition (updateOf b s)) = vy (planePosition (pitch s)).
Proof.
  intros H.
  rewrite (tail_field (fun x => vy (planePosition x)) b s (fun _ => eq_refl) H).
  apply kinematics_y.
Qed.

(** * The sample states are reached *)

Lemma plainStart_reached :
  run PlainBuild Samples.plainEvents (Plain.init Samples.half)
  = Some Samples.plainStart.
Proof. vm_compute. reflexivity. Qed.

Lemma themedStart_reached :
  run ThemedBuild Samples.themedEvents (Themed.init Samples.half)
  = Some Samples.themedStart.
Proof. vm_compute. reflexivity. Qed.

(** * Speed, pitch and roll stay in their envelopes *)

Module Kinematics.

Lemma throttle_bounds s :
  MIN_SPEED <= speed s <= MAX_SPEED ->
  MIN_SPEED <= speed (throttle s) <= MAX_SPEED.
Proof.
  intros H. rewrite throttle_speed. unfold MIN_SPEED, MAX_SPEED in *. cbv zeta.
  destruct (keys s "w"), (keys s "s"); minmax; lra.
Qed.

Lemma steer_bounds s :
  -0.3 <= vz (planeRotation s) <= 0.3 ->
  -0.3 <= vz (planeRotation (steer s)) <= 0.3.
Proof.
  intros H. rewrite steer_roll.
  destruct (keys s "d"), (keys s "a"); minmax; lra.
Qed.

Lemma pitch_bounds s :
  -0.3 <= vx (planeRotation s) <= 0.3 ->
  -0.3 <= vx (planeRotation (pitch s)) <= 0.3.
Proof.
  intros H. rewrite pitch_pitch.
  destruct (keys s "arrowup"), (keys s "arrowdown"); minmax; lra.
Qed.

(** C5.  Whatever keys are held, a frame keeps the speed in
    [MIN_SPEED, MAX_SPEED] = [0.1, 5] and the pitch and roll angles in
    [-0.3, 0.3], in both builds: the throttle is clamped at the two speed
    bounds, the steering and pitch increments at +0.3 and -0.3, and the
    decay by 0.9 stays inside the interval. *)
Theorem envelope_preserved (b : Build) (s : State) :
  inEnvelope s -> inEnvelope (updateOf b s).
Proof.
  intros (Hs & Hp & Hr).
  destruct (running s) eqn:Run; [|rewrite (updateOf_idle b s Run); repeat split; tauto].
  unfold inEnvelope.
  rewrite (updateOf_speed b s Run), (updateOf_pitch b s Run), (updateOf_roll b s Run).
  split; [apply throttle_bounds, Hs|].
  split; [apply pitch_bounds, Hp | apply steer_bounds, Hr].
Qed.

Lemma envelope_preserved_witness :
  inEnvelope Samples.plainStart /\ inEnvelope (updateOf PlainBuild Samples.plainStart).
Proof.
  assert (H : inEnvelope Samples.plainStart).
  { vm_compute. repeat split; discriminate. }
  split; [exact H | exact (envelope_preserved PlainBuild _ H)].
Defined.

(** Frames do not touch the keys, so a held key stays held. *)
Lemma ticks_keys b n : forall s, keys (ticks b n s) = keys s.
Proof.
  induction n as [|n IH]; intros s; cbn [ticks]; [reflexivity|].
  rewrite IH. apply updateOf_keys.
Qed.

Lemma ticks_succ b n s : ticks b (S n) s = updateOf b (ticks b n s).
Proof.
  revert s. induction n as [|n IH]; intros s; [reflexivity|].
  cbn [ticks] in *. rewrite IH. reflexivity.
Qed.

Lemma staysRunning_succ b n s :
  staysRunning b (S n) s = true ->
  staysRunning b n s = true /\ running (ticks b n s) = true.
Proof.
  revert s. induction n as [|n IH]; intros s H.
  - cbn in H |- *. rewrite andb_true_r in H. auto.
  - cbn [staysRunning] in H. apply andb_true_iff in H as [R H].
    destruct (IH _ H) as [H1 H2]. cbn [staysRunning ticks]. rewrite R, H1. auto.
Qed.

(** With "w" held and "s" released, [n] frames in Playing add [n] times
    0.01 to the speed, as long as that stays below the cap. *)
Lemma speed_after_ticks b n : forall s,
  keys s "w" = true -> keys s "s" = false ->
  staysRunning b n s = true ->
  speed s + 0.01 * inject_Z (Z.of_nat n) <= MAX_SPEED ->
  speed (ticks b n s) == speed s + 0.01 * inject_Z (Z.of_nat n).
Proof.
  induction n as [|n IH]; intros s Hw Hs Hrun Hcap.
  - cbn [ticks]. change (inject_Z (Z.of_nat 0)) with 0. ring.
  - destruct (staysRunning_succ b n s Hrun) as [Hrun' Hlast].
    assert (E : inject_Z (Z.of_nat (S n)) == inject_Z (Z.of_nat n) + 1).
    { rewrite Nat2Z.inj_succ. unfold Z.succ. rewrite inject_Z_plus. reflexivity. }
    assert (Hpos : 0 <= inject_Z (Z.of_nat n)).
    { change 0 with (inject_Z 0). rewrite <- Zle_Qle. lia. }
    rewrite E in Hcap.
    assert (Hcap' : speed s + 0.01 * inject_Z (Z.of_nat n) <= MAX_SPEED) by lra.
    specialize (IH s Hw Hs Hrun' Hcap').
    rewrite ticks_succ, (updateOf_speed b _ Hlast), throttle_speed.
    rewrite !ticks_keys, Hw, Hs. cbv zeta.
    destruct (Math_min_cases (speed (ticks b n s) + 0.01) MAX_SPEED) as [[_ ->]|[C _]].
    + rewrite IH, E. ring.
    + rewrite IH in C. lra.
Qed.

(** The same fifty additions on doubles do not end at 1. *)
Lemma fifty_frames_in_binary64 :
  Binary64.frames 50 Binary64.INITIAL_SPEED = Binary64.one_and_two_ulps /\
  Binary64.frames 50 Binary64.INITIAL_SPEED <> Binary64.one.
Proof.
  assert (E : Binary64.frames 50 Binary64.INITIAL_SPEED = Binary64.one_and_two_ulps)
    by (vm_compute; reflexivity).
  split; [exact E|]. rewrite E. intros H.
  assert (B : PrimFloat.eqb Binary64.one_and_two_ulps Binary64.one = true)
    by (rewrite H; reflexivity).
  vm_compute in B. discriminate.
Qed.

(** C8, as the code has it.  In a frame in Playing, in both builds: with
    only the increase key held the speed becomes
    [min (speed + 0.01) MAX_SPEED]; with only the decrease key held it
    becomes [max (speed - 0.01) MIN_SPEED]; with neither held it is
    unchanged; with both held the increase is applied and then the
    decrease.  Hence, from speed 0.5, fifty consecutive frames in Playing
    with the increase key held give [min (0.5 + 0.01 * 50) 5 = 1] in exact
    arithmetic; computed on doubles, as the script does, the fifty additions
    give 1.0000000000000004 (1 + 2^-51). *)
Theorem throttle_rule (b : Build) (s : State) :
  running s = true ->
  (keys s "w" = true -> keys s "s" = false ->
     speed (updateOf b s) = Math_min (speed s + 0.01) MAX_SPEED) /\
  (keys s "w" = false -> keys s "s" = true ->
     speed (updateOf b s) = Math_max (speed s - 0.01) MIN_SPEED) /\
  (keys s "w" = false -> keys s "s" = false ->
     speed (updateOf b s) = speed s) /\
  (keys s "w" = true -> keys s "s" = true ->
     speed (updateOf b s)
       = Math_max (Math_min (speed s + 0.01) MAX_SPEED - 0.01) MIN_SPEED) /\
  (keys s "w" = true -> keys s "s" = false ->
   speed s == 0.5 -> staysRunning b 50 s = true ->
     speed (ticks b 50 s) == Math_min (0.5 + 0.01 * 50) MAX_SPEED /\
     speed (ticks b 50 s) == 1) /\
  Binary64.frames 50 Binary64.INITIAL_SPEED = Binary64.one_and_two_ulps.
Proof.
  intros Run. rewrite (updateOf_speed b s Run), throttle_speed. cbv zeta.
  split; [intros -> ->; reflexivity|].
  split; [intros -> ->; reflexivity|].
  split; [intros -> ->; reflexivity|].
  split; [intros -> ->; reflexivity|].
  split; [|vm_compute; reflexivity].
  intros Hw Hs Hhalf Hfifty.
  assert (Hcap : speed s + 0.01 * inject_Z (Z.of_nat 50) <= MAX_SPEED).
  { rewrite Hhalf. vm_compute. discriminate. }
  split; rewrite (speed_after_ticks b 50 s Hw Hs Hfifty Hcap), Hhalf; reflexivity.
Qed.

Lemma throttle_rule_witness :
  running Samples.themedStart = true /\
  speed (updateOf ThemedBuild Samples.themedStart) = Math_min (0.5 + 0.01) 5 /\
  speed (ticks ThemedBuild 50 Samples.themedStart) == 1.
Proof.
  assert (Run : running Samples.themedStart = true) by (vm_compute; reflexivity).
  destruct (throttle_rule ThemedBuild Samples.themedStart Run)
    as (Up & _ & _ & _ & Fifty & _).
  split; [exact Run|]. split.
  - apply Up; vm_compute; reflexivity.
  - apply Fifty; vm_compute; reflexivity.
Defined.

End Kinematics.

(** * Event handlers and the plane's position *)

Section Handlers.

Lemma generatePillarsFrom_world z s :
  eraseWorld (generatePillarsFrom z s) = eraseWorld s.
Proof. apply rows_world. Qed.

Lemma generatePillarsFrom_pose z s : pose (generatePillarsFrom z s) = pose s.
Proof. frame eraseWorld (generatePillarsFrom_world z). Qed.

Lemma createGoldenRing_pose s : pose (createGoldenRing s) = pose s.
Proof. reflexivity. Qed.

Lemma resetRun_pose s : pose (resetRun s) = startPose.
Proof. reflexivity. Qed.

Lemma plain_restartGame_pose s : pose (Plain.restartGame s) = startPose.
Proof.
  unfold Plain.restartGame, Plain.generatePillars. cbv zeta.
  assert (H : forall y, pose (set_gameOverHidden true y) = pose y) by reflexivity.
  rewrite H, createGoldenRing_pose, generatePillarsFrom_pose.
  apply resetRun_pose.
Qed.

Lemma themed_restartGame_pose s s' :
  Themed.restartGame s = Some s' -> pose s' = startPose.
Proof.
  unfold Themed.restartGame.
  destruct (restartBtnText s).
  - intros [= <-]. reflexivity.
  - destruct (_ <? _)%Z.
    + destruct (lookupLevel _ _); [|discriminate]. intros [= <-]. reflexivity.
    + intros [= <-]. reflexivity.
Qed.

Lemma onKeyDown_pose k s : pose (onKeyDown k s) = pose s.
Proof. unfold onKeyDown. destruct (String.eqb _ _); reflexivity. Qed.

Lemma themed_towerLoaded_pose ok s : pose (Themed.towerLoaded ok s) = pose s.
Proof.
  unfold Themed.towerLoaded, Themed.generatePillars. cbv zeta.
  assert (H : forall y, pose (Themed.createBarriers y) = pose y) by reflexivity.
  destruct ok; rewrite createGoldenRing_pose, H, generatePillarsFrom_pose;
    reflexivity.
Qed.

Lemma selectLevel_pose b n s s' :
  stepOf b (ClickLevel n) s = Some s' -> pose s' = pose s.
Proof.
  destruct b; cbn [stepOf Plain.step Themed.step];
    unfold Plain.selectLevel, Themed.selectLevel, Themed.selectLevelWith;
    (destruct (lookupLevel _ _); [|discriminate]);
    match goal with |- context [if ?c then _ else _] => destruct c end;
    intros [= <-]; reflexivity.
Qed.

(** Apart from the frame, a handler leaves the plane as it is or puts it
    back to the start of a run. *)
Lemma step_pose b e s s' :
  stepOf b e s = Some s' -> e <> Frame ->
  pose s' = pose s \/ pose s' = startPose.
Proof.
  intros H NF. destruct e as [ |k|k| | | |n| |ok]; try congruence.
  - left. destruct b; injection H as <-; apply onKeyDown_pose.
  - left. destruct b; injection H as <-; reflexivity.
  - left. destruct b; injection H as <-; reflexivity.
  - right. destruct b; cbn [stepOf Plain.step Themed.step] in H.
    + injection H as <-. apply plain_restartGame_pose.
    + apply (themed_restartGame_pose _ _ H).
  - right. destruct b; injection H as <-; reflexivity.
  - left. apply (selectLevel_pose _ _ _ _ H).
  - right. destruct b; cbn [stepOf Plain.step Themed.step] in H; [|discriminate].
    destruct (timers s) as [|m]; [discriminate|].
    unfold Plain.autoAdvance in H.
    destruct (lookupLevel _ _); [|discriminate].
    injection H as <-. apply plain_restartGame_pose.
  - left. destruct b; cbn [stepOf Plain.step Themed.step] in H; [discriminate|].
    destruct (loads s) as [|m]; [discriminate|].
    injection H as <-.
    rewrite themed_towerLoaded_pose. reflexivity.
Qed.

(** A property kept by every handler holds along every sequence of events. *)
Lemma run_invariant (P : State -> Prop) b :
  (forall e s s', P s -> stepOf b e s = Some s' -> P s') ->
  forall es s s', P s -> run b es s = Some s' -> P s'.
Proof.
  intros Hstep es. induction es as [|e es IH]; intros s s' Hs Hrun;
    cbn [run] in Hrun.
  - injection Hrun as <-. exact Hs.
  - destruct (stepOf b e s) as [s1|] eqn:E; [|discriminate].
    apply (IH s1 s' (Hstep e s s1 Hs E) Hrun).
Qed.

Lemma initOf_pose b rnd : pose (initOf b rnd) = startPose.
Proof.
  destruct b; cbn [initOf]; [|reflexivity].
  unfold Plain.init, Plain.generatePillars.
  rewrite createGoldenRing_pose, generatePillarsFrom_pose. reflexivity.
Qed.

(** A property of the pose that holds at the start of a run and is kept
    by the frame holds in every state the script can reach. *)
Lemma pose_invariant (P : Vec3 * Vec3 * Q -> Prop) b :
  P startPose ->
  (forall s, P (pose s) -> P (pose (updateOf b s))) ->
  forall rnd es s, run b es (initOf b rnd) = Some s -> P (pose s).
Proof.
  intros H0 Hf rnd es s Hrun.
  apply (run_invariant (fun x => P (pose x)) b) with (es := es) (s := initOf b rnd);
    [|rewrite initOf_pose; exact H0|exact Hrun].
  intros e x x' Hx Hstep.
  destruct e; try (destruct (step_pose b _ x x' Hstep) as [-> | ->];
                   [discriminate|assumption|assumption]).
  destruct b; injection Hstep as <-; apply Hf, Hx.
Qed.

End Handlers.

(** * The altitude band and the ground test *)

Module Altitude.

Lemma altitude_rule b s :
  running s = true ->
  vy (planePosition (updateOf b s)) =
    if keys s "arrowup" then Math_max (vy (planePosition s) - 0.1) 1
    else if keys s "arrowdown" then Math_min (vy (planePosition s) + 0.1) 15
    else vy (planePosition s).
Proof. intros H. rewrite (updateOf_y b s H). apply pitch_y. Qed.

Lemma altitude_kept b s :
  1 <= vy (planePosition s) <= 15 -> 1 <= vy (planePosition (updateOf b s)) <= 15.
Proof.
  intros H. destruct (running s) eqn:Run; [|rewrite (updateOf_idle b s Run); exact H].
  rewrite (altitude_rule b s Run).
  destruct (keys s "arrowup"), (keys s "arrowdown"); minmax; lra.
Qed.

(** The height that the ground test reads is the one the pitch block
    computed. *)
Lemma atGroundTest_planeY b s :
  planeY (atGroundTest b s) = vy (planePosition (pitch s)).
Proof.
  assert (K : planeY (scorePillars (kinematics s)) = vy (planePosition (pitch s))).
  { rewrite (unchanged_by eraseWorld planeY scorePillars (fun _ => eq_refl)
               scorePillars_world).
    unfold planeY. rewrite (proj1 (proj2 (kinematics_plane s))). apply kinematics_y. }
  unfold atGroundTest. cbv zeta. destruct b.
  - rewrite (unchanged_by eraseOutcome planeY _ (fun _ => eq_refl)
               (pillarCollisions_outcome _ _)).
    exact K.
  - rewrite (unchanged_by eraseX planeY _ (fun _ => eq_refl) constrainToBarriers_x).
    rewrite (unchanged_by eraseOutcome planeY _ (fun _ => eq_refl)
               (pillarCollisions_outcome _ _)).
    exact K.
Qed.

Lemma checkCollisionsOf_ground b s :
  checkCollisionsOf b (scorePillars (kinematics s)) = groundCollision (atGroundTest b s).
Proof.
  destruct b;
    unfold checkCollisionsOf, atGroundTest, Plain.checkCollisions,
      Themed.checkCollisions; reflexivity.
Qed.

Lemma ground_test_passes b s :
  1 <= vy (planePosition s) <= 15 ->
  groundCollision (atGroundTest b s) = atGroundTest b s.
Proof.
  intros H. unfold groundCollision.
  change (vy (position (plane (atGroundTest b s)))) with (planeY (atGroundTest b s)).
  rewrite atGroundTest_planeY.
  replace (Qltb (vy (planePosition (pitch s))) 0.5) with false; [reflexivity|].
  symmetry. apply Qltb_ge. rewrite pitch_y.
  destruct (keys s "arrowup"), (keys s "arrowdown"); minmax; lra.
Qed.

(** C10.  In every state that either build can reach from its initial
    state (where y = 5), [planePosition.y] lies in [1, 15].  In a frame in
    Playing, y becomes [max (y - 0.1) 1] with pitch-up held, else
    [min (y + 0.1) 15] with pitch-down held, else it is unchanged; and the
    ground test [plane.position.y < 0.5] of [checkCollisions] is false, so
    its game-over branch does nothing. *)
Theorem ground_unreachable (b : Build) (rnd : nat -> Q) (es : list Event) (s : State) :
  run b es (initOf b rnd) = Some s ->
  1 <= vy (planePosition s) <= 15 /\
  (running s = true ->
     vy (planePosition (updateOf b s)) =
       (if keys s "arrowup" then Math_max (vy (planePosition s) - 0.1) 1
        else if keys s "arrowdown" then Math_min (vy (planePosition s) + 0.1) 15
        else vy (planePosition s)) /\
     Qltb (vy (position (plane (atGroundTest b s)))) 0.5 = false /\
     checkCollisionsOf b (scorePillars (kinematics s)) = atGroundTest b s).
Proof.
  intros Hrun.
  assert (J : 1 <= vy (planePosition s) <= 15).
  { apply (pose_invariant (fun p => 1 <= vy (fst (fst p)) <= 15) b) with rnd es.
    - cbn. lra.
    - intros x. cbn [pose fst]. apply altitude_kept.
    - exact Hrun. }
  split; [exact J|]. intros Run.
  split; [apply (altitude_rule b s Run)|].
  pose proof (ground_test_passes b s J) as G.
  split.
  - unfold groundCollision in G.
    destruct (Qltb (vy (position (plane (atGroundTest b s)))) 0.5) eqn:E;
      [|reflexivity].
    exfalso. change (vy (position (plane (atGroundTest b s))))
      with (planeY (atGroundTest b s)) in E.
    rewrite atGroundTest_planeY in E. apply Qltb_lt in E.
    rewrite pitch_y in E.
    destruct (keys s "arrowup"), (keys s "arrowdown"); revert E; minmax; lra.
  - rewrite checkCollisionsOf_ground. exact G.
Qed.

Lemma ground_unreachable_witness :
  1 <= vy (planePosition Samples.themedStart) <= 15 /\
  Qltb (vy (position (plane (atGroundTest ThemedBuild Samples.themedStart)))) 0.5
  = false.
Proof.
  destruct (ground_unreachable ThemedBuild Samples.half Samples.themedEvents
              Samples.themedStart themedStart_reached) as [J F].
  split; [exact J|]. apply F. vm_compute. reflexivity.
Defined.

End Altitude.

(** * The side barriers *)

Module Barriers.

Lemma eraseWO_world s : eraseWO s = eraseOutcome (eraseWorld s).
Proof. reflexivity. Qed.

Lemma wo_of_world (f : State -> State) :
  (forall s, eraseWorld (f s) = eraseWorld s) ->
  forall s, eraseWO (f s) = eraseWO s.
Proof. intros H s. rewrite !eraseWO_world, H. reflexivity. Qed.

Lemma wo_of_outcome (f : State -> State) :
  (forall s, eraseOutcome (f s) = eraseOutcome s) ->
  forall s, eraseWO (f s) = eraseWO s.
Proof. intros H s. unfold eraseWO. rewrite H. reflexivity. Qed.

(** After the collision check a frame writes only the obstacle collection,
    the score and the outcome of the run. *)
Lemma updateOf_after_check b s :
  running s = true -> eraseWO (updateOf b s) = eraseWO (atGroundTest b s).
Proof.
  intros H. rewrite updateOf_unfold, (running_guard _ H).
  rewrite (wo_of_outcome _ flewPastCheck_outcome).
  rewrite (wo_of_outcome _ (ringCheck_outcome b)).
  rewrite (wo_of_world _ evictPillars_world).
  rewrite (wo_of_world _ streamPillars_world).
  rewrite Altitude.checkCollisionsOf_ground.
  apply (wo_of_outcome _ groundCollision_outcome).
Qed.

Lemma updateOf_position b s :
  running s = true ->
  planePosition (updateOf b s) = planePosition (atGroundTest b s) /\
  plane (updateOf b s) = plane (atGroundTest b s).
Proof.
  intros H. split.
  - apply (agree_on eraseWO planePosition (fun _ => eq_refl) _ _
             (updateOf_after_check b s H)).
  - apply (agree_on eraseWO plane (fun _ => eq_refl) _ _
             (updateOf_after_check b s H)).
Qed.

(** The clamp, whatever the position before it. *)
Lemma constrain_within s : withinBarriers (Themed.constrainToBarriers s).
Proof.
  unfold withinBarriers, Themed.constrainToBarriers. cbv zeta.
  destruct (Qltb (vx (planePosition s) - 3) (- (42))) eqn:L.
  - cbn. lra.
  - destruct (Qltb 42 (vx (planePosition s) + 3)) eqn:R.
    + cbn. lra.
    + apply Qltb_ge in L, R. lra.
Qed.

Lemma constrain_synced s :
  vx (position (plane s)) = vx (planePosition s) ->
  vx (position (plane (Themed.constrainToBarriers s)))
  = vx (planePosition (Themed.constrainToBarriers s)).
Proof.
  intros H. unfold Themed.constrainToBarriers. cbv zeta.
  destruct (Qltb _ _); [reflexivity|]. destruct (Qltb _ _); [reflexivity|exact H].
Qed.

(** The clamp changes the lateral position and nothing else; in
    particular it does not end the run. *)
Lemma constrain_phase s : phase (Themed.constrainToBarriers s) = phase s.
Proof.
  exact (unchanged_by eraseX phase _ (fun _ => eq_refl) constrainToBarriers_x s).
Qed.

Lemma groundCollision_constrain s :
  eraseX (groundCollision (Themed.constrainToBarriers s))
  = eraseX (groundCollision s).
Proof.
  unfold groundCollision.
  rewrite (unchanged_by eraseX planeY _ (fun _ => eq_refl) constrainToBarriers_x s
           : vy (position (plane (Themed.constrainToBarriers s))) = _).
  fold (planeY s).
  assert (E : forall y, eraseX (endGame y) = endGame (eraseX y)) by reflexivity.
  destruct (Qltb (planeY s) 0.5).
  - rewrite !E, constrainToBarriers_x. reflexivity.
  - apply constrainToBarriers_x.
Qed.

(** The themed collision check differs from the plain one in the lateral
    position only. *)
Lemma themed_check_is_plain_check s :
  eraseX (Themed.checkCollisions s) = eraseX (Plain.checkCollisions s).
Proof.
  unfold Themed.checkCollisions, Plain.checkCollisions. cbv zeta.
  apply groundCollision_constrain.
Qed.

Lemma themed_frame_within s :
  running s = true ->
  withinBarriers (Themed.update s) /\
  vx (position (plane (Themed.update s))) = vx (planePosition (Themed.update s)).
Proof.
  intros H. unfold withinBarriers.
  destruct (updateOf_position ThemedBuild s H) as [P M].
  cbn [updateOf] in P, M. rewrite P, M.
  unfold atGroundTest. cbv zeta. split; [apply constrain_within|].
  apply constrain_synced.
  set (c := scorePillars (kinematics s)).
  rewrite (unchanged_by eraseOutcome (fun x => vx (position (plane x))) _
             (fun _ => eq_refl) (pillarCollisions_outcome (plane c) (pillars c)) c).
  rewrite (unchanged_by eraseOutcome (fun x => vx (planePosition x)) _
             (fun _ => eq_refl) (pillarCollisions_outcome (plane c) (pillars c)) c).
  subst c.
  rewrite (unchanged_by eraseWorld (fun x => vx (position (plane x))) _
             (fun _ => eq_refl) scorePillars_world).
  rewrite (unchanged_by eraseWorld (fun x => vx (planePosition x)) _
             (fun _ => eq_refl) scorePillars_world).
  apply (proj1 (kinematics_plane s)).
Qed.

(** In the plain build nothing bounds the lateral position: a frame in
    Playing moves it by 0.3 as long as a steering key is held. *)
Lemma plain_frame_x s :
  running s = true ->
  vx (planePosition (Plain.update s)) =
    if keys s "d" then vx (planePosition s) - 0.3
    else if keys s "a" then vx (planePosition s) + 0.3
    else vx (planePosition s).
Proof.
  intros H. destruct (updateOf_position PlainBuild s H) as [P _].
  cbn [updateOf] in P. rewrite P.
  unfold atGroundTest. cbv zeta.
  set (c := scorePillars (kinematics s)).
  rewrite (unchanged_by eraseOutcome (fun x => vx (planePosition x)) _
             (fun _ => eq_refl) (pillarCollisions_outcome (plane c) (pillars c)) c).
  subst c.
  rewrite (unchanged_by eraseWorld (fun x => vx (planePosition x)) _
             (fun _ => eq_refl) scorePillars_world).
  rewrite kinematics_x. apply steer_x.
Qed.

Lemma themed_frame_keeps_within s :
  withinBarriers s -> withinBarriers (Themed.update s).
Proof.
  intros H. destruct (running s) eqn:Run.
  - apply (themed_frame_within s Run).
  - change (Themed.update s) with (updateOf ThemedBuild s).
    rewrite (updateOf_idle ThemedBuild s Run). exact H.
Qed.

(** The lateral position that the clamp leaves, from the one it finds. *)
Lemma constrain_x s :
  let x := vx (planePosition s) in
  let x' := vx (planePosition (Themed.constrainToBarriers s)) in
  (x < -39 -> x' = -39) /\ (39 < x -> x' = 39) /\ (-39 <= x <= 39 -> x' = x).
Proof.
  cbv zeta. unfold Themed.constrainToBarriers. cbv zeta.
  destruct (Qltb (vx (planePosition s) - 3) (- (42))) eqn:L.
  - apply Qltb_lt in L. repeat split; intros H; try reflexivity; lra.
  - apply Qltb_ge in L.
    destruct (Qltb 42 (vx (planePosition s) + 3)) eqn:R.
    + apply Qltb_lt in R. repeat split; intros H; try reflexivity; lra.
    + apply Qltb_ge in R. repeat split; intros H; try reflexivity; lra.
Qed.

(** The clamp of a frame works on the lateral position that the steering
    block left. *)
Lemma themed_frame_rule s :
  running s = true ->
  let x := if keys s "d" then vx (planePosition s) - 0.3
           else if keys s "a" then vx (planePosition s) + 0.3
           else vx (planePosition s) in
  let x' := vx (planePosition (Themed.update s)) in
  (x < -39 -> x' = -39) /\ (39 < x -> x' = 39) /\ (-39 <= x <= 39 -> x' = x).
Proof.
  intros H. cbv zeta.
  destruct (updateOf_position ThemedBuild s H) as [P _].
  cbn [updateOf] in P. rewrite P.
  unfold atGroundTest. cbv zeta.
  set (c := scorePillars (kinematics s)).
  set (c' := pillarCollisions (plane c) (pillars c) c).
  assert (X : vx (planePosition c')
              = if keys s "d" then vx (planePosition s) - 0.3
                else if keys s "a" then vx (planePosition s) + 0.3
                else vx (planePosition s)).
  { unfold c'.
    rewrite (unchanged_by eraseOutcome (fun x => vx (planePosition x)) _
               (fun _ => eq_refl) (pillarCollisions_outcome (plane c) (pillars c)) c).
    unfold c.
    rewrite (unchanged_by eraseWorld (fun x => vx (planePosition x)) _
               (fun _ => eq_refl) scorePillars_world).
    rewrite kinematics_x. apply steer_x. }
  rewrite <- X. apply (constrain_x c').
Qed.

Lemma controls_kin s :
  eraseKin (orbit (pitch (steer (throttle s)))) = eraseKin s.
Proof. rewrite orbit_kin, pitch_kin, steer_kin. apply throttle_kin. Qed.

(** A frame before the plane model has loaded: the steering block has
    moved [planePosition.x], the frame has thrown before the collision
    check, and the run is in Playing as before. *)
Lemma frame_before_plane s :
  running s = true ->
  vx (planePosition (Browser.updateBeforePlane s))
  = (if keys s "d" then vx (planePosition s) - 0.3
     else if keys s "a" then vx (planePosition s) + 0.3
     else vx (planePosition s)) /\
  running (Browser.updateBeforePlane s) = true.
Proof.
  intros H. unfold Browser.updateBeforePlane. rewrite (running_guard _ H).
  split.
  - rewrite (proj2 (proj2 (orbit_rest _))).
    rewrite (proj2 (proj2 (pitch_rest _))).
    rewrite steer_x.
    rewrite (agree_on eraseKin keys (fun _ => eq_refl) _ _ (throttle_kin s)).
    rewrite (proj1 (throttle_pose s)). reflexivity.
  - rewrite (agree_on eraseKin running (fun _ => eq_refl) _ _ (controls_kin s)).
    exact H.
Qed.

Lemma themed_ticks_within n : forall s,
  running s = true -> withinBarriers (ticks ThemedBuild (S n) s).
Proof.
  intros s H. cbn [ticks updateOf].
  assert (W : withinBarriers (Themed.update s)) by apply (themed_frame_within s H).
  revert W. generalize (Themed.update s). clear.
  induction n as [|n IH]; intros s W; cbn [ticks]; [exact W|].
  apply IH. apply themed_frame_keeps_within, W.
Qed.

(** C1, as the builds have it.  In the themed build, a frame in Playing with
    the plane model loaded ends with [planePosition.x] in [-39, 39] (barrier
    limit 42 minus half width 3) and the model at the same x.  With x the
    lateral position that the steering block left (the old one, less 0.3
    with "d" held, else plus 0.3 with "a" held), the frame ends at -39 if
    x < -39, at 39 if 39 < x, and at x itself otherwise.  The clamp writes
    the lateral position only: the phase is the one the pillar test left,
    and the collision check ends a run exactly when the plain build's check
    does.  So the bound holds after any number of frames from any state in
    Playing, and frames keep it when they start inside it.  Before the
    plane model has loaded a frame throws after the steering block and
    before the collision check: the lateral position has moved by 0.3 and
    is not clamped, and the run is in Playing as before; which of the two
    frames the page runs is decided by the state of the load.  The plain
    build has no barrier: there a frame in Playing adds or subtracts 0.3
    whenever a steering key is held. *)
Theorem barrier_clamp :
  (forall s, running s = true ->
     withinBarriers (Themed.update s) /\
     vx (position (plane (Themed.update s))) = vx (planePosition (Themed.update s))) /\
  (forall s, running s = true ->
     let x := if keys s "d" then vx (planePosition s) - 0.3
              else if keys s "a" then vx (planePosition s) + 0.3
              else vx (planePosition s) in
     let x' := vx (planePosition (Themed.update s)) in
     (x < -39 -> x' = -39) /\ (39 < x -> x' = 39) /\ (-39 <= x <= 39 -> x' = x)) /\
  (forall s, phase (Themed.constrainToBarriers s) = phase s) /\
  (forall s, eraseX (Themed.checkCollisions s) = eraseX (Plain.checkCollisions s)) /\
  (forall n s, running s = true -> withinBarriers (ticks ThemedBuild (S n) s)) /\
  (forall n s, withinBarriers s -> withinBarriers (ticks ThemedBuild n s)) /\
  (forall s, running s = true ->
     vx (planePosition (Browser.updateBeforePlane s))
     = (if keys s "d" then vx (planePosition s) - 0.3
        else if keys s "a" then vx (planePosition s) + 0.3
        else vx (planePosition s)) /\
     running (Browser.updateBeforePlane s) = true) /\
  (forall p p', running (Browser.globals p) = true ->
     Browser.react ThemedBuild (Browser.Deliver Frame) p = Some p' ->
     match Browser.planeLoad p with
     | Browser.Loaded => withinBarriers (Browser.globals p')
     | _ => Browser.globals p' = Browser.updateBeforePlane (Browser.globals p)
     end) /\
  (forall s, running s = true ->
     vx (planePosition (Plain.update s)) =
       if keys s "d" then vx (planePosition s) - 0.3
       else if keys s "a" then vx (planePosition s) + 0.3
       else vx (planePosition s)).
Proof.
  split; [exact themed_frame_within|].
  split; [exact themed_frame_rule|].
  split; [exact constrain_phase|].
  split; [exact themed_check_is_plain_check|].
  split; [intros n s; apply themed_ticks_within|].
  split; [|split; [exact frame_before_plane|split; [|exact plain_frame_x]]].
  - induction n as [|n IH]; intros s H; cbn [ticks]; [exact H|].
    apply IH, themed_frame_keeps_within, H.
  - intros p p' Run. cbn [Browser.react Browser.handle]. intros [= <-].
    cbn [Browser.globals].
    destruct (Browser.planeLoad p); cbn [Browser.isLoaded]; try reflexivity.
    apply (themed_frame_within _ Run).
Qed.

(** The themed build with "a" held for 131 frames: the run is in Playing
    and the plane stands at x = 39. *)
Lemma themed_build_stops_at_barrier :
  phase Samples.themedAtWall = Playing /\
  vx (planePosition Samples.themedAtWall) == 39.
Proof. split; vm_compute; reflexivity. Qed.

(** The plain build, started from its menu with "a" held: after 130 frames
    the run is still in Playing, and the next frame puts the plane at
    x = 39.3, past the line that the barrier would hold. *)
Lemma plain_build_passes_barrier_line :
  run PlainBuild Samples.plainEvents (Plain.init Samples.half)
    = Some Samples.plainStart /\
  running Samples.plainAtWall = true /\
  phase (Plain.update Samples.plainAtWall) = Playing /\
  vx (planePosition (Plain.update Samples.plainAtWall)) == 39.3 /\
  ~ withinBarriers (Plain.update Samples.plainAtWall).
Proof.
  assert (E1 : running Samples.plainAtWall = true) by (vm_compute; reflexivity).
  assert (E2 : phase (Plain.update Samples.plainAtWall) = Playing)
    by (vm_compute; reflexivity).
  assert (X : vx (planePosition (Plain.update Samples.plainAtWall)) == 39.3)
    by (vm_compute; reflexivity).
  split; [exact plainStart_reached|].
  split; [exact E1|]. split; [exact E2|]. split; [exact X|].
  unfold withinBarriers. rewrite X. intros [_ H]. revert H. apply Qlt_not_le.
  reflexivity.
Qed.

(** The themed build with level 1 chosen while the plane model is still
    loading and "a" held for 131 frames: the run is in Playing and
    [planePosition.x] is 39.3, past the line of the barrier.  When the
    model then loads it is put there, and the frame after that brings both
    back to 39. *)
Lemma themed_build_before_plane_passes_barrier :
  Browser.run ThemedBuild steeringEarly (Browser.init ThemedBuild Samples.half)
    = Some earlyPage /\
  Browser.planeLoad earlyPage = Browser.Pending /\
  phase (Browser.globals earlyPage) = Playing /\
  vx (planePosition (Browser.globals earlyPage)) == 39.3 /\
  ~ withinBarriers (Browser.globals earlyPage) /\
  Browser.react ThemedBuild (Browser.PlaneLoadEnds true) earlyPage
    = Some earlyLoaded /\
  vx (position (plane (Browser.globals earlyLoaded))) == 39.3 /\
  Browser.react ThemedBuild (Browser.Deliver Frame) earlyLoaded
    = Some earlyClamped /\
  phase (Browser.globals earlyClamped) = Playing /\
  vx (planePosition (Browser.globals earlyClamped)) == 39 /\
  vx (position (plane (Browser.globals earlyClamped))) == 39.
Proof.
  assert (X : vx (planePosition (Browser.globals earlyPage)) == 39.3)
    by (vm_compute; reflexivity).
  split; [vm_compute; reflexivity|].
  split; [vm_compute; reflexivity|].
  split; [vm_compute; reflexivity|].
  split; [exact X|].
  split.
  { unfold withinBarriers. rewrite X. intros [_ H]. revert H. apply Qlt_not_le.
    reflexivity. }
  repeat split; vm_compute; reflexivity.
Qed.

End Barriers.

(** * The golden ring *)

Module RingFacts.

Local Open Scope R_scope.

Lemma Q2R_const (n : Z) : Q2R (inject_Z n) = IZR n.
Proof. unfold Q2R, inject_Z. cbn. field. Qed.

(** The three comparisons of a square root with a constant, against the
    real square root. *)
Lemma sqrt_leb_real (s c : Q) :
  (0 <= s)%Q -> (0 <= c)%Q ->
  sqrt_leb s c = true <-> sqrt (Q2R s) <= Q2R c.
Proof.
  intros Hs Hc. unfold sqrt_leb.
  rewrite (proj2 (Qle_bool_iff 0 s) Hs), (proj2 (Qle_bool_iff 0 c) Hc).
  cbn [andb]. rewrite Qle_bool_iff.
  pose proof (Qle_Rle _ _ Hs) as Hs'. pose proof (Qle_Rle _ _ Hc) as Hc'.
  replace (Q2R 0) with 0 in Hs', Hc' by (unfold Q2R; cbn; field).
  split.
  - intros H. apply Qle_Rle in H. rewrite Q2R_mult in H.
    rewrite <- (sqrt_square (Q2R c) Hc'). apply sqrt_le_1_alt, H.
  - intros H. apply Rle_Qle. rewrite Q2R_mult.
    rewrite <- (sqrt_sqrt (Q2R s) Hs').
    apply Rmult_le_compat; try apply sqrt_pos; exact H.
Qed.

Lemma sqrt_gtb_real (s c : Q) :
  (0 <= s)%Q -> (0 <= c)%Q ->
  sqrt_gtb s c = true <-> Q2R c < sqrt (Q2R s).
Proof.
  intros Hs Hc.
  assert (E : sqrt_gtb s c = negb (sqrt_leb s c)).
  { unfold sqrt_gtb, sqrt_leb, Qltb.
    rewrite (proj2 (Qle_bool_iff 0 s) Hs), (proj2 (Qle_bool_iff 0 c) Hc).
    reflexivity. }
  rewrite E, negb_true_iff, <- not_true_iff_false, (sqrt_leb_real s c Hs Hc).
  split; [apply Rnot_le_lt | intros H1 H2; Lra.lra].
Qed.

Lemma sqrt_ltb_real (s c : Q) :
  (0 <= s)%Q -> (0 <= c)%Q ->
  sqrt_ltb s c = true <-> sqrt (Q2R s) < Q2R c.
Proof.
  intros Hs Hc. unfold sqrt_ltb.
  rewrite (proj2 (Qle_bool_iff 0 s) Hs). cbn [andb].
  pose proof (Qle_Rle _ _ Hs) as Hs'. pose proof (Qle_Rle _ _ Hc) as Hc'.
  replace (Q2R 0) with 0 in Hs', Hc' by (unfold Q2R; cbn; field).
  rewrite andb_true_iff, !Qltb_lt. split.
  - intros [_ H]. apply Qlt_Rlt in H. rewrite Q2R_mult in H.
    rewrite <- (sqrt_square (Q2R c) Hc'). apply sqrt_lt_1_alt. split; assumption.
  - intros H. pose proof (sqrt_pos (Q2R s)) as P.
    assert (C : 0 < Q2R c) by Lra.lra.
    split.
    + apply Rlt_Qlt. replace (Q2R 0) with 0 by (unfold Q2R; cbn; field). exact C.
    + apply Rlt_Qlt. rewrite Q2R_mult.
      rewrite <- (sqrt_sqrt (Q2R s) Hs').
      apply Rmult_le_0_lt_compat; assumption.
Qed.

Lemma planarDistSq_nonneg m ring : (0 <= planarDistSq m ring)%Q.
Proof.
  unfold planarDistSq.
  set (a := (vx (position m) - vx (ring_position ring))%Q).
  set (b := (vy (position m) - vy (ring_position ring))%Q).
  change (0 <= a * a + b * b)%Q. Lqa.nra.
Qed.

Local Close Scope R_scope.

Lemma updateOf_ring b s :
  running s = true ->
  updateOf b s = flewPastCheck (ringCheck (completeLevelOf b) (atRing b s)).
Proof.
  intros H. rewrite updateOf_unfold, (running_guard _ H). reflexivity.
Qed.

Lemma atRing_tail b s : eraseTail (atRing b s) = eraseTail (kinematics s).
Proof.
  unfold atRing, beforeRing, beforeEviction.
  rewrite (tail_of_world _ evictPillars_world).
  rewrite (tail_of_world _ streamPillars_world).
  rewrite checkCollisionsOf_tail.
  apply (tail_of_world _ scorePillars_world).
Qed.

Lemma atRing_goldenRing b s : goldenRing (atRing b s) = goldenRing s.
Proof.
  rewrite (agree_on eraseTail goldenRing (fun _ => eq_refl) _ _ (atRing_tail b s)).
  apply kinematics_goldenRing.
Qed.

(** The two ring checks write the outcome of the run only. *)
Lemma ring_checks_outcome b c :
  eraseOutcome (flewPastCheck (ringCheck (completeLevelOf b) c)) = eraseOutcome c.
Proof. rewrite flewPastCheck_outcome. apply ringCheck_outcome. Qed.

Lemma updateOf_plane_atRing b s :
  running s = true -> plane (updateOf b s) = plane (atRing b s).
Proof.
  intros H. rewrite (updateOf_ring b s H).
  apply (agree_on eraseOutcome plane (fun _ => eq_refl) _ _ (ring_checks_outcome b _)).
Qed.

Lemma phase_endGame s : phase (endGame s) = GameOver.
Proof. reflexivity. Qed.

Lemma phase_completeLevelCommon s : phase (completeLevelCommon s) = LevelComplete.
Proof.
  unfold completeLevelCommon.
  change (LEVELS_length (set_gameStarted false (set_gameOver true s)))
    with (LEVELS_length s).
  change (currentLevel (set_gameStarted false (set_gameOver true s)))
    with (currentLevel s).
  destruct (currentLevel s <? LEVELS_length s)%Z; reflexivity.
Qed.

Lemma phase_completeLevelOf b s : phase (completeLevelOf b s) = LevelComplete.
Proof.
  destruct b; cbn [completeLevelOf]; [|apply phase_completeLevelCommon].
  unfold Plain.completeLevel. cbv zeta.
  destruct (_ <? _)%Z; [|apply phase_completeLevelCommon].
  assert (T : forall n y, phase (set_timers n y) = phase y) by reflexivity.
  rewrite T. apply phase_completeLevelCommon.
Qed.

(** Inside the window the fallback cannot fire. *)
Lemma flewPastCheck_in_window x ring :
  goldenRing x = Some ring ->
  inRingWindow (vz (position (plane x))) ring = true ->
  flewPastCheck x = x.
Proof.
  intros G W. unfold flewPastCheck. rewrite G.
  replace (Qltb _ _) with false; [reflexivity|].
  symmetry. apply Qltb_ge.
  unfold inRingWindow in W. apply andb_true_iff in W as [_ W].
  apply Qle_bool_iff in W. lra.
Qed.

(** Beyond ten metres behind the ring the window is closed. *)
Lemma window_closed_when_past z ring :
  ring_zPosition ring + 10 < z -> inRingWindow z ring = false.
Proof.
  intros H. unfold inRingWindow. apply andb_false_iff. right.
  apply Qle_bool_gt. lra.
Qed.

Section RingTheorems.

Variable b : Build.
Variable s : State.
Variable ring : Ring.
Hypothesis Run : running s = true.
Hypothesis HasRing : goldenRing s = Some ring.

Let c := atRing b s.
Let s' := updateOf b s.

Lemma ring_at_check : goldenRing c = Some ring.
Proof. unfold c. rewrite atRing_goldenRing. exact HasRing. Qed.

Lemma plane_at_check : plane s' = plane c.
Proof. apply updateOf_plane_atRing, Run. Qed.

Lemma ring_after_check :
  goldenRing (ringCheck (completeLevelOf b) c) = Some ring.
Proof.
  rewrite (agree_on eraseOutcome goldenRing (fun _ => eq_refl) _ _
             (ringCheck_outcome b c)).
  apply ring_at_check.
Qed.

Lemma plane_after_check : plane (ringCheck (completeLevelOf b) c) = plane c.
Proof.
  apply (agree_on eraseOutcome plane (fun _ => eq_refl) _ _ (ringCheck_outcome b c)).
Qed.

(** C4.  In a frame in Playing whose new z exceeds the ring's [zPosition]
    by more than 10, the ring-arrival check, which runs first, changes
    nothing (its window is closed, so neither of its transitions fires) and
    the fallback ends the run: the frame ends in GameOver.  In particular
    this is so at z = ringZ + 11.  Both builds. *)
Theorem flew_past_ring :
  (s' = flewPastCheck (ringCheck (completeLevelOf b) c)) /\
  (ring_zPosition ring + 10 < vz (position (plane s')) ->
     ringCheck (completeLevelOf b) c = c /\
     s' = endGame c /\
     phase s' = GameOver) /\
  (vz (position (plane s')) == ring_zPosition ring + 11 -> phase s' = GameOver).
Proof.
  assert (Es : s' = flewPastCheck (ringCheck (completeLevelOf b) c))
    by apply (updateOf_ring b s Run).
  assert (P : ring_zPosition ring + 10 < vz (position (plane s')) ->
              ringCheck (completeLevelOf b) c = c /\ s' = endGame c /\
              phase s' = GameOver).
  { intros H.
    assert (Rc : ringCheck (completeLevelOf b) c = c).
    { unfold ringCheck. rewrite ring_at_check, <- plane_at_check.
      rewrite (window_closed_when_past _ _ H). reflexivity. }
    assert (Ee : s' = endGame c).
    { rewrite Es, Rc. unfold flewPastCheck.
      rewrite ring_at_check, <- plane_at_check.
      rewrite (proj2 (Qltb_lt _ _) H). reflexivity. }
    split; [exact Rc|]. split; [exact Ee|].
    rewrite Ee. apply phase_endGame. }
  split; [exact Es|]. split; [exact P|].
  intros H. apply P. rewrite H. lra.
Qed.

End RingTheorems.

Lemma flew_past_ring_witness :
  running Samples.pastRing = true /\
  goldenRing Samples.pastRing = Some Samples.ring1 /\
  phase (updateOf PlainBuild Samples.pastRing) = GameOver.
Proof.
  assert (R : running Samples.pastRing = true) by (vm_compute; reflexivity).
  assert (G : goldenRing Samples.pastRing = Some Samples.ring1)
    by (vm_compute; reflexivity).
  split; [exact R|]. split; [exact G|].
  destruct (flew_past_ring PlainBuild Samples.pastRing Samples.ring1 R G)
    as (_ & P & _).
  apply P. vm_compute. reflexivity.
Defined.

End RingFacts.

(** * Obstacles: scoring, streaming, eviction *)

Module Obstacles.

Lemma eraseWorld_spawn s : eraseWorld s = set_score 0%Z (eraseSpawn s).
Proof. reflexivity. Qed.

(** ** The scoring pass *)

Lemma scorePass_spec z ps : forall sc,
  scorePass z ps sc =
    (map (scoreOne z) ps,
     (sc + 10 * Z.of_nat (List.length (filter (justPassed z) ps)))%Z).
Proof.
  induction ps as [|p ps IH]; intros sc; cbn [scorePass map filter].
  - cbn. f_equal. lia.
  - unfold scoreOne at 1. destruct (justPassed z p); rewrite IH; cbn [List.length];
      f_equal; lia.
Qed.

Lemma scorePillars_spec s :
  pillars (scorePillars s) = map (scoreOne (vz (position (plane s)))) (pillars s) /\
  score (scorePillars s) =
    (score s + 10 * Z.of_nat (List.length
       (filter (justPassed (vz (position (plane s)))) (pillars s))))%Z /\
  nextId (scorePillars s) = nextId s.
Proof.
  unfold scorePillars. rewrite scorePass_spec. repeat split.
Qed.

Lemma scoreOne_same z p :
  pid (scoreOne z p) = pid p /\ xPosition (scoreOne z p) = xPosition p /\
  zPosition (scoreOne z p) = zPosition p /\
  passed (scoreOne z p) = passed p || justPassed z p.
Proof.
  unfold scoreOne. destruct (justPassed z p); cbn [markPassed pid xPosition zPosition passed].
  - rewrite orb_true_r. repeat split.
  - rewrite orb_false_r. repeat split.
Qed.

(** Scoring again at the same z adds nothing. *)
Lemma scoreOne_settled z p : justPassed z (scoreOne z p) = false.
Proof.
  unfold justPassed at 1.
  destruct (scoreOne_same z p) as (_ & _ & Ez & Ep). rewrite Ep, Ez.
  unfold justPassed. destruct (passed p), (Qltb (zPosition p) z); reflexivity.
Qed.

Lemma map_pid_scoreOne z ps : map pid (map (scoreOne z) ps) = map pid ps.
Proof.
  rewrite map_map. apply map_ext. intros p. apply scoreOne_same.
Qed.

(** ** The eviction loop is a filter *)

Lemma splice1_middle (l : list Pillar) a l2 :
  splice1 (List.length l) (l ++ a :: l2) = l ++ l2.
Proof.
  unfold splice1.
  rewrite firstn_app, firstn_all, Nat.sub_diag. cbn [firstn]. rewrite app_nil_r.
  replace (S (List.length l)) with (List.length (l ++ [a]))
    by (rewrite length_app; cbn; lia).
  replace (l ++ a :: l2) with ((l ++ [a]) ++ l2) by (rewrite <- app_assoc; reflexivity).
  rewrite skipn_app, skipn_all, Nat.sub_diag. reflexivity.
Qed.

Lemma evictFrom_app z (l1 : list Pillar) : forall l2,
  evictFrom (List.length l1) z (l1 ++ l2) = filter (keepsPillar z) l1 ++ l2.
Proof.
  induction l1 as [|a l IH] using rev_ind; intros l2; [reflexivity|].
  rewrite length_app, Nat.add_comm. cbn [List.length Nat.add evictFrom].
  rewrite <- app_assoc. cbn [app].
  rewrite nth_error_app2, Nat.sub_diag by lia. cbn [nth_error].
  rewrite filter_app. cbn [filter]. unfold keepsPillar at 2.
  destruct (Qltb (zPosition a) (z - 100)); cbn [negb].
  - rewrite splice1_middle, IH, app_nil_r. reflexivity.
  - rewrite IH, <- app_assoc. reflexivity.
Qed.

Lemma evictFrom_filter z ps :
  evictFrom (List.length ps) z ps = filter (keepsPillar z) ps.
Proof.
  rewrite <- (app_nil_r ps) at 2. rewrite evictFrom_app. apply app_nil_r.
Qed.

Lemma evictPillars_spec s :
  pillars (evictPillars s)
  = filter (keepsPillar (vz (position (plane s)))) (pillars s).
Proof. unfold evictPillars. cbn [pillars set_pillars]. apply evictFrom_filter. Qed.

(** ** Streaming only appends new obstacles *)

Lemma Spawns_same s s' :
  pillars s' = pillars s -> nextId s' = nextId s -> Spawns s s'.
Proof.
  intros P N. exists []. unfold Spawned. cbn [List.length map seq].
  rewrite app_nil_r, Nat.add_0_r. auto.
Qed.

Lemma Spawns_trans s s1 s2 : Spawns s s1 -> Spawns s1 s2 -> Spawns s s2.
Proof.
  intros (f1 & P1 & I1 & N1 & U1) (f2 & P2 & I2 & N2 & U2).
  exists (f1 ++ f2). unfold Spawned.
  rewrite P2, P1, N2, N1, map_app, length_app, seq_app, I1, I2, N1.
  rewrite <- app_assoc, Nat.add_assoc. repeat split. apply Forall_app; auto.
Qed.

Lemma createPillar_spawns x z s : Spawns s (createPillar x z s).
Proof.
  exists [mkPillar (nextId s) x z false]. unfold Spawned.
  cbn. rewrite Nat.add_1_r. repeat split. constructor; [reflexivity|constructor].
Qed.

Lemma spawnPillars_spawns n z : forall s, Spawns s (spawnPillars n z s).
Proof.
  induction n as [|n IH]; intros s; cbn [spawnPillars Math_random].
  - apply Spawns_same; reflexivity.
  - eapply Spawns_trans; [|apply IH].
    eapply Spawns_trans; [|apply createPillar_spawns].
    apply Spawns_same; reflexivity.
Qed.

Lemma spawnRow_spawns z s : Spawns s (spawnRow z s).
Proof.
  unfold spawnRow. cbn [Math_random].
  eapply Spawns_trans; [|apply spawnPillars_spawns].
  apply Spawns_same; reflexivity.
Qed.

Lemma forRows_spawns n : forall z hi s, Spawns s (forRows n z hi s).
Proof.
  induction n as [|n IH]; intros z hi s; cbn [forRows].
  - apply Spawns_same; reflexivity.
  - destruct (Qltb z hi); [|apply Spawns_same; reflexivity].
    eapply Spawns_trans; [apply spawnRow_spawns|apply IH].
Qed.

Lemma streamPillars_spawns s : Spawns s (streamPillars s).
Proof.
  unfold streamPillars. destruct (Qltb _ _); [apply forRows_spawns|].
  apply Spawns_same; reflexivity.
Qed.

(** Streaming writes nothing but the collection and the two counters. *)
Lemma spawnPillars_spawn n z : forall s, eraseSpawn (spawnPillars n z s) = eraseSpawn s.
Proof.
  induction n as [|n IH]; intros s; simpl; [reflexivity|].
  rewrite IH. reflexivity.
Qed.

Lemma forRows_spawn n : forall z hi s, eraseSpawn (forRows n z hi s) = eraseSpawn s.
Proof.
  induction n as [|n IH]; intros z hi s; simpl; [reflexivity|].
  destruct (Qltb z hi); [|reflexivity].
  rewrite IH. unfold spawnRow. simpl. rewrite spawnPillars_spawn. reflexivity.
Qed.

Lemma streamPillars_spawn s : eraseSpawn (streamPillars s) = eraseSpawn s.
Proof.
  unfold streamPillars. destruct (Qltb _ _); [apply forRows_spawn | reflexivity].
Qed.

(** ** The collision check and the ring checks leave the obstacles alone *)

Lemma worldOf_checkCollisions b s : worldOf (checkCollisionsOf b s) = worldOf s.
Proof.
  destruct b; cbn [checkCollisionsOf].
  - unfold Plain.checkCollisions. cbv zeta.
    rewrite (unchanged_by eraseOutcome worldOf _ (fun _ => eq_refl)
               groundCollision_outcome).
    apply (unchanged_by eraseOutcome worldOf _ (fun _ => eq_refl)
             (pillarCollisions_outcome _ _)).
  - unfold Themed.checkCollisions. cbv zeta.
    rewrite (unchanged_by eraseOutcome worldOf _ (fun _ => eq_refl)
               groundCollision_outcome).
    rewrite (unchanged_by eraseX worldOf _ (fun _ => eq_refl) constrainToBarriers_x).
    apply (unchanged_by eraseOutcome worldOf _ (fun _ => eq_refl)
             (pillarCollisions_outcome _ _)).
Qed.

Lemma worldOf_ring_checks b c :
  worldOf (flewPastCheck (ringCheck (completeLevelOf b) c)) = worldOf c.
Proof.
  apply (agree_on eraseOutcome worldOf (fun _ => eq_refl) _ _
           (RingFacts.ring_checks_outcome b c)).
Qed.

(** ** What one frame does to the obstacles and the score *)

Lemma planeZ_stages b s :
  planeZ (scorePillars (kinematics s)) = frameZ s /\
  planeZ (checkCollisionsOf b (scorePillars (kinematics s))) = frameZ s /\
  planeZ (streamPillars (checkCollisionsOf b (scorePillars (kinematics s))))
    = frameZ s.
Proof.
  assert (A : planeZ (scorePillars (kinematics s)) = frameZ s).
  { apply (unchanged_by eraseWorld planeZ _ (fun _ => eq_refl) scorePillars_world). }
  assert (B : planeZ (checkCollisionsOf b (scorePillars (kinematics s))) = frameZ s).
  { rewrite <- A.
    apply (agree_on eraseTail planeZ (fun _ => eq_refl) _ _
             (checkCollisionsOf_tail b _)). }
  split; [exact A|]. split; [exact B|].
  rewrite <- B.
  apply (unchanged_by eraseWorld planeZ _ (fun _ => eq_refl) streamPillars_world).
Qed.

Lemma frame_obstacles b s :
  running s = true ->
  exists fresh,
    pillars (updateOf b s)
      = filter (keepsPillar (frameZ s))
          (map (scoreOne (frameZ s)) (pillars s) ++ fresh) /\
    pillars (beforeEviction (checkCollisionsOf b) s)
      = map (scoreOne (frameZ s)) (pillars s) ++ fresh /\
    map pid fresh = seq (nextId s) (List.length fresh) /\
    nextId (updateOf b s) = (nextId s + List.length fresh)%nat /\
    Forall (fun p => passed p = false) fresh /\
    score (updateOf b s)
      = (score s + 10 * Z.of_nat (List.length (scoredInFrame s)))%Z.
Proof.
  intros Run.
  set (k := kinematics s).
  set (sc := scorePillars k).
  set (cc := checkCollisionsOf b sc).
  set (st := streamPillars cc).
  destruct (planeZ_stages b s) as (Zsc & Zcc & Zst). fold k sc cc st in Zsc, Zcc, Zst.
  destruct (scorePillars_spec k) as (Psc & Ssc & Nsc). fold sc in Psc, Ssc, Nsc.
  assert (Nk : nextId k = nextId s).
  { apply (agree_on eraseKin nextId (fun _ => eq_refl) _ _ (kinematics_kin s)). }
  rewrite Nk in Nsc.
  change (vz (position (plane k))) with (frameZ s) in Psc, Ssc.
  unfold k in Psc, Ssc. rewrite kinematics_pillars in Psc, Ssc.
  rewrite kinematics_score in Ssc.
  pose proof (worldOf_checkCollisions b sc) as Wcc. fold cc in Wcc.
  unfold worldOf in Wcc. injection Wcc as Pcc Scc Ncc.
  destruct (streamPillars_spawns cc) as (fresh & Pst & Ist & Nst & Ust).
  fold st in Pst, Nst.
  assert (Sst : score st = score cc).
  { apply (unchanged_by eraseSpawn score _ (fun _ => eq_refl) streamPillars_spawn). }
  assert (Upd : updateOf b s = flewPastCheck (ringCheck (completeLevelOf b) (evictPillars st))).
  { rewrite updateOf_unfold, (running_guard _ Run). reflexivity. }
  pose proof (worldOf_ring_checks b (evictPillars st)) as Wup.
  rewrite <- Upd in Wup. unfold worldOf in Wup.
  assert (Pev : pillars (evictPillars st) = filter (keepsPillar (frameZ s)) (pillars st)).
  { rewrite evictPillars_spec. fold (planeZ st). rewrite Zst. reflexivity. }
  assert (Sev : score (evictPillars st) = score st) by reflexivity.
  assert (Nev : nextId (evictPillars st) = nextId st) by reflexivity.
  rewrite Pev, Sev, Nev in Wup. injection Wup as Pup Sup Nup.
  exists fresh.
  rewrite Pup, Sup, Nup, Pst, Sst, Nst, Pcc, Scc, Ncc, Psc, Ssc, Nsc.
  rewrite Ncc, Nsc in Ist.
  unfold scoredInFrame. rewrite Run, length_map.
  repeat split; try assumption.
  unfold beforeEviction. fold k sc cc st. rewrite Pst, Pcc, Psc. reflexivity.
Qed.

Lemma updateOf_planeZ b s :
  running s = true -> planeZ (updateOf b s) = frameZ s.
Proof. intros Run. apply (tail_field planeZ b s (fun _ => eq_refl) Run). Qed.

Lemma keepsPillar_iff z p :
  keepsPillar z p = true <-> ~ (zPosition p + 100 < z).
Proof.
  unfold keepsPillar. rewrite negb_true_iff, Qltb_ge. split.
  - intros H C. lra.
  - intros H. apply Qnot_lt_le. intros C. apply H. lra.
Qed.

(** C7.  In a frame in Playing, with z the plane's z after the move: the
    collection after the frame is the collection that reached the eviction
    loop without the obstacles whose [zPosition] P has z > P + 100.  So an
    obstacle that reached the loop is still live after the frame exactly
    when z > P + 100 fails; and every obstacle live at the start of the
    frame reaches the loop (with its flag possibly set), hence is removed in
    this frame exactly when z > P + 100.  Both builds. *)
Theorem eviction_rule (b : Build) (s : State) :
  running s = true ->
  let z := vz (position (plane (updateOf b s))) in
  let reached := pillars (beforeEviction (checkCollisionsOf b) s) in
  pillars (updateOf b s) = filter (keepsPillar z) reached /\
  (forall p, In p reached ->
     (In p (pillars (updateOf b s)) <-> ~ (zPosition p + 100 < z))) /\
  (forall p, In p (pillars s) ->
     In (scoreOne z p) reached /\
     (In (scoreOne z p) (pillars (updateOf b s)) <-> ~ (zPosition p + 100 < z))).
Proof.
  intros Run z reached.
  assert (Ez : z = frameZ s) by apply (updateOf_planeZ b s Run).
  destruct (frame_obstacles b s Run) as (fresh & Pup & Pre & _).
  fold reached in Pre. rewrite <- Pre in Pup. rewrite <- Ez in Pup.
  assert (Rule : forall p, In p reached ->
            (In p (pillars (updateOf b s)) <-> ~ (zPosition p + 100 < z))).
  { intros p Hp. rewrite Pup, filter_In, keepsPillar_iff. tauto. }
  split; [exact Pup|]. split; [exact Rule|].
  intros p Hp.
  assert (Hr : In (scoreOne z p) reached).
  { rewrite Pre, Ez. apply in_or_app. left. apply in_map, Hp. }
  split; [exact Hr|].
  rewrite (Rule _ Hr). destruct (scoreOne_same z p) as (_ & _ & -> & _). tauto.
Qed.

(** ** Identities *)

Lemma NoDup_map_filter {A B} (f : A -> B) (g : A -> bool) l :
  NoDup (map f l) -> NoDup (map f (filter g l)).
Proof.
  induction l as [|a l IH]; cbn [map filter]; intros H; [constructor|].
  inversion H as [|? ? Hn Hl]; subst.
  destruct (g a); [|apply IH, Hl].
  cbn [map]. constructor; [|apply IH, Hl].
  intros C. apply Hn. apply in_map_iff in C as (x & E & Hx).
  apply filter_In in Hx as [Hx _]. rewrite <- E. apply in_map, Hx.
Qed.

Lemma distinct_pid_inj s p q :
  distinctPillars s -> In p (pillars s) -> In q (pillars s) -> pid p = pid q -> p = q.
Proof.
  intros [ND _]. induction (pillars s) as [|a l IH]; [intros []|].
  cbn [map] in ND. inversion ND as [|? ? Hn Hl]; subst.
  intros [->|Hp] [->|Hq] E; try reflexivity.
  - exfalso. apply Hn. rewrite E. apply in_map, Hq.
  - exfalso. apply Hn. rewrite <- E. apply in_map, Hp.
  - apply (IH Hl Hp Hq E).
Qed.

Lemma distinct_lt s p :
  distinctPillars s -> In p (pillars s) -> (pid p < nextId s)%nat.
Proof. intros [_ LT] Hp. apply (proj1 (Forall_forall _ _) LT p Hp). Qed.

Lemma nextId_monotone b s : (nextId s <= nextId (updateOf b s))%nat.
Proof.
  destruct (running s) eqn:Run; [|rewrite (updateOf_idle b s Run); lia].
  destruct (frame_obstacles b s Run) as (fresh & _ & _ & _ & N & _). lia.
Qed.

(** Where an obstacle that is live after a frame comes from. *)
Lemma live_after_frame b s q :
  running s = true -> In q (pillars (updateOf b s)) ->
  (exists p, In p (pillars s) /\ q = scoreOne (frameZ s) p) \/
  ((nextId s <= pid q < nextId (updateOf b s))%nat /\ passed q = false).
Proof.
  intros Run Hq.
  destruct (frame_obstacles b s Run) as (fresh & P & _ & I & N & U & _).
  rewrite P in Hq. apply filter_In in Hq as [Hq _].
  apply in_app_or in Hq as [Hq|Hq].
  - left. apply in_map_iff in Hq as (p & E & Hp). exists p. auto.
  - right. split; [|apply (proj1 (Forall_forall _ _) U _ Hq)].
    assert (Hi : In (pid q) (seq (nextId s) (List.length fresh)))
      by (rewrite <- I; apply in_map, Hq).
    apply in_seq in Hi. lia.
Qed.

Lemma distinct_preserved b s : distinctPillars s -> distinctPillars (updateOf b s).
Proof.
  intros D. destruct (running s) eqn:Run; [|rewrite (updateOf_idle b s Run); exact D].
  destruct (frame_obstacles b s Run) as (fresh & P & _ & I & N & U & _).
  split.
  - rewrite P. apply NoDup_map_filter. rewrite map_app, map_pid_scoreOne, I.
    apply NoDup_app; [apply D|apply seq_NoDup|].
    intros i Hi Hs. apply in_seq in Hs.
    apply in_map_iff in Hi as (p & E & Hp).
    pose proof (distinct_lt s p D Hp). lia.
  - apply Forall_forall. intros q Hq.
    destruct (live_after_frame b s q Run Hq) as [(p & Hp & ->)|[Hr _]]; [|lia].
    destruct (scoreOne_same (frameZ s) p) as (-> & _).
    pose proof (distinct_lt s p D Hp).
    pose proof (nextId_monotone b s). lia.
Qed.

(** Every obstacle a frame scores was live, unpassed and behind the plane. *)
Lemma scoredInFrame_spec s i :
  In i (scoredInFrame s) ->
  exists p, In p (pillars s) /\ pid p = i /\ passed p = false /\
            zPosition p < frameZ s.
Proof.
  unfold scoredInFrame. destruct (running s); [|intros []].
  intros H. apply in_map_iff in H as (p & E & Hp).
  apply filter_In in Hp as [Hp J]. exists p.
  unfold justPassed in J. apply andb_true_iff in J as [J1 J2].
  apply negb_true_iff in J1. apply Qltb_lt in J2. auto.
Qed.

Lemma scoredLog_idle b n : forall s, running s = false -> scoredLog b n s = [].
Proof.
  induction n as [|n IH]; intros s Idle; cbn [scoredLog]; [reflexivity|].
  unfold scoredInFrame. rewrite Idle, (updateOf_idle b s Idle). apply IH, Idle.
Qed.

(** The obstacles scored in the coming frames are live and unpassed now,
    or not made yet; and none is scored twice. *)
Lemma scoredLog_spec b n : forall s,
  distinctPillars s ->
  NoDup (scoredLog b n s) /\
  (forall i, In i (scoredLog b n s) ->
     (exists p, In p (pillars s) /\ pid p = i /\ passed p = false) \/
     (nextId s <= i)%nat).
Proof.
  induction n as [|n IH]; intros s D.
  { split; [constructor|intros i []]. }
  destruct (running s) eqn:Run;
    [|rewrite (scoredLog_idle b (S n) s Run); split; [constructor|intros i []]].
  cbn [scoredLog].
  destruct (IH _ (distinct_preserved b s D)) as [ND1 Src1].
  assert (Src0 : forall i, In i (scoredInFrame s) ->
            exists p, In p (pillars s) /\ pid p = i /\ passed p = false /\
                      justPassed (frameZ s) p = true).
  { unfold scoredInFrame. rewrite Run.
    intros i H. apply in_map_iff in H as (p & E & Hp).
    apply filter_In in Hp as [Hp J]. exists p. repeat split; auto.
    unfold justPassed in J. apply andb_true_iff in J as [J _].
    apply negb_true_iff, J. }
  assert (Later : forall i, In i (scoredLog b n (updateOf b s)) ->
            (exists p, In p (pillars s) /\ pid p = i /\ passed p = false /\
                       justPassed (frameZ s) p = false) \/
            (nextId s <= i)%nat).
  { intros i Hi. destruct (Src1 i Hi) as [(q & Hq & Eq & Uq)|Hn].
    - destruct (live_after_frame b s q Run Hq) as [(p & Hp & ->)|[Hr _]];
        [|right; lia].
      left. exists p.
      destruct (scoreOne_same (frameZ s) p) as (Ei & _ & _ & Ep).
      rewrite Ei in Eq. rewrite Ep in Uq.
      apply orb_false_iff in Uq as [U1 U2]. auto.
    - right. pose proof (nextId_monotone b s). lia. }
  split.
  - apply NoDup_app; [|exact ND1|].
    + unfold scoredInFrame. rewrite Run. apply NoDup_map_filter, D.
    + intros i H0 H1.
      destruct (Src0 i H0) as (p & Hp & Ep & _ & Jp).
      destruct (Later i H1) as [(p' & Hp' & Ep' & _ & Jp')|Hn].
      * assert (p = p') by (apply (distinct_pid_inj s); auto; congruence).
        subst p'. congruence.
      * pose proof (distinct_lt s p D Hp). lia.
  - intros i Hi. apply in_app_or in Hi as [Hi|Hi].
    + destruct (Src0 i Hi) as (p & Hp & Ep & Up & _). left. exists p. auto.
    + destruct (Later i Hi) as [(p & Hp & Ep & Up & _)|Hn]; [left; exists p|right];
        auto.
Qed.

Lemma scoreOne_passed z p : passed p = true -> scoreOne z p = p.
Proof. intros H. unfold scoreOne, justPassed. rewrite H. reflexivity. Qed.

Lemma scoreOne_behind z p :
  passed p = false -> zPosition p < z -> scoreOne z p = markPassed p.
Proof.
  intros H L. unfold scoreOne, justPassed.
  rewrite H, (proj2 (Qltb_lt _ _) L). reflexivity.
Qed.

Lemma eviction_rule_witness :
  running Samples.twoBehind = true /\
  ~ In Samples.oldPillar (pillars (updateOf ThemedBuild Samples.twoBehind)) /\
  In (markPassed Samples.recentPillar)
     (pillars (updateOf ThemedBuild Samples.twoBehind)).
Proof.
  assert (Run : running Samples.twoBehind = true) by reflexivity.
  destruct (eviction_rule ThemedBuild Samples.twoBehind Run) as (_ & _ & Rule).
  assert (Z : vz (position (plane (updateOf ThemedBuild Samples.twoBehind))) == 135.1)
    by (vm_compute; reflexivity).
  split; [exact Run|]. split.
  - destruct (Rule Samples.oldPillar (or_introl eq_refl)) as [_ [R _]].
    rewrite (scoreOne_passed _ Samples.oldPillar eq_refl) in R.
    intros H. apply (R H). rewrite Z. reflexivity.
  - destruct (Rule Samples.recentPillar (or_intror (or_introl eq_refl))) as [_ [_ R]].
    rewrite (scoreOne_behind _ Samples.recentPillar eq_refl) in R
      by (rewrite Z; reflexivity).
    apply R. rewrite Z. apply Qle_not_lt. discriminate.
Defined.

Lemma score_of_frame b s :
  score (updateOf b s)
  = (score s + 10 * Z.of_nat (List.length (scoredInFrame s)))%Z.
Proof.
  destruct (running s) eqn:Run.
  - destruct (frame_obstacles b s Run) as (fresh & _ & _ & _ & _ & _ & S). exact S.
  - rewrite (updateOf_idle b s Run). unfold scoredInFrame. rewrite Run. cbn. lia.
Qed.

Lemma score_of_frames b n : forall s,
  score (ticks b n s)
  = (score s + 10 * Z.of_nat (List.length (scoredLog b n s)))%Z.
Proof.
  induction n as [|n IH]; intros s; cbn [ticks scoredLog]; [cbn; lia|].
  rewrite IH, score_of_frame, length_app. lia.
Qed.

Lemma passed_stays b s p q :
  distinctPillars s ->
  In p (pillars s) -> In q (pillars (updateOf b s)) -> pid q = pid p ->
  passed p = true -> passed q = true.
Proof.
  intros D Hp Hq E T. destruct (running s) eqn:Run.
  - destruct (live_after_frame b s q Run Hq) as [(p' & Hp' & ->)|[Hr _]].
    + rewrite (proj1 (scoreOne_same (frameZ s) p')) in E.
      rewrite (distinct_pid_inj s p' p D Hp' Hp E).
      rewrite (proj2 (proj2 (proj2 (scoreOne_same (frameZ s) p)))), T. reflexivity.
    + pose proof (distinct_lt s p D Hp). lia.
  - rewrite (updateOf_idle b s Run) in Hq.
    rewrite (distinct_pid_inj s q p D Hq Hp E). exact T.
Qed.

(** C6.  For a state whose live obstacles are distinct objects, in both
    builds: a frame never lowers the score; it adds exactly 10 for each
    obstacle it scores, and those are obstacles that were live at the start
    of the frame, unpassed and behind the plane; a flag that is set stays
    set as long as the obstacle lives; over any number of frames no obstacle
    is scored twice and the score grows by 10 per scoring; and an obstacle
    that a frame removed (the eviction loop runs after the scoring pass) is
    scored in no later frame. *)
Theorem score_once (b : Build) (s : State) :
  distinctPillars s ->
  (score s <= score (updateOf b s))%Z /\
  (score (updateOf b s)
     = (score s + 10 * Z.of_nat (List.length (scoredInFrame s)))%Z) /\
  (forall i, In i (scoredInFrame s) ->
     exists p, In p (pillars s) /\ pid p = i /\ passed p = false /\
               zPosition p < frameZ s) /\
  (forall p q, In p (pillars s) -> In q (pillars (updateOf b s)) ->
     pid q = pid p -> passed p = true -> passed q = true) /\
  (forall n, NoDup (scoredLog b n s) /\
     score (ticks b n s)
       = (score s + 10 * Z.of_nat (List.length (scoredLog b n s)))%Z) /\
  (forall n i, In i (map pid (pillars s)) ->
     ~ In i (map pid (pillars (updateOf b s))) ->
     ~ In i (scoredLog b n (updateOf b s))).
Proof.
  intros D.
  split; [rewrite score_of_frame; lia|].
  split; [apply score_of_frame|].
  split; [apply scoredInFrame_spec|].
  split; [intros p q; apply (passed_stays b s p q D)|].
  split.
  - intros n. split; [apply (scoredLog_spec b n s D)|apply score_of_frames].
  - intros n i Hi Gone Hlog.
    destruct (scoredLog_spec b n _ (distinct_preserved b s D)) as [_ Src].
    destruct (Src i Hlog) as [(q & Hq & Eq & _)|Hn].
    + apply Gone. rewrite <- Eq. apply in_map, Hq.
    + apply in_map_iff in Hi as (p & Ep & Hp).
      pose proof (distinct_lt s p D Hp). pose proof (nextId_monotone b s). lia.
Qed.

Lemma score_once_witness :
  distinctPillars Samples.twoBehind /\
  score Samples.twoBehind = 0%Z /\
  score (updateOf ThemedBuild Samples.twoBehind) = 10%Z /\
  score (ticks ThemedBuild 3 Samples.twoBehind) = 10%Z.
Proof.
  assert (D : distinctPillars Samples.twoBehind).
  { split.
    - cbn. repeat constructor; cbn; intuition discriminate.
    - cbn. repeat constructor. }
  destruct (score_once ThemedBuild Samples.twoBehind D) as (_ & S1 & _ & _ & Sn & _).
  split; [exact D|]. split; [reflexivity|]. split.
  - rewrite S1. vm_compute. reflexivity.
  - rewrite (proj2 (Sn 3%nat)). vm_compute. reflexivity.
Defined.

End Obstacles.
(** * The row loop ends by its guard *)

Lemma forRows_more n : forall k z hi s,
  hi <= z + PILLAR_SPACING * inject_Z (Z.of_nat n) ->
  forRows (n + k) z hi s = forRows n z hi s.
Proof.
  induction n as [|n IH]; intros k z hi s H.
  - change (inject_Z (Z.of_nat 0)) with 0 in H.
    assert (G : Qltb z hi = false) by (apply Qltb_ge; lra).
    destruct k; cbn [Nat.add forRows]; [reflexivity|]. rewrite G. reflexivity.
  - cbn [Nat.add forRows]. destruct (Qltb z hi); [|reflexivity].
    apply IH. rewrite Nat2Z.inj_succ in H. unfold Z.succ in H.
    rewrite inject_Z_plus in H. change (inject_Z 1) with 1 in H. lra.
Qed.

Lemma rowRounds_enough from upto :
  upto <= from + PILLAR_SPACING * inject_Z (Z.of_nat (rowRounds from upto)).
Proof.
  unfold rowRounds, PILLAR_SPACING.
  set (c := Qceiling ((upto - from) / 50)).
  assert (C : (upto - from) / 50 <= inject_Z c) by apply Qle_ceiling.
  assert (M : inject_Z c <= inject_Z (Z.of_nat (Z.to_nat c))).
  { rewrite <- Zle_Qle. lia. }
  assert (D : upto - from == 50 * ((upto - from) / 50)) by (field).
  lra.
Qed.

(** More rounds than [rowRounds] change nothing: the loop has ended. *)
Lemma forRows_rounds from upto k s :
  forRows (rowRounds from upto + k) from upto s = rows from upto s.
Proof. apply forRows_more, rowRounds_enough. Qed.

(** * Levels: selection, completion, continuation *)

Module Levels.

(** ** Selecting a level *)

Lemma plain_select_locked n s level :
  lookupLevel (n - 1) (LEVELS s) = Some level -> level_unlocked level = false ->
  Plain.selectLevel n s = Some (set_alerts (alerts s ++ [LevelLockedAlert n]) s).
Proof. intros L U. unfold Plain.selectLevel. rewrite L, U. reflexivity. Qed.

Lemma themed_select_locked n s level :
  lookupLevel (n - 1) (LEVELS s) = Some level -> level_unlocked level = false ->
  Themed.selectLevelWith true n s
  = Some (set_alerts (alerts s ++ [LevelLockedAlert n]) s).
Proof. intros L U. unfold Themed.selectLevelWith. rewrite L, U. reflexivity. Qed.

Lemma select_unlocked b n s level :
  lookupLevel (n - 1) (LEVELS s) = Some level -> level_unlocked level = true ->
  phase s = Menu ->
  exists s', stepOf b (ClickLevel n) s = Some s' /\
    phase s' = Playing /\ currentLevel s' = n /\
    levelDistance s' = level_distance level.
Proof.
  intros L U M. destruct b; cbn [stepOf Plain.step Themed.step].
  - unfold Plain.selectLevel. rewrite L, U. cbn [negb].
    eexists. split; [reflexivity|].
    unfold phase in M |- *. cbn.
    destruct (gameOver s); [destruct (restartBtnText s); discriminate|].
    repeat split.
  - unfold Themed.selectLevel, Themed.selectLevelWith. rewrite L, U.
    rewrite andb_false_r. eexists. split; [reflexivity|]. repeat split.
Qed.

(** C9.  For a level number whose entry exists: if the entry is locked,
    the click (with the lock switch on, as it is in the themed build; the
    plain build has no switch) only appends the "locked" alert: every
    global other than the alert log is as before, so the phase,
    [currentLevel] and [levelDistance] are unchanged; if the entry is
    unlocked, a click in Menu leads to Playing with [currentLevel] the level
    number and [levelDistance] the entry's distance.  Both builds. *)
Theorem select_level (b : Build) (n : Z) (s : State) (level : Level) :
  lookupLevel (n - 1) (LEVELS s) = Some level ->
  (level_unlocked level = false ->
     Themed.LOCK_LEVEL = true /\
     Themed.selectLevelWith true n s
       = Some (set_alerts (alerts s ++ [LevelLockedAlert n]) s) /\
     exists s', stepOf b (ClickLevel n) s = Some s' /\
       alerts s' = alerts s ++ [LevelLockedAlert n] /\
       eraseAlerts s' = eraseAlerts s /\
       phase s' = phase s /\ currentLevel s' = currentLevel s /\
       levelDistance s' = levelDistance s) /\
  (level_unlocked level = true -> phase s = Menu ->
     exists s', stepOf b (ClickLevel n) s = Some s' /\
       phase s' = Playing /\ currentLevel s' = n /\
       levelDistance s' = level_distance level).
Proof.
  intros L. split; [|apply (select_unlocked b n s level L)].
  intros U. split; [reflexivity|].
  split; [apply (themed_select_locked n s level L U)|].
  exists (set_alerts (alerts s ++ [LevelLockedAlert n]) s).
  split; [|repeat split].
  destruct b; cbn [stepOf Plain.step Themed.step].
  - apply (plain_select_locked n s level L U).
  - apply (themed_select_locked n s level L U).
Qed.

Lemma select_level_witness :
  (exists s', stepOf ThemedBuild (ClickLevel 2) (Themed.init Samples.half) = Some s' /\
     alerts s' = [LevelLockedAlert 2] /\ phase s' = Menu /\
     currentLevel s' = 1%Z /\ levelDistance s' = 3000) /\
  (exists s', stepOf ThemedBuild (ClickLevel 1) (Themed.init Samples.half) = Some s' /\
     phase s' = Playing /\ currentLevel s' = 1%Z /\ levelDistance s' = 3000).
Proof.
  split.
  - destruct (select_level ThemedBuild 2 (Themed.init Samples.half)
                (mkLevel 2 6000 false) eq_refl) as [Locked _].
    destruct (Locked eq_refl) as (_ & _ & s' & St & A & _ & P & C & D).
    exists s'. rewrite A, P, C, D. repeat split. exact St.
  - destruct (select_level ThemedBuild 1 (Themed.init Samples.half)
                (mkLevel 1 3000 true) eq_refl) as [_ Open].
    destruct (Open eq_refl eq_refl) as (s' & St & P & C & D).
    exists s'. rewrite P, C, D. repeat split. exact St.
Defined.

(** ** Completing a level *)

Lemma unlockAt_length i : forall ls, List.length (unlockAt i ls) = List.length ls.
Proof.
  induction i as [|i IH]; intros [|l ls]; cbn [unlockAt List.length]; auto.
Qed.

Lemma completeLevelCommon_session s :
  currentLevel (completeLevelCommon s) = currentLevel s /\
  levelDistance (completeLevelCommon s) = levelDistance s /\
  timers (completeLevelCommon s) = timers s /\
  LEVELS_length (completeLevelCommon s) = LEVELS_length s.
Proof.
  unfold completeLevelCommon.
  change (LEVELS_length (set_gameStarted false (set_gameOver true s)))
    with (LEVELS_length s).
  change (currentLevel (set_gameStarted false (set_gameOver true s)))
    with (currentLevel s).
  destruct (currentLevel s <? LEVELS_length s)%Z; repeat split.
  unfold LEVELS_length. cbn. rewrite unlockAt_length. reflexivity.
Qed.

Lemma plain_completeLevel_timer s :
  (currentLevel s <? LEVELS_length s)%Z = true ->
  timers (Plain.completeLevel s) = S (timers s).
Proof.
  intros H. unfold Plain.completeLevel. cbv zeta.
  destruct (completeLevelCommon_session s) as (C & _ & T & L).
  rewrite C, L, H.
  assert (E : forall n y, timers (set_timers n y) = n) by reflexivity.
  rewrite E, T. reflexivity.
Qed.

(** A finished run is not advanced by frames. *)
Lemma finished_frozen b n : forall s,
  gameOver s = true -> ticks b n s = s.
Proof.
  induction n as [|n IH]; intros s G; cbn [ticks]; [reflexivity|].
  assert (I : running s = false) by (unfold running; rewrite G; apply andb_false_r).
  rewrite (updateOf_idle b s I). apply IH, G.
Qed.

Lemma phase_finished s :
  phase s = LevelComplete \/ phase s = GameOver -> gameOver s = true.
Proof.
  unfold phase. destruct (gameOver s); [reflexivity|].
  destruct (gameStarted s); intros [H|H]; discriminate.
Qed.

(** ** What the handlers do to the level *)

Lemma levelOf_eq s s' :
  levelOf s' = levelOf s ->
  currentLevel s' = currentLevel s /\ levelDistance s' = levelDistance s.
Proof. intros H. split; [exact (f_equal fst H) | exact (f_equal snd H)]. Qed.

Lemma updateOf_levelOf b s : levelOf (updateOf b s) = levelOf s.
Proof.
  destruct (running s) eqn:Run; [|rewrite (updateOf_idle b s Run); reflexivity].
  rewrite (tail_field levelOf b s (fun _ => eq_refl) Run).
  apply (agree_on eraseKin levelOf (fun _ => eq_refl) _ _ (kinematics_kin s)).
Qed.

Lemma generatePillarsFrom_levelOf z s : levelOf (generatePillarsFrom z s) = levelOf s.
Proof. frame eraseWorld (generatePillarsFrom_world z). Qed.

Lemma generatePillarsFrom_phase z s : phase (generatePillarsFrom z s) = phase s.
Proof. frame eraseWorld (generatePillarsFrom_world z). Qed.

Lemma themed_towerLoaded_levelOf ok s : levelOf (Themed.towerLoaded ok s) = levelOf s.
Proof.
  unfold Themed.towerLoaded, Themed.generatePillars. cbv zeta.
  assert (G : forall y, levelOf (createGoldenRing y) = levelOf y) by reflexivity.
  assert (B : forall y, levelOf (Themed.createBarriers y) = levelOf y) by reflexivity.
  destruct ok; rewrite G, B, generatePillarsFrom_levelOf; reflexivity.
Qed.

Lemma onKeyDown_levelOf k s : levelOf (onKeyDown k s) = levelOf s.
Proof. unfold onKeyDown. destruct (String.eqb _ _); reflexivity. Qed.

Lemma themed_step_levelOf e s s' :
  Themed.step e s = Some s' ->
  e <> ClickRestart -> (forall n, e <> ClickLevel n) ->
  levelOf s' = levelOf s.
Proof.
  intros H NR NL. destruct e as [ |k|k| | | |n| |ok]; cbn [Themed.step] in H.
  - injection H as <-. apply (updateOf_levelOf ThemedBuild).
  - injection H as <-. apply onKeyDown_levelOf.
  - injection H as <-. reflexivity.
  - injection H as <-. reflexivity.
  - congruence.
  - injection H as <-. reflexivity.
  - exfalso. apply (NL n). reflexivity.
  - discriminate.
  - destruct (loads s) as [|m]; [discriminate|]. injection H as <-.
    rewrite themed_towerLoaded_levelOf. reflexivity.
Qed.

(** ** The rows lie in the range of the loop *)

Lemma spawnPillars_all (P : Pillar -> Prop) n z :
  (forall i x, P (mkPillar i x z false)) ->
  forall s, Forall P (pillars s) -> Forall P (pillars (spawnPillars n z s)).
Proof.
  intros Hz. induction n as [|n IH]; intros s H; cbn [spawnPillars Math_random];
    [exact H|].
  apply IH. cbn. apply Forall_app. split; [exact H|].
  constructor; [apply Hz|constructor].
Qed.

Lemma forRows_range from n : forall z hi s,
  from <= z ->
  Forall (fun p => from <= zPosition p < hi) (pillars s) ->
  Forall (fun p => from <= zPosition p < hi) (pillars (forRows n z hi s)).
Proof.
  induction n as [|n IH]; intros z hi s Hz H; cbn [forRows]; [exact H|].
  destruct (Qltb z hi) eqn:G; [|exact H]. apply Qltb_lt in G.
  apply IH; [unfold PILLAR_SPACING; lra|].
  unfold spawnRow. cbn [Math_random].
  apply spawnPillars_all; [intros i x; cbn; lra|exact H].
Qed.

Lemma generatePillarsFrom_range first s :
  pillars s = [] ->
  Forall (fun p => first <= zPosition p < levelDistance s - 100)
    (pillars (generatePillarsFrom first s)).
Proof.
  intros E. unfold generatePillarsFrom, rows.
  apply forRows_range; [lra|]. rewrite E. constructor.
Qed.

Lemma themed_towerLoaded_world ok s :
  pillars s = [] ->
  goldenRing (Themed.towerLoaded ok s) = Some (ringFor (levelDistance s)) /\
  Forall (fun p => 60 <= zPosition p < levelDistance s - 100)
    (pillars (Themed.towerLoaded ok s)).
Proof.
  intros E. unfold Themed.towerLoaded, Themed.generatePillars. cbv zeta.
  assert (G : forall y, goldenRing (createGoldenRing y) = Some (ringFor (levelDistance y)))
    by reflexivity.
  assert (GP : forall y, pillars (createGoldenRing (Themed.createBarriers y)) = pillars y)
    by reflexivity.
  assert (B : forall y, levelDistance (Themed.createBarriers y) = levelDistance y)
    by reflexivity.
  assert (D : forall z y, levelDistance (generatePillarsFrom z y) = levelDistance y).
  { intros z y. frame eraseWorld (generatePillarsFrom_world z). }
  destruct ok; rewrite G, GP, B, D; (split; [reflexivity|]).
  - apply (generatePillarsFrom_range 60
             (set_goldenRing None (set_barriers [] (set_pillars [] s)))).
    reflexivity.
  - apply (generatePillarsFrom_range 60 (set_alerts _ s)). exact E.
Qed.

(** ** Continue, in the themed build *)

Lemma phase_LevelComplete s :
  phase s = LevelComplete -> gameOver s = true /\ restartBtnText s = ContinueText.
Proof.
  unfold phase. destruct (gameOver s).
  - destruct (restartBtnText s); [discriminate|auto].
  - destruct (gameStarted s); discriminate.
Qed.

Lemma themed_continue s level :
  phase s = LevelComplete ->
  (currentLevel s <? LEVELS_length s)%Z = true ->
  lookupLevel (currentLevel s) (LEVELS s) = Some level ->
  exists s1, Themed.step ClickRestart s = Some s1 /\
    currentLevel s1 = (currentLevel s + 1)%Z /\
    levelDistance s1 = level_distance level /\
    phase s1 = Playing /\ pillars s1 = [] /\ loads s1 = S (loads s).
Proof.
  intros P H L. destruct (phase_LevelComplete s P) as [_ B].
  cbn [Themed.step]. unfold Themed.restartGame. rewrite B, H.
  cbn [currentLevel set_currentLevel LEVELS].
  replace (currentLevel s + 1 - 1)%Z with (currentLevel s) by lia.
  rewrite L. eexists. split; [reflexivity|]. repeat split.
Qed.

Lemma themed_reinit s1 ok :
  pillars s1 = [] -> loads s1 <> O ->
  exists s2, Themed.step (TowerLoaded ok) s1 = Some s2 /\
    goldenRing s2 = Some (ringFor (levelDistance s1)) /\
    Forall (fun p => 60 <= zPosition p < levelDistance s1 - 100) (pillars s2) /\
    levelOf s2 = levelOf s1.
Proof.
  intros E N. cbn [Themed.step]. destruct (loads s1) as [|m]; [congruence|].
  eexists. split; [reflexivity|].
  destruct (themed_towerLoaded_world ok (set_loads m s1) E) as [G F].
  rewrite themed_towerLoaded_levelOf. auto.
Qed.

(** ** The timer and Continue, in the plain build *)

Lemma plain_restartGame_session s :
  levelOf (Plain.restartGame s) = levelOf s /\
  phase (Plain.restartGame s) = Playing /\
  timers (Plain.restartGame s) = timers s.
Proof.
  unfold Plain.restartGame, Plain.generatePillars. cbv zeta.
  assert (A : forall y, levelOf (set_gameOverHidden true (createGoldenRing y)) = levelOf y)
    by reflexivity.
  assert (B : forall y, phase (set_gameOverHidden true (createGoldenRing y)) = phase y)
    by reflexivity.
  assert (C : forall y, timers (set_gameOverHidden true (createGoldenRing y)) = timers y)
    by reflexivity.
  rewrite A, B, C, generatePillarsFrom_levelOf, generatePillarsFrom_phase.
  rewrite (unchanged_by eraseWorld timers _ (fun _ => eq_refl)
             (generatePillarsFrom_world 20)).
  repeat split.
Qed.

Lemma plain_timer_advances s n level :
  timers s = S n ->
  lookupLevel (currentLevel s) (LEVELS s) = Some level ->
  exists s', Plain.step TimerFires s = Some s' /\
    currentLevel s' = (currentLevel s + 1)%Z /\
    levelDistance s' = level_distance level /\
    phase s' = Playing /\ timers s' = n.
Proof.
  intros T L. cbn [Plain.step]. rewrite T. unfold Plain.autoAdvance.
  cbn [currentLevel set_currentLevel set_gameOverHidden set_timers LEVELS].
  replace (currentLevel s + 1 - 1)%Z with (currentLevel s) by lia.
  rewrite L. eexists. split; [reflexivity|].
  destruct (plain_restartGame_session
              (set_levelDistance (level_distance level)
                 (set_currentLevel (currentLevel s + 1)
                    (set_gameOverHidden true (set_timers n s))))) as (Lv & Ph & Tm).
  destruct (levelOf_eq _ _ Lv) as [Lc Ld].
  rewrite Lc, Ld, Ph, Tm. repeat split.
Qed.

(** C3, as the builds have it.  In both builds [completeLevel] leaves the
    run in LevelComplete and frames change nothing from then on.  In the
    themed build no timer is set and none can fire; every handler other than
    the restart/continue click and a level button leaves [currentLevel] and
    [levelDistance] as they are; the continue click, when a next level
    exists, first makes [currentLevel] the next level and [levelDistance]
    its distance, then resets the run and requests the model, and when that
    load ends the ring stands at the new distance minus 50 and every
    obstacle lies in rows from 60 to below the new distance minus 100.  In
    the plain build [completeLevel] sets a timer when a next level exists;
    when it fires, with no action of the player, the level is advanced and
    a new run starts, whereas the restart/continue click leaves the level
    as it is. *)
Theorem continue_is_explicit :
  (forall b s, phase (completeLevelOf b s) = LevelComplete) /\
  (forall b s n, phase s = LevelComplete -> ticks b n s = s) /\
  (forall s, timers (Themed.completeLevel s) = timers s) /\
  (forall s, Themed.step TimerFires s = None) /\
  (forall e s s', Themed.step e s = Some s' ->
     e <> ClickRestart -> (forall n, e <> ClickLevel n) ->
     currentLevel s' = currentLevel s /\ levelDistance s' = levelDistance s) /\
  (forall s level,
     phase s = LevelComplete ->
     (currentLevel s <? LEVELS_length s)%Z = true ->
     lookupLevel (currentLevel s) (LEVELS s) = Some level ->
     exists s1, Themed.step ClickRestart s = Some s1 /\
       currentLevel s1 = (currentLevel s + 1)%Z /\
       levelDistance s1 = level_distance level /\
       phase s1 = Playing /\ pillars s1 = [] /\
       forall ok, exists s2, Themed.step (TowerLoaded ok) s1 = Some s2 /\
         goldenRing s2 = Some (ringFor (level_distance level)) /\
         Forall (fun p => 60 <= zPosition p < level_distance level - 100)
           (pillars s2) /\
         currentLevel s2 = (currentLevel s + 1)%Z) /\
  (forall s, (currentLevel s <? LEVELS_length s)%Z = true ->
     timers (Plain.completeLevel s) = S (timers s)) /\
  (forall s n level,
     timers s = S n ->
     lookupLevel (currentLevel s) (LEVELS s) = Some level ->
     exists s', Plain.step TimerFires s = Some s' /\
       currentLevel s' = (currentLevel s + 1)%Z /\
       levelDistance s' = level_distance level /\
       phase s' = Playing /\ timers s' = n) /\
  (forall s, currentLevel (Plain.restartGame s) = currentLevel s).
Proof.
  split; [exact RingFacts.phase_completeLevelOf|].
  split; [intros b s n P; apply finished_frozen, phase_finished; auto|].
  split; [intros s; apply (completeLevelCommon_session s)|].
  split; [reflexivity|].
  split.
  { intros e s s' H NR NL.
    apply levelOf_eq, (themed_step_levelOf e s s' H NR NL). }
  split.
  { intros s level P H L.
    destruct (themed_continue s level P H L) as (s1 & St & C & D & Ph & Ps & Ld).
    exists s1. repeat split; auto.
    intros ok.
    destruct (themed_reinit s1 ok Ps ltac:(rewrite Ld; discriminate))
      as (s2 & St2 & G & F & Lv).
    exists s2. rewrite D in G, F. destruct (levelOf_eq _ _ Lv) as [Lc _].
    rewrite C in Lc. auto. }
  split; [exact plain_completeLevel_timer|].
  split; [exact plain_timer_advances|].
  intros s. destruct (plain_restartGame_session s) as (Lv & _).
  apply (levelOf_eq _ _ Lv).
Qed.

(** The plain build, after the frame that takes the plane through the ring
    of level 1: the run is in LevelComplete with one timer pending; when the
    timer fires, and nothing else has happened, level 2 is being played. *)
Lemma plain_build_advances_by_timer :
  phase Samples.levelDone = LevelComplete /\
  currentLevel Samples.levelDone = 1%Z /\
  timers Samples.levelDone = 1%nat /\
  exists s', stepOf PlainBuild TimerFires Samples.levelDone = Some s' /\
    currentLevel s' = 2%Z /\ levelDistance s' = 6000 /\ phase s' = Playing.
Proof.
  assert (P : phase Samples.levelDone = LevelComplete) by (vm_compute; reflexivity).
  assert (C : currentLevel Samples.levelDone = 1%Z) by (vm_compute; reflexivity).
  assert (T : timers Samples.levelDone = 1%nat) by (vm_compute; reflexivity).
  assert (L : lookupLevel (currentLevel Samples.levelDone) (LEVELS Samples.levelDone)
              = Some (mkLevel 2 6000 true)) by (vm_compute; reflexivity).
  split; [exact P|]. split; [exact C|]. split; [exact T|].
  destruct (plain_timer_advances Samples.levelDone 0 _ T L) as (s' & St & Lc & Ld & Ph & _).
  exists s'. rewrite Lc, Ld, Ph, C. repeat split. exact St.
Qed.

End Levels.

(** * Every reachable state *)

Module Reach.
Import Obstacles.

Lemma distinct_same s s' :
  worldOf s' = worldOf s -> distinctPillars s -> distinctPillars s'.
Proof.
  intros E. unfold distinctPillars.
  rewrite (f_equal (fun w => fst (fst w)) E : pillars s' = pillars s).
  rewrite (f_equal snd E : nextId s' = nextId s). auto.
Qed.

Lemma distinct_cleared s : pillars s = [] -> distinctPillars s.
Proof. unfold distinctPillars. intros ->. split; constructor. Qed.

Lemma distinct_spawns s s' : distinctPillars s -> Spawns s s' -> distinctPillars s'.
Proof.
  intros D (fresh & P & I & N & _). split.
  - rewrite P, map_app, I. apply NoDup_app; [apply D|apply seq_NoDup|].
    intros i Hi Hs. apply in_seq in Hs. apply in_map_iff in Hi as (p & E & Hp).
    pose proof (distinct_lt s p D Hp). lia.
  - rewrite P. apply Forall_app. split; apply Forall_forall; intros p Hp.
    + pose proof (distinct_lt s p D Hp). lia.
    + assert (Hi : In (pid p) (seq (nextId s) (List.length fresh)))
        by (rewrite <- I; apply in_map, Hp).
      apply in_seq in Hi. lia.
Qed.

Lemma generatePillarsFrom_spawns z s : Spawns s (generatePillarsFrom z s).
Proof. apply forRows_spawns. Qed.

Lemma generated_distinct z s :
  pillars s = [] -> distinctPillars (generatePillarsFrom z s).
Proof.
  intros E. apply (distinct_spawns s); [|apply generatePillarsFrom_spawns].
  apply distinct_cleared, E.
Qed.

Lemma plain_restartGame_distinct s : distinctPillars (Plain.restartGame s).
Proof.
  unfold Plain.restartGame, Plain.generatePillars. cbv zeta.
  assert (W : forall y, worldOf (set_gameOverHidden true (createGoldenRing y))
                        = worldOf y) by reflexivity.
  apply (distinct_same _ _ (W _)). apply generated_distinct. reflexivity.
Qed.

Lemma themed_towerLoaded_distinct ok s :
  distinctPillars s -> distinctPillars (Themed.towerLoaded ok s).
Proof.
  intros D. unfold Themed.towerLoaded, Themed.generatePillars. cbv zeta.
  assert (W : forall y, worldOf (createGoldenRing (Themed.createBarriers y))
                        = worldOf y) by reflexivity.
  destruct ok; apply (distinct_same _ _ (W _)).
  - apply generated_distinct. reflexivity.
  - apply (distinct_spawns (set_alerts (alerts s ++ [TowerModelFailedAlert]) s));
      [|apply generatePillarsFrom_spawns].
    apply (distinct_same s); [reflexivity|exact D].
Qed.

Lemma step_distinct b e s s' :
  distinctPillars s -> stepOf b e s = Some s' -> distinctPillars s'.
Proof.
  intros D H. destruct e as [ |k|k| | | |n| |ok].
  - assert (E : s' = updateOf b s) by (destruct b; injection H as <-; reflexivity).
    rewrite E. apply (distinct_preserved b s D).
  - destruct b; injection H as <-; apply (distinct_same s); try exact D;
      unfold onKeyDown; destruct (String.eqb _ _); reflexivity.
  - destruct b; injection H as <-; apply (distinct_same s); auto.
  - destruct b; injection H as <-; apply (distinct_same s); auto.
  - destruct b; cbn [stepOf Plain.step Themed.step] in H.
    + injection H as <-. apply plain_restartGame_distinct.
    + unfold Themed.restartGame in H.
      destruct (restartBtnText s).
      * injection H as <-. apply distinct_cleared. reflexivity.
      * destruct (_ <? _)%Z.
        -- destruct (lookupLevel _ _); [|discriminate].
           injection H as <-. apply distinct_cleared. reflexivity.
        -- injection H as <-. apply distinct_cleared. reflexivity.
  - destruct b; injection H as <-; apply distinct_cleared; reflexivity.
  - destruct b; cbn [stepOf Plain.step Themed.step] in H;
      unfold Plain.selectLevel, Themed.selectLevel, Themed.selectLevelWith in H;
      (destruct (lookupLevel _ _); [|discriminate]);
      match type of H with context [if ?c then _ else _] => destruct c end;
      injection H as <-;
      first [apply distinct_cleared; reflexivity
            |apply (distinct_same s); [reflexivity|exact D]].
  - destruct b; cbn [stepOf Plain.step Themed.step] in H; [|discriminate].
    destruct (timers s) as [|m]; [discriminate|].
    unfold Plain.autoAdvance in H.
    destruct (lookupLevel _ _); [|discriminate].
    injection H as <-. apply plain_restartGame_distinct.
  - destruct b; cbn [stepOf Plain.step Themed.step] in H; [discriminate|].
    destruct (loads s) as [|m]; [discriminate|].
    injection H as <-. apply themed_towerLoaded_distinct.
    apply (distinct_same s); [reflexivity|exact D].
Qed.

Lemma initOf_distinct b rnd : distinctPillars (initOf b rnd).
Proof.
  destruct b; cbn [initOf].
  - unfold Plain.init, Plain.generatePillars.
    assert (W : forall y, worldOf (createGoldenRing y) = worldOf y) by reflexivity.
    apply (distinct_same _ _ (W _)). apply generated_distinct. reflexivity.
  - apply distinct_cleared. reflexivity.
Qed.

(** In every state the script can reach, the live obstacles are distinct
    objects. *)
Lemma reachable_distinct b rnd es s :
  run b es (initOf b rnd) = Some s -> distinctPillars s.
Proof.
  apply (run_invariant distinctPillars b).
  - intros e x x' D H. apply (step_distinct b e x x' D H).
  - apply initOf_distinct.
Qed.

(** In every state the script can reach, speed, pitch and roll are inside
    their envelopes. *)
Lemma reachable_envelope b rnd es s :
  run b es (initOf b rnd) = Some s -> inEnvelope s.
Proof.
  intros H.
  apply (pose_invariant
           (fun p => MIN_SPEED <= snd p <= MAX_SPEED /\
                     -0.3 <= vx (snd (fst p)) <= 0.3 /\
                     -0.3 <= vz (snd (fst p)) <= 0.3) b) with rnd es.
  - unfold startPose, INITIAL_SPEED, MIN_SPEED, MAX_SPEED. cbn [fst snd vx vz]. lra.
  - intros x (Hs & Hp & Hr). cbn [pose fst snd] in *.
    destruct (running x) eqn:Run; [|rewrite (updateOf_idle b x Run); auto].
    rewrite (updateOf_speed b x Run), (updateOf_pitch b x Run), (updateOf_roll b x Run).
    split; [apply Kinematics.throttle_bounds, Hs|].
    split; [apply Kinematics.pitch_bounds, Hp | apply Kinematics.steer_bounds, Hr].
  - exact H.
Qed.

End Reach.
Lemma Vec3_ext (a b : Vec3) :
  vx a = vx b -> vy a = vy b -> vz a = vz b -> a = b.
Proof. destruct a, b; cbn; congruence. Qed.

Module Verdict.

Lemma endGame_twice s : endGame (endGame s) = endGame s.
Proof. vm_compute. reflexivity. Qed.

Lemma pillarCollisions_spec box ps : forall s,
  pillarCollisions box ps s = if existsb (hitsPillar box) ps then endGame s else s.
Proof.
  induction ps as [|p ps IH]; intros s; cbn [pillarCollisions existsb]; [reflexivity|].
  rewrite IH. destruct (hitsPillar box p); cbn [orb]; [|reflexivity].
  destruct (existsb _ ps); [apply endGame_twice | reflexivity].
Qed.

Lemma groundCollision_endGame s : groundCollision (endGame s) = endGame s.
Proof.
  unfold groundCollision.
  change (vy (position (plane (endGame s)))) with (vy (position (plane s))).
  destruct (Qltb _ _); [apply endGame_twice|reflexivity].
Qed.

Lemma constrain_endGame s :
  Themed.constrainToBarriers (endGame s) = endGame (Themed.constrainToBarriers s).
Proof.
  unfold Themed.constrainToBarriers. cbv zeta.
  change (planePosition (endGame s)) with (planePosition s).
  destruct (Qltb _ _); [reflexivity|]. destruct (Qltb _ _); reflexivity.
Qed.

Lemma checkCollisionsOf_spec b c :
  checkCollisionsOf b c = if crashes c then endGame (settle b c) else settle b c.
Proof.
  unfold crashes, collides.
  destruct b; cbn [checkCollisionsOf settle];
    unfold Plain.checkCollisions, Themed.checkCollisions; cbv zeta;
    rewrite pillarCollisions_spec.
  - destruct (existsb _ _); cbn [orb]; [apply groundCollision_endGame|].
    reflexivity.
  - destruct (existsb _ _); cbn [orb].
    + rewrite constrain_endGame. apply groundCollision_endGame.
    + unfold groundCollision.
      rewrite (unchanged_by eraseX planeY _ (fun _ => eq_refl) constrainToBarriers_x c
               : vy (position (plane (Themed.constrainToBarriers c))) = _).
      reflexivity.
Qed.

End Verdict.

(** * When a frame ends the run *)

Module Outcome.
Import Verdict.

Lemma hitsPillar_scoreOne m z p : hitsPillar m (scoreOne z p) = hitsPillar m p.
Proof. unfold scoreOne. destruct (justPassed z p); reflexivity. Qed.

Lemma collides_scored m z ps : collides m (map (scoreOne z) ps) = collides m ps.
Proof.
  unfold collides. induction ps as [|p ps IH]; cbn [map existsb]; [reflexivity|].
  rewrite hitsPillar_scoreOne, IH. reflexivity.
Qed.

Lemma collides_false m ps :
  collides m ps = false <-> forall p, In p ps -> hitsPillar m p = false.
Proof.
  unfold collides. split.
  - intros H p Hp. destruct (hitsPillar m p) eqn:E; [|reflexivity].
    rewrite <- H. symmetry. apply existsb_exists. exists p. auto.
  - intros H. destruct (existsb _ ps) eqn:E; [|reflexivity].
    apply existsb_exists in E as (p & Hp & Hit). rewrite (H p Hp) in Hit.
    discriminate.
Qed.

(** The state on which the collision check is made. *)
Lemma crashes_at_check s :
  crashes (scorePillars (kinematics s))
  = collides (plane (kinematics s)) (pillars s)
    || Qltb (vy (position (plane (kinematics s)))) 0.5.
Proof.
  unfold crashes.
  rewrite (unchanged_by eraseWorld plane _ (fun _ => eq_refl) scorePillars_world).
  rewrite (proj1 (Obstacles.scorePillars_spec _)), kinematics_pillars.
  rewrite collides_scored. reflexivity.
Qed.

Lemma running_endGame s : running (endGame s) = false.
Proof. reflexivity. Qed.

Lemma running_completeLevelOf b s : running (completeLevelOf b s) = false.
Proof.
  pose proof (RingFacts.phase_completeLevelOf b s) as P.
  unfold running. rewrite (Levels.phase_finished _ (or_introl P)).
  apply andb_false_r.
Qed.

Lemma running_settle b s : running (settle b s) = running s.
Proof.
  destruct b; cbn [settle]; [reflexivity|].
  apply (unchanged_by eraseX running _ (fun _ => eq_refl) constrainToBarriers_x).
Qed.

Lemma running_at_check s : running (scorePillars (kinematics s)) = running s.
Proof.
  rewrite (unchanged_by eraseWorld running _ (fun _ => eq_refl) scorePillars_world).
  apply (agree_on eraseKin running (fun _ => eq_refl) _ _ (kinematics_kin s)).
Qed.

Lemma running_after_check b s :
  running s = true ->
  running (checkCollisionsOf b (scorePillars (kinematics s)))
  = negb (crashes (scorePillars (kinematics s))).
Proof.
  intros Run. rewrite checkCollisionsOf_spec.
  destruct (crashes _); cbn [negb]; [apply running_endGame|].
  rewrite running_settle, running_at_check. exact Run.
Qed.

Lemma running_atRing b s :
  running s = true ->
  running (atRing b s) = negb (crashes (scorePillars (kinematics s))).
Proof.
  intros Run. unfold atRing, beforeRing, beforeEviction.
  rewrite (unchanged_by eraseWorld running _ (fun _ => eq_refl) evictPillars_world).
  rewrite (unchanged_by eraseWorld running _ (fun _ => eq_refl) streamPillars_world).
  apply (running_after_check b s Run).
Qed.

(** With a non-negative radicand the three tests on the square root are
    tests on the radicand. *)
Lemma ring_tests d :
  0 <= d ->
  sqrt_leb d 6 = Qle_bool d 36 /\
  sqrt_gtb d 6 = Qltb 36 d /\
  sqrt_ltb d 8 = Qltb d 64.
Proof.
  intros H. unfold sqrt_leb, sqrt_gtb, sqrt_ltb.
  rewrite (proj2 (Qle_bool_iff 0 d) H). cbn [andb].
  repeat split.
Qed.

Lemma ringCheck_running b a ring :
  goldenRing a = Some ring ->
  running (ringCheck (completeLevelOf b) a)
  = running a &&
    negb (inRingWindow (vz (position (plane a))) ring &&
          Qltb (planarDistSq (plane a) ring) 64).
Proof.
  intros G. unfold ringCheck. rewrite G.
  destruct (inRingWindow _ _); cbn [andb negb]; [|rewrite andb_true_r; reflexivity].
  destruct (ring_tests _ (RingFacts.planarDistSq_nonneg (plane a) ring))
    as (-> & -> & ->).
  destruct (Qle_bool _ 36) eqn:L.
  - rewrite running_completeLevelOf.
    apply Qle_bool_iff in L.
    rewrite (proj2 (Qltb_lt _ 64)) by lra. cbn. rewrite andb_false_r. reflexivity.
  - apply Qle_bool_gt in L. rewrite (proj2 (Qltb_lt 36 _) L). cbn [andb].
    destruct (Qltb _ 64); cbn [negb].
    + rewrite running_endGame, andb_false_r. reflexivity.
    + rewrite andb_true_r. reflexivity.
Qed.

Lemma flewPastCheck_running x ring :
  goldenRing x = Some ring ->
  running (flewPastCheck x)
  = running x && negb (Qltb (ring_zPosition ring + 10) (vz (position (plane x)))).
Proof.
  intros G. unfold flewPastCheck. rewrite G.
  destruct (Qltb _ _); cbn [negb].
  - rewrite running_endGame, andb_false_r. reflexivity.
  - rewrite andb_true_r. reflexivity.
Qed.

(** The verdict of a frame in Playing. *)
Lemma frame_verdict b s :
  running s = true ->
  running (updateOf b s)
  = negb (crashes (scorePillars (kinematics s))) &&
    match goldenRing s with
    | None => true
    | Some ring =>
        let m := plane (updateOf b s) in
        negb (inRingWindow (vz (position m)) ring && Qltb (planarDistSq m ring) 64)
        && negb (Qltb (ring_zPosition ring + 10) (vz (position m)))
    end.
Proof.
  intros Run. cbv zeta.
  rewrite (RingFacts.updateOf_plane_atRing b s Run).
  rewrite (RingFacts.updateOf_ring b s Run).
  pose proof (RingFacts.atRing_goldenRing b s) as G.
  pose proof (running_atRing b s Run) as Ra.
  set (a := atRing b s) in *.
  destruct (goldenRing s) as [ring|].
  - assert (G' : goldenRing (ringCheck (completeLevelOf b) a) = Some ring).
    { rewrite (agree_on eraseOutcome goldenRing (fun _ => eq_refl) _ _
                 (ringCheck_outcome b a)). exact G. }
    assert (P' : plane (ringCheck (completeLevelOf b) a) = plane a).
    { apply (agree_on eraseOutcome plane (fun _ => eq_refl) _ _
               (ringCheck_outcome b a)). }
    rewrite (flewPastCheck_running _ ring G'), P'.
    rewrite (ringCheck_running b a ring G), Ra.
    rewrite andb_assoc. reflexivity.
  - unfold flewPastCheck, ringCheck. rewrite G, G, Ra, andb_true_r. reflexivity.
Qed.

End Outcome.
(** * What the handlers other than the frame write *)

Section Session.

Lemma generatePillarsFrom_spawn z s :
  eraseSpawn (generatePillarsFrom z s) = eraseSpawn s.
Proof. apply Obstacles.forRows_spawn. Qed.

Lemma eraseSession_spawn s : eraseSession (eraseSpawn s) = eraseSession s.
Proof. vm_compute. reflexivity. Qed.

Lemma generatePillarsFrom_kept z s :
  eraseSession (generatePillarsFrom z s) = eraseSession s.
Proof.
  apply (unchanged_by eraseSpawn eraseSession _ eraseSession_spawn
           (generatePillarsFrom_spawn z)).
Qed.

Lemma plain_restartGame_kept s :
  eraseSession (Plain.restartGame s) = eraseSession (resetRun s).
Proof.
  unfold Plain.restartGame, Plain.generatePillars. cbv zeta.
  assert (H : forall y, eraseSession (set_gameOverHidden true (createGoldenRing y))
                        = eraseSession y) by (intros y; vm_compute; reflexivity).
  rewrite H. apply generatePillarsFrom_kept.
Qed.

Lemma themed_restartGame_kept s s' :
  Themed.restartGame s = Some s' -> eraseSession s' = eraseSession (resetRun s).
Proof.
  unfold Themed.restartGame.
  destruct (restartBtnText s).
  - intros [= <-]. vm_compute. reflexivity.
  - destruct (_ <? _)%Z.
    + destruct (lookupLevel _ _); [|discriminate]. intros [= <-].
      vm_compute. reflexivity.
    + intros [= <-]. vm_compute. reflexivity.
Qed.

Lemma themed_towerLoaded_kept ok s :
  eraseSession (Themed.towerLoaded ok s) = eraseSession s.
Proof.
  unfold Themed.towerLoaded, Themed.generatePillars. cbv zeta.
  assert (H : forall y, eraseSession (createGoldenRing (Themed.createBarriers y))
                        = eraseSession y) by (intros y; vm_compute; reflexivity).
  destruct ok; rewrite H, generatePillarsFrom_kept; vm_compute; reflexivity.
Qed.

Lemma selectLevel_kept b n s s' :
  stepOf b (ClickLevel n) s = Some s' -> eraseSession s' = eraseSession s.
Proof.
  destruct b; cbn [stepOf Plain.step Themed.step];
    unfold Plain.selectLevel, Themed.selectLevel, Themed.selectLevelWith;
    (destruct (lookupLevel _ _); [|discriminate]);
    match goal with |- context [if ?c then _ else _] => destruct c end;
    intros [= <-]; vm_compute; reflexivity.
Qed.

(** Apart from the frame and a key press, a handler leaves the plane, the
    counters of a run, the view mode, the level table and the random source
    as they are, or puts the plane, the counters and the view mode back to
    the start of a run. *)
Lemma step_session b e s s' :
  stepOf b e s = Some s' -> e <> Frame -> (forall k, e <> KeyDown k) ->
  eraseSession s' = eraseSession s \/ eraseSession s' = eraseSession (resetRun s).
Proof.
  intros H NF NK. destruct e as [ |k|k| | | |n| |ok]; try congruence.
  - left. destruct b; injection H as <-; vm_compute; reflexivity.
  - left. destruct b; injection H as <-; vm_compute; reflexivity.
  - right. destruct b; cbn [stepOf Plain.step Themed.step] in H.
    + injection H as <-. apply plain_restartGame_kept.
    + apply (themed_restartGame_kept _ _ H).
  - right. destruct b; injection H as <-; vm_compute; reflexivity.
  - left. apply (selectLevel_kept _ _ _ _ H).
  - right. destruct b; cbn [stepOf Plain.step Themed.step] in H; [|discriminate].
    destruct (timers s) as [|m]; [discriminate|].
    unfold Plain.autoAdvance in H.
    destruct (lookupLevel _ _); [|discriminate].
    injection H as <-. rewrite plain_restartGame_kept.
    vm_compute. reflexivity.
  - left. destruct b; cbn [stepOf Plain.step Themed.step] in H; [discriminate|].
    destruct (loads s) as [|m]; [discriminate|].
    injection H as <-.
    rewrite themed_towerLoaded_kept. vm_compute. reflexivity.
Qed.

Lemma initOf_kept b rnd :
  eraseSession (initOf b rnd) = eraseSession (globals0 rnd).
Proof.
  destruct b; cbn [initOf]; [|vm_compute; reflexivity].
  unfold Plain.init, Plain.generatePillars.
  assert (H : forall y, eraseSession (createGoldenRing y) = eraseSession y)
    by (intros y; vm_compute; reflexivity).
  rewrite H. apply generatePillarsFrom_kept.
Qed.

(** A property of the globals that [eraseSession] keeps holds in every
    state the script can reach if it holds of the declared globals and is
    kept by the frame, by a key press and by the reset of a run. *)
Lemma session_invariant {A} (f : State -> A) (P : A -> Prop) b :
  (forall y, f (eraseSession y) = f y) ->
  (forall s, P (f s) -> P (f (updateOf b s))) ->
  (forall k s, P (f s) -> P (f (onKeyDown k s))) ->
  (forall s, P (f s) -> P (f (resetRun s))) ->
  forall rnd, P (f (globals0 rnd)) ->
  forall es s, run b es (initOf b rnd) = Some s -> P (f s).
Proof.
  intros Hf Hu Hk Hr rnd H0 es s Hrun.
  apply (run_invariant (fun x => P (f x)) b) with (es := es) (s := initOf b rnd);
    [| |exact Hrun].
  - intros e x x' Hx Hstep.
    destruct e as [ |k|k| | | |n| |ok];
      try (destruct (step_session b _ x x' Hstep) as [E|E];
           [discriminate|intros; discriminate| |];
           [rewrite (agree_on eraseSession f Hf _ _ E); exact Hx
           |rewrite (agree_on eraseSession f Hf _ _ E); apply Hr, Hx]).
    + destruct b; injection Hstep as <-; apply Hu, Hx.
    + destruct b; injection Hstep as <-; apply Hk, Hx.
  - rewrite (agree_on eraseSession f Hf _ _ (initOf_kept b rnd)). exact H0.
Qed.

End Session.

(** * The kinematic blocks and the model *)

Module Sync.

Section Blocks.

Local Ltac by_keys :=
  intros;
  repeat match goal with
  | |- context [if keys ?s ?k then _ else _] => destruct (keys s k)
  end;
  reflexivity.

(** The four blocks that read the keys leave the model, the distance and
    the forward position as they are. *)
Lemma controls_rest s :
  let x := orbit (pitch (steer (throttle s))) in
  plane x = plane s /\ distance x = distance s /\
  vz (planePosition x) = vz (planePosition s) /\
  vy (planeRotation x) = vy (planeRotation s) /\
  speed x = speed (throttle s).
Proof.
  cbv zeta.
  assert (T : plane (throttle s) = plane s /\ distance (throttle s) = distance s /\
              planePosition (throttle s) = planePosition s /\
              planeRotation (throttle s) = planeRotation s).
  { unfold throttle. destruct (keys s "w"); cbn [keys set_speed];
      destruct (keys s "s"); repeat split. }
  assert (S : forall y, plane (steer y) = plane y /\ distance (steer y) = distance y /\
              vz (planePosition (steer y)) = vz (planePosition y) /\
              vy (planeRotation (steer y)) = vy (planeRotation y) /\
              speed (steer y) = speed y).
  { intros y. unfold steer. destruct (keys y "d"), (keys y "a"); repeat split. }
  assert (P : forall y, plane (pitch y) = plane y /\ distance (pitch y) = distance y /\
              vz (planePosition (pitch y)) = vz (planePosition y) /\
              vy (planeRotation (pitch y)) = vy (planeRotation y) /\
              speed (pitch y) = speed y).
  { intros y. unfold pitch. destruct (keys y "arrowup"), (keys y "arrowdown");
      repeat split. }
  assert (O : forall y, plane (orbit y) = plane y /\ distance (orbit y) = distance y /\
              planePosition (orbit y) = planePosition y /\
              planeRotation (orbit y) = planeRotation y /\
              speed (orbit y) = speed y).
  { intros y. unfold orbit. destruct (keys y "arrowright"), (keys y "arrowleft");
      repeat split. }
  destruct T as (T1 & T2 & T3 & T4).
  destruct (S (throttle s)) as (S1 & S2 & S3 & S4 & S5).
  destruct (P (steer (throttle s))) as (P1 & P2 & P3 & P4 & P5).
  destruct (O (pitch (steer (throttle s)))) as (O1 & O2 & O3 & O4 & O5).
  rewrite O1, O2, O3, O4, O5, P1, P2, P3, P4, P5, S1, S2, S3, S4, S5, T1, T2, T3, T4.
  repeat split.
Qed.

Lemma finish_rest x :
  vz (planePosition (advance (syncPlane x))) = vz (planePosition x) + speed x /\
  distance (advance (syncPlane x)) = distance x + speed x /\
  rotation (plane (advance (syncPlane x)))
    = mkVec3 (vx (planeRotation x)) (vy (rotation (plane x))) (vz (planeRotation x)) /\
  planeRotation (advance (syncPlane x)) = planeRotation x.
Proof. repeat split. Qed.

End Blocks.

(** The forward move of a frame. *)
Lemma kinematics_forward s :
  vz (planePosition (kinematics s)) = vz (planePosition s) + speed (throttle s) /\
  distance (kinematics s) = distance s + speed (throttle s).
Proof.
  unfold kinematics.
  destruct (finish_rest (orbit (pitch (steer (throttle s))))) as (Z & D & _).
  destruct (controls_rest s) as (_ & D' & Z' & _ & Sp).
  rewrite Z, D, D', Z', Sp. split; reflexivity.
Qed.

Lemma kinematics_rotation s :
  vy (rotation (plane s)) = vy (planeRotation s) ->
  rotation (plane (kinematics s)) = planeRotation (kinematics s).
Proof.
  intros H. unfold kinematics.
  destruct (finish_rest (orbit (pitch (steer (throttle s))))) as (_ & _ & R & R').
  destruct (controls_rest s) as (Pl & _ & _ & Ry & _).
  rewrite R, R', Pl, H, <- Ry.
  destruct (planeRotation (orbit (pitch (steer (throttle s))))). reflexivity.
Qed.

Lemma kinematics_position s :
  position (plane (kinematics s)) = planePosition (kinematics s).
Proof.
  destruct (kinematics_plane s) as (X & Y & Z). apply Vec3_ext; assumption.
Qed.

Lemma constrain_in_step x :
  position (plane x) = planePosition x ->
  position (plane (Themed.constrainToBarriers x))
  = planePosition (Themed.constrainToBarriers x).
Proof.
  intros H. unfold Themed.constrainToBarriers. cbv zeta.
  destruct (Qltb _ _); [cbn; rewrite H; reflexivity|].
  destruct (Qltb _ _); [cbn; rewrite H; reflexivity|exact H].
Qed.

(** The state on which the ground test is made has the model where the
    logical position says. *)
Lemma atGroundTest_position b s :
  position (plane (atGroundTest b s)) = planePosition (atGroundTest b s).
Proof.
  set (c := scorePillars (kinematics s)).
  assert (C : position (plane c) = planePosition c).
  { unfold c.
    rewrite (unchanged_by eraseWorld plane _ (fun _ => eq_refl) scorePillars_world).
    rewrite (unchanged_by eraseWorld planePosition _ (fun _ => eq_refl)
               scorePillars_world).
    apply kinematics_position. }
  assert (P : position (plane (pillarCollisions (plane c) (pillars c) c))
              = planePosition (pillarCollisions (plane c) (pillars c) c)).
  { rewrite (unchanged_by eraseOutcome plane _ (fun _ => eq_refl)
               (pillarCollisions_outcome (plane c) (pillars c)) c).
    rewrite (unchanged_by eraseOutcome planePosition _ (fun _ => eq_refl)
               (pillarCollisions_outcome (plane c) (pillars c)) c).
    exact C. }
  unfold atGroundTest. cbv zeta. fold c.
  destruct b; [exact P|apply constrain_in_step, P].
Qed.

End Sync.

(** * The keyboard *)

Module Keyboard.

Lemma assignKey_same key v ks : assignKey key v ks key = v.
Proof. unfold assignKey. rewrite String.eqb_refl. reflexivity. Qed.

Lemma assignKey_other key v ks j : j <> key -> assignKey key v ks j = ks j.
Proof.
  intros N. unfold assignKey.
  destruct (String.eqb j key) eqn:E; [|reflexivity].
  apply String.eqb_eq in E. contradiction.
Qed.

Lemma keys_onKeyDown k s :
  keys (onKeyDown k s) = assignKey (toLowerCase k) true (keys s).
Proof. unfold onKeyDown. destruct (String.eqb _ _); reflexivity. Qed.

(** ** The view mode *)

Lemma updateOf_view b s :
  visible (plane (updateOf b s)) = visible (plane s) /\
  firstPersonView (updateOf b s) = firstPersonView s.
Proof.
  destruct (running s) eqn:Run; [|rewrite (updateOf_idle b s Run); split; reflexivity].
  rewrite (tail_field (fun x => visible (plane x)) b s (fun _ => eq_refl) Run).
  rewrite (tail_field firstPersonView b s (fun _ => eq_refl) Run).
  split.
  - apply (agree_on eraseKin (fun x => visible (plane x)) (fun _ => eq_refl) _ _
             (kinematics_kin s)).
  - apply (agree_on eraseKin firstPersonView (fun _ => eq_refl) _ _
             (kinematics_kin s)).
Qed.

Lemma onKeyDown_view k s :
  (toLowerCase k = "c"%string ->
     firstPersonView (onKeyDown k s) = negb (firstPersonView s) /\
     visible (plane (onKeyDown k s)) = firstPersonView s) /\
  (toLowerCase k <> "c"%string ->
     firstPersonView (onKeyDown k s) = firstPersonView s /\
     plane (onKeyDown k s) = plane s).
Proof.
  unfold onKeyDown. split.
  - intros ->. cbn. rewrite negb_involutive. split; reflexivity.
  - intros N. destruct (String.eqb _ _) eqn:E; [|split; reflexivity].
    apply String.eqb_eq in E. contradiction.
Qed.

End Keyboard.
(** * The shape of a frame *)

Module Shape.
Import Verdict Outcome.

(** A global that the obstacle functions, the barrier clamp, the kinematic
    blocks and [endGame] do not write is, when the ring is examined, as it
    was at the start of the frame. *)
Lemma atRing_kept {A} (f : State -> A) b s :
  (forall y, f (eraseWorld y) = f y) ->
  (forall y, f (eraseX y) = f y) ->
  (forall y, f (eraseKin y) = f y) ->
  (forall y, f (endGame y) = f y) ->
  f (atRing b s) = f s.
Proof.
  intros Hw Hx Hk He. unfold atRing, beforeRing, beforeEviction.
  rewrite (unchanged_by eraseWorld f _ Hw evictPillars_world).
  rewrite (unchanged_by eraseWorld f _ Hw streamPillars_world).
  rewrite checkCollisionsOf_spec.
  assert (S : f (settle b (scorePillars (kinematics s))) = f s).
  { assert (S1 : forall y, f (settle b y) = f y).
    { intros y. destruct b; cbn [settle]; [reflexivity|].
      apply (unchanged_by eraseX f _ Hx constrainToBarriers_x). }
    rewrite S1.
    rewrite (unchanged_by eraseWorld f _ Hw scorePillars_world).
    apply (agree_on eraseKin f Hk _ _ (kinematics_kin s)). }
  destruct (crashes _); [rewrite He|]; exact S.
Qed.

Lemma running_phase s : running s = true -> phase s = Playing.
Proof.
  unfold running, phase. destruct (gameOver s); [rewrite andb_false_r; discriminate|].
  destruct (gameStarted s); [reflexivity|discriminate].
Qed.

Lemma phase_running s : phase s = Playing -> running s = true.
Proof.
  unfold running, phase. destruct (gameOver s).
  - destruct (restartBtnText s); discriminate.
  - destruct (gameStarted s); [reflexivity|discriminate].
Qed.

Lemma phase_atRing b s :
  running s = true -> phase (atRing b s) = Playing \/ phase (atRing b s) = GameOver.
Proof.
  intros Run. unfold atRing, beforeRing, beforeEviction.
  rewrite (unchanged_by eraseWorld phase _ (fun _ => eq_refl) evictPillars_world).
  rewrite (unchanged_by eraseWorld phase _ (fun _ => eq_refl) streamPillars_world).
  rewrite checkCollisionsOf_spec.
  destruct (crashes _); [right; apply RingFacts.phase_endGame|left].
  apply running_phase. rewrite running_settle, running_at_check. exact Run.
Qed.

(** A frame in Playing ends in the state that reached the ring check, or
    in that state with the run ended by [endGame], or in that state with the
    level completed; the last only if the plane is inside the ring's window
    and within 6 of its centre. *)
Lemma frame_shape b s :
  running s = true ->
  updateOf b s = atRing b s \/
  updateOf b s = endGame (atRing b s) \/
  (updateOf b s = completeLevelOf b (atRing b s) /\
   exists ring, goldenRing s = Some ring /\
     inRingWindow (vz (position (plane (atRing b s)))) ring = true /\
     sqrt_leb (planarDistSq (plane (atRing b s)) ring) 6 = true).
Proof.
  intros Run. rewrite (RingFacts.updateOf_ring b s Run).
  pose proof (RingFacts.atRing_goldenRing b s) as G.
  set (a := atRing b s) in *.
  destruct (goldenRing s) as [ring|].
  - unfold ringCheck. rewrite G.
    destruct (inRingWindow _ ring) eqn:W.
    + destruct (sqrt_leb _ 6) eqn:L6.
      * right. right. split; [|exists ring; auto].
        apply (RingFacts.flewPastCheck_in_window _ ring).
        -- rewrite (agree_on eraseOutcome goldenRing (fun _ => eq_refl) _ a
                      (completeLevelOf_outcome b a)). exact G.
        -- rewrite (agree_on eraseOutcome plane (fun _ => eq_refl) _ a
                      (completeLevelOf_outcome b a)). exact W.
      * destruct (_ && _).
        -- right. left. apply (RingFacts.flewPastCheck_in_window _ ring); assumption.
        -- left. apply (RingFacts.flewPastCheck_in_window _ ring); assumption.
    + unfold flewPastCheck. rewrite G.
      destruct (Qltb _ _); [right; left|left]; reflexivity.
  - left. unfold flewPastCheck, ringCheck. rewrite G, G. reflexivity.
Qed.

End Shape.

(** * The level table and the level being played *)

Module LevelTable.
Import Shape.

(** ** [LEVELS[i].unlocked = true] *)

Lemma unlockAt_numbers i : forall ls,
  map level_number (unlockAt i ls) = map level_number ls.
Proof.
  induction i as [|i IH]; intros [|l ls]; cbn [unlockAt map]; try reflexivity.
  rewrite IH. reflexivity.
Qed.

Lemma unlockAt_distances i : forall ls,
  map level_distance (unlockAt i ls) = map level_distance ls.
Proof.
  induction i as [|i IH]; intros [|l ls]; cbn [unlockAt map]; try reflexivity.
  rewrite IH. reflexivity.
Qed.

Lemma unlockAt_beyond i : forall ls,
  (List.length ls <= i)%nat -> unlockAt i ls = ls.
Proof.
  induction i as [|i IH]; intros [|l ls] H; cbn [unlockAt List.length] in *;
    try reflexivity; try lia.
  rewrite IH by lia. reflexivity.
Qed.

Lemma unlockedAt_unlockAt n : forall i ls,
  unlockedAt i (unlockAt n ls)
  = unlockedAt i ls || ((i =? n)%nat && (i <? List.length ls)%nat).
Proof.
  unfold unlockedAt.
  induction n as [|n IH]; intros i [|l ls]; cbn [unlockAt List.length].
  - destruct i; cbn; rewrite ?andb_false_r; reflexivity.
  - destruct i as [|i]; cbn [nth_error level_unlocked Nat.eqb].
    + rewrite orb_true_r. reflexivity.
    + rewrite orb_false_r. reflexivity.
  - destruct i; cbn; rewrite ?andb_false_r; reflexivity.
  - destruct i as [|i]; cbn [nth_error Nat.eqb].
    + cbn. rewrite orb_false_r. reflexivity.
    + rewrite IH. reflexivity.
Qed.

Lemma LEVELS_completeLevelCommon s :
  (0 <= currentLevel s)%Z ->
  LEVELS (completeLevelCommon s)
  = unlockAt (Z.to_nat (currentLevel s)) (LEVELS s).
Proof.
  intros H. unfold completeLevelCommon.
  change (LEVELS_length (set_gameStarted false (set_gameOver true s)))
    with (LEVELS_length s).
  change (currentLevel (set_gameStarted false (set_gameOver true s)))
    with (currentLevel s).
  destruct (currentLevel s <? LEVELS_length s)%Z eqn:E; cbn; [reflexivity|].
  symmetry. apply unlockAt_beyond. apply Z.ltb_ge in E.
  unfold LEVELS_length in E. lia.
Qed.

Lemma LEVELS_completeLevelOf b s :
  (0 <= currentLevel s)%Z ->
  LEVELS (completeLevelOf b s)
  = unlockAt (Z.to_nat (currentLevel s)) (LEVELS s).
Proof.
  intros H. destruct b; cbn [completeLevelOf];
    [|apply (LEVELS_completeLevelCommon s H)].
  unfold Plain.completeLevel. cbv zeta.
  destruct (_ <? _)%Z; [|apply (LEVELS_completeLevelCommon s H)].
  assert (T : forall n y, LEVELS (set_timers n y) = LEVELS y) by reflexivity.
  rewrite T. apply (LEVELS_completeLevelCommon s H).
Qed.

(** ** The table over a frame *)

Lemma atRing_session b s :
  LEVELS (atRing b s) = LEVELS s /\ currentLevel (atRing b s) = currentLevel s.
Proof.
  split.
  - apply (atRing_kept LEVELS b s); reflexivity.
  - apply (atRing_kept currentLevel b s); reflexivity.
Qed.

Lemma frame_LEVELS b s :
  running s = true ->
  (phase (updateOf b s) <> LevelComplete /\ LEVELS (updateOf b s) = LEVELS s) \/
  (phase (updateOf b s) = LevelComplete /\
   LEVELS (updateOf b s) = LEVELS (completeLevelOf b (atRing b s))).
Proof.
  intros Run. destruct (atRing_session b s) as [L _].
  destruct (frame_shape b s Run) as [E|[E|[E _]]]; rewrite E.
  - left. split; [|exact L].
    destruct (phase_atRing b s Run) as [-> | ->]; discriminate.
  - left. split; [discriminate|]. rewrite <- L. reflexivity.
  - right. split; [apply RingFacts.phase_completeLevelOf|reflexivity].
Qed.

Lemma updateOf_LEVELS b s :
  (0 <= currentLevel s)%Z ->
  LEVELS (updateOf b s) = LEVELS s \/
  LEVELS (updateOf b s) = unlockAt (Z.to_nat (currentLevel s)) (LEVELS s).
Proof.
  intros H. destruct (running s) eqn:Run;
    [|rewrite (updateOf_idle b s Run); left; reflexivity].
  destruct (atRing_session b s) as [L C].
  destruct (frame_LEVELS b s Run) as [[_ E]|[_ E]]; [left; exact E|right].
  rewrite E, LEVELS_completeLevelOf, C, L by (rewrite C; exact H). reflexivity.
Qed.

(** ** The table and the other handlers *)

Lemma step_LEVELS b e s s' :
  stepOf b e s = Some s' -> e <> Frame -> LEVELS s' = LEVELS s.
Proof.
  intros H NF.
  destruct e as [ |k|k| | | |n| |ok];
    try (destruct (step_session b _ s s' H) as [E|E];
         [discriminate|intros; discriminate| |];
         apply (agree_on eraseSession LEVELS (fun _ => eq_refl) _ _ E)).
  - congruence.
  - destruct b; injection H as <-; unfold onKeyDown;
      destruct (String.eqb _ _); reflexivity.
Qed.

Lemma LEVELS_completeLevelOf_cases b s :
  LEVELS (completeLevelOf b s) = LEVELS s \/
  LEVELS (completeLevelOf b s) = unlockAt (Z.to_nat (currentLevel s)) (LEVELS s).
Proof.
  assert (C : LEVELS (completeLevelCommon s) = LEVELS s \/
              LEVELS (completeLevelCommon s)
              = unlockAt (Z.to_nat (currentLevel s)) (LEVELS s)).
  { unfold completeLevelCommon.
    change (LEVELS_length (set_gameStarted false (set_gameOver true s)))
      with (LEVELS_length s).
    change (currentLevel (set_gameStarted false (set_gameOver true s)))
      with (currentLevel s).
    destruct (currentLevel s <? LEVELS_length s)%Z; [right|left]; reflexivity. }
  destruct b; cbn [completeLevelOf]; [|exact C].
  unfold Plain.completeLevel. cbv zeta.
  destruct (_ <? _)%Z; [|exact C].
  assert (T : forall n y, LEVELS (set_timers n y) = LEVELS y) by reflexivity.
  rewrite T. exact C.
Qed.

Lemma step_keeps_unlocked b e s s' i :
  stepOf b e s = Some s' ->
  unlockedAt i (LEVELS s) = true -> unlockedAt i (LEVELS s') = true.
Proof.
  intros H U.
  assert (D : e = Frame \/ e <> Frame) by (destruct e; auto; right; discriminate).
  destruct D as [-> | NF]; [|rewrite (step_LEVELS b e s s' H NF); exact U].
  assert (E : s' = updateOf b s) by (destruct b; injection H as <-; reflexivity).
  rewrite E. destruct (running s) eqn:Run;
    [|rewrite (updateOf_idle b s Run); exact U].
  destruct (atRing_session b s) as [L C].
  destruct (frame_LEVELS b s Run) as [[_ ->]|[_ ->]]; [exact U|].
  destruct (LEVELS_completeLevelOf_cases b (atRing b s)) as [-> | ->];
    rewrite L; [exact U|].
  rewrite unlockedAt_unlockAt, U. reflexivity.
Qed.

(** X5.  A level once unlocked stays unlocked; only a frame that completes a
    level unlocks one, and it unlocks the level after the one played and no
    other.  Along any sequence of events from any state, an unlocked entry
    of [LEVELS] stays unlocked; no handler other than the frame writes the
    table; a frame in Playing that does not end in LevelComplete leaves the
    table as it is; and after one that does, the entry of index i is
    unlocked exactly if it was before or i is [currentLevel] (the index of
    the next level) and such an entry exists.  Both builds. *)
Theorem unlocking (b : Build) :
  (forall es s s' i, run b es s = Some s' ->
     unlockedAt i (LEVELS s) = true -> unlockedAt i (LEVELS s') = true) /\
  (forall e s s', stepOf b e s = Some s' -> e <> Frame -> LEVELS s' = LEVELS s) /\
  (forall s, running s = true -> phase (updateOf b s) <> LevelComplete ->
     LEVELS (updateOf b s) = LEVELS s) /\
  (forall s i, running s = true -> (0 <= currentLevel s)%Z ->
     phase (updateOf b s) = LevelComplete ->
     unlockedAt i (LEVELS (updateOf b s))
     = unlockedAt i (LEVELS s) ||
       ((Z.of_nat i =? currentLevel s)%Z && (i <? List.length (LEVELS s))%nat)).
Proof.
  split.
  { intros es s s' i H U.
    apply (run_invariant (fun x => unlockedAt i (LEVELS x) = true) b)
      with (es := es) (s := s); [|exact U|exact H].
    intros e x x' Hx Hstep. apply (step_keeps_unlocked b e x x' i Hstep Hx). }
  split; [exact (step_LEVELS b)|].
  split.
  { intros s Run NC.
    destruct (frame_LEVELS b s Run) as [[_ E]|[C _]]; [exact E|contradiction]. }
  intros s i Run H C.
  destruct (atRing_session b s) as [L Cl].
  destruct (frame_LEVELS b s Run) as [[NC _]|[_ E]]; [contradiction|].
  rewrite E, LEVELS_completeLevelOf, Cl, L by (rewrite Cl; exact H).
  rewrite unlockedAt_unlockAt. f_equal. f_equal.
  destruct (Z.eqb_spec (Z.of_nat i) (currentLevel s)) as [Q|Q];
    destruct (Nat.eqb_spec i (Z.to_nat (currentLevel s))) as [R|R];
    try reflexivity; lia.
Qed.

(** ** The level being played *)

Lemma levelKept_same s s' :
  LEVELS s' = LEVELS s -> levelOf s' = levelOf s -> levelKept s -> levelKept s'.
Proof.
  intros L V (l & K & D). destruct (Levels.levelOf_eq _ _ V) as [C D'].
  exists l. rewrite C, D', L. auto.
Qed.

Lemma lookup_unlockAt n i ls l :
  lookupLevel i ls = Some l ->
  exists l', lookupLevel i (unlockAt n ls) = Some l' /\
             level_distance l' = level_distance l.
Proof.
  unfold lookupLevel. destruct (i <? 0)%Z; [discriminate|].
  generalize (Z.to_nat i). clear i. revert ls.
  induction n as [|n IH]; intros [|x ls] i H; cbn [unlockAt].
  - destruct i; discriminate.
  - destruct i as [|i]; cbn [nth_error] in *.
    + injection H as <-. eexists. split; reflexivity.
    + exists l. auto.
  - destruct i; discriminate.
  - destruct i as [|i]; cbn [nth_error] in *.
    + exists l. auto.
    + apply (IH ls i H).
Qed.

Lemma frame_levelKept b s : levelKept s -> levelKept (updateOf b s).
Proof.
  intros (l & K & D).
  destruct (Levels.levelOf_eq _ _ (Levels.updateOf_levelOf b s)) as [C D'].
  assert (H : (0 <= currentLevel s)%Z).
  { unfold lookupLevel in K. destruct (currentLevel s - 1 <? 0)%Z eqn:E;
      [discriminate|]. apply Z.ltb_ge in E. lia. }
  unfold levelKept. rewrite C, D'.
  destruct (updateOf_LEVELS b s H) as [-> | ->]; [exists l; auto|].
  destruct (lookup_unlockAt (Z.to_nat (currentLevel s)) _ _ _ K) as (l' & K' & E).
  exists l'. rewrite E. auto.
Qed.

Lemma step_levelKept b e s s' :
  stepOf b e s = Some s' -> levelKept s -> levelKept s'.
Proof.
  intros H K.
  destruct e as [ |k|k| | | |n| |ok].
  - assert (E : s' = updateOf b s) by (destruct b; injection H as <-; reflexivity).
    rewrite E. apply frame_levelKept, K.
  - apply (levelKept_same s); [apply (step_LEVELS b _ s s' H); discriminate| |exact K].
    destruct b; injection H as <-; apply Levels.onKeyDown_levelOf.
  - apply (levelKept_same s); [apply (step_LEVELS b _ s s' H); discriminate| |exact K].
    destruct b; injection H as <-; reflexivity.
  - apply (levelKept_same s); [apply (step_LEVELS b _ s s' H); discriminate| |exact K].
    destruct b; injection H as <-; reflexivity.
  - destruct b; cbn [stepOf Plain.step Themed.step] in H.
    + injection H as <-.
      apply (levelKept_same s); [|apply Levels.plain_restartGame_session|exact K].
      apply (step_LEVELS PlainBuild ClickRestart s); [reflexivity|discriminate].
    + pose proof (step_LEVELS ThemedBuild ClickRestart s s' H ltac:(discriminate)) as L.
      unfold Themed.restartGame in H.
      destruct (restartBtnText s).
      * injection H as <-. apply (levelKept_same s); [reflexivity|reflexivity|exact K].
      * destruct (_ <? _)%Z.
        -- destruct (lookupLevel _ _) as [level|] eqn:Lk; [|discriminate].
           injection H as <-. exists level. split; [exact Lk|reflexivity].
        -- injection H as <-.
           apply (levelKept_same s); [reflexivity|reflexivity|exact K].
  - apply (levelKept_same s); [apply (step_LEVELS b _ s s' H); discriminate| |exact K].
    destruct b; injection H as <-; reflexivity.
  - pose proof (step_LEVELS b (ClickLevel n) s s' H ltac:(discriminate)) as L.
    destruct b; cbn [stepOf Plain.step Themed.step] in H;
      unfold Plain.selectLevel, Themed.selectLevel, Themed.selectLevelWith in H;
      (destruct (lookupLevel _ _) as [level|] eqn:Lk; [|discriminate]);
      match type of H with context [if ?c then _ else _] => destruct c end;
      injection H as <-;
      first [apply (levelKept_same s); [reflexivity|reflexivity|exact K]
            |exists level; split; [exact Lk|reflexivity]].
  - destruct b; cbn [stepOf Plain.step Themed.step] in H; [|discriminate].
    destruct (timers s) as [|m] eqn:T; [discriminate|].
    unfold Plain.autoAdvance in H.
    destruct (lookupLevel _ _) as [level|] eqn:Lk; [|discriminate].
    injection H as <-.
    set (x := set_levelDistance _ _).
    apply (levelKept_same x);
      [|apply Levels.plain_restartGame_session|exists level; split; [exact Lk|reflexivity]].
    apply (step_LEVELS PlainBuild ClickRestart x); [reflexivity|discriminate].
  - apply (levelKept_same s); [apply (step_LEVELS b _ s s' H); discriminate| |exact K].
    destruct b; cbn [stepOf Plain.step Themed.step] in H; [discriminate|].
    destruct (loads s) as [|m]; [discriminate|].
    injection H as <-. rewrite Levels.themed_towerLoaded_levelOf. reflexivity.
Qed.

Lemma step_tableShape b e s s' :
  stepOf b e s = Some s' -> (0 <= currentLevel s)%Z ->
  tableShape (LEVELS s) -> tableShape (LEVELS s').
Proof.
  intros H C T.
  assert (D : e = Frame \/ e <> Frame) by (destruct e; auto; right; discriminate).
  destruct D as [-> | NF]; [|rewrite (step_LEVELS b e s s' H NF); exact T].
  assert (E : s' = updateOf b s) by (destruct b; injection H as <-; reflexivity).
  rewrite E. destruct (updateOf_LEVELS b s C) as [-> | ->]; [exact T|].
  unfold tableShape. rewrite unlockAt_numbers, unlockAt_distances. exact T.
Qed.

Lemma levelKept_nonneg s : levelKept s -> (1 <= currentLevel s)%Z.
Proof.
  intros (l & K & _). unfold lookupLevel in K.
  destruct (currentLevel s - 1 <? 0)%Z eqn:E; [discriminate|].
  apply Z.ltb_ge in E. lia.
Qed.

(** What every reachable state satisfies. *)
Lemma reachable_table b rnd es s :
  run b es (initOf b rnd) = Some s ->
  tableShape (LEVELS s) /\ unlockedAt 0 (LEVELS s) = true /\ levelKept s.
Proof.
  apply (run_invariant
           (fun x => tableShape (LEVELS x) /\ unlockedAt 0 (LEVELS x) = true /\
                     levelKept x) b).
  - intros e x x' (T & U & K) H. split; [|split].
    + apply (step_tableShape b e x x' H); [|exact T].
      pose proof (levelKept_nonneg x K). lia.
    + apply (step_keeps_unlocked b e x x' 0 H U).
    + apply (step_levelKept b e x x' H K).
  - assert (L : LEVELS (initOf b rnd) = LEVELS0).
    { rewrite (agree_on eraseSession LEVELS (fun _ => eq_refl) _ _
                 (initOf_kept b rnd)). reflexivity. }
    assert (V : levelOf (initOf b rnd) = (1%Z, 3000)).
    { destruct b; cbn [initOf]; [|reflexivity].
      unfold Plain.init, Plain.generatePillars.
      assert (G : forall y, levelOf (createGoldenRing y) = levelOf y) by reflexivity.
      rewrite G, Levels.generatePillarsFrom_levelOf. reflexivity. }
    rewrite L. split; [split; reflexivity|]. split; [reflexivity|].
    exists (mkLevel 1 3000 true). unfold levelKept.
    rewrite L, (f_equal fst V : currentLevel _ = _),
      (f_equal snd V : levelDistance _ = _). split; reflexivity.
Qed.

(** ** The size of the table *)

Lemma table_length ls : tableShape ls -> List.length ls = 5%nat.
Proof. intros [H _]. rewrite <- (length_map level_number), H. reflexivity. Qed.

Lemma lookupLevel_None ls i :
  List.length ls = 5%nat -> (lookupLevel i ls = None <-> ~ (0 <= i < 5)%Z).
Proof.
  intros L. unfold lookupLevel. destruct (i <? 0)%Z eqn:E.
  - apply Z.ltb_lt in E. split; [lia|reflexivity].
  - apply Z.ltb_ge in E. rewrite nth_error_None, L. lia.
Qed.

Lemma level_range s :
  tableShape (LEVELS s) -> levelKept s -> (1 <= currentLevel s <= 5)%Z.
Proof.
  intros T (l & K & _).
  destruct (lookupLevel (currentLevel s - 1) (LEVELS s)) eqn:E; [|discriminate].
  assert (N : lookupLevel (currentLevel s - 1) (LEVELS s) <> None) by congruence.
  rewrite (lookupLevel_None _ _ (table_length _ T)) in N. lia.
Qed.

End LevelTable.
(** * Crossing the ring's window *)

Module RingSkip.
Import Shape.

Lemma atRing_planeZ b s :
  running s = true ->
  vz (position (plane (atRing b s))) = vz (planePosition s) + speed (throttle s).
Proof.
  intros Run. rewrite <- (RingFacts.updateOf_plane_atRing b s Run).
  change (vz (position (plane (updateOf b s)))) with (planeZ (updateOf b s)).
  rewrite (Obstacles.updateOf_planeZ b s Run). unfold frameZ.
  rewrite (proj2 (proj2 (kinematics_plane s))).
  apply (proj1 (Sync.kinematics_forward s)).
Qed.

Lemma updateOf_forward b s :
  running s = true ->
  vz (planePosition (updateOf b s)) = vz (planePosition s) + speed (throttle s).
Proof.
  intros Run.
  rewrite (tail_field (fun x => vz (planePosition x)) b s (fun _ => eq_refl) Run).
  apply (proj1 (Sync.kinematics_forward s)).
Qed.

Lemma updateOf_goldenRing b s : goldenRing (updateOf b s) = goldenRing s.
Proof.
  destruct (running s) eqn:Run; [|rewrite (updateOf_idle b s Run); reflexivity].
  rewrite (tail_field goldenRing b s (fun _ => eq_refl) Run).
  apply kinematics_goldenRing.
Qed.

(** With the plane beyond the window, a frame does not complete the
    level. *)
Lemma beyond_window_frame b s ring :
  running s = true -> goldenRing s = Some ring ->
  ring_zPosition ring + 2 < vz (planePosition s) + speed (throttle s) ->
  LEVELS (updateOf b s) = LEVELS s /\ phase (updateOf b s) <> LevelComplete.
Proof.
  intros Run G Z.
  destruct (LevelTable.atRing_session b s) as [L _].
  destruct (frame_shape b s Run) as [E|[E|[_ (r & G' & W & _)]]].
  - rewrite E. split; [exact L|].
    destruct (phase_atRing b s Run) as [-> | ->]; discriminate.
  - rewrite E. split; [exact L|discriminate].
  - exfalso. rewrite G in G'. injection G' as <-.
    rewrite (atRing_planeZ b s Run) in W.
    unfold inRingWindow in W. apply andb_true_iff in W as [_ W].
    apply Qle_bool_iff in W. lra.
Qed.

(** The same for a whole flight. *)
Lemma beyond_window_flight b ring tbl : forall es s,
  forallb flying es = true ->
  goldenRing s = Some ring ->
  ring_zPosition ring + 2 < vz (planePosition s) ->
  MIN_SPEED <= speed s <= MAX_SPEED ->
  LEVELS s = tbl -> phase s <> LevelComplete ->
  exists s', run b es s = Some s' /\ LEVELS s' = tbl /\ phase s' <> LevelComplete.
Proof.
  induction es as [|e es IH]; intros s F G Z V L P; cbn [run].
  - exists s. auto.
  - cbn [forallb] in F. apply andb_true_iff in F as [Fe F].
    destruct e as [ |k|k| | | |n| |ok]; try discriminate.
    + assert (E : stepOf b Frame s = Some (updateOf b s)) by (destruct b; reflexivity).
      rewrite E.
      destruct (running s) eqn:Run;
        [|rewrite (updateOf_idle b s Run); apply (IH s F G Z V L P)].
      pose proof (Kinematics.throttle_bounds s V) as V'.
      assert (Z' : ring_zPosition ring + 2 < vz (planePosition s) + speed (throttle s)).
      { unfold MIN_SPEED in V'. lra. }
      destruct (beyond_window_frame b s ring Run G Z') as [L' P'].
      apply IH; [exact F| | | | |exact P'].
      * rewrite updateOf_goldenRing. exact G.
      * rewrite (updateOf_forward b s Run). exact Z'.
      * rewrite (updateOf_speed b s Run). exact V'.
      * rewrite L'. exact L.
    + assert (E : stepOf b (KeyDown k) s = Some (onKeyDown k s))
        by (destruct b; reflexivity).
      rewrite E.
      assert (K : goldenRing (onKeyDown k s) = goldenRing s /\
                  planePosition (onKeyDown k s) = planePosition s /\
                  speed (onKeyDown k s) = speed s /\
                  LEVELS (onKeyDown k s) = LEVELS s /\
                  phase (onKeyDown k s) = phase s).
      { unfold onKeyDown. destruct (String.eqb _ _); repeat split. }
      destruct K as (K1 & K2 & K3 & K4 & K5).
      apply IH; rewrite ?K1, ?K2, ?K3, ?K4, ?K5; assumption.
    + assert (E : stepOf b (KeyUp k) s = Some (onKeyUp k s))
        by (destruct b; reflexivity).
      rewrite E. apply IH; assumption.
Qed.

(** X8.  The ring's window is 4 deep (z within 2 of the ring) and the speed may
    reach 5.  A frame in Playing that starts with the plane before the
    window and moves it by more than the distance to the window's far side
    (possible only with a speed above 4) does not examine the ring at
    any position of the plane inside the window, and from then on no
    sequence of frames and key events completes the level, wherever the
    plane is steered: the level table is unchanged and the phase is never
    LevelComplete.  Both builds. *)
Theorem ring_jumped (b : Build) (s : State) (ring : Ring) (es : list Event) :
  running s = true -> goldenRing s = Some ring ->
  MIN_SPEED <= speed s <= MAX_SPEED ->
  vz (planePosition s) < ring_zPosition ring - 2 ->
  ring_zPosition ring + 2 < vz (planePosition s) + speed (throttle s) ->
  forallb flying es = true ->
  4 < speed (throttle s) /\
  inRingWindow (vz (position (plane (updateOf b s)))) ring = false /\
  exists s', run b (Frame :: es) s = Some s' /\
    LEVELS s' = LEVELS s /\ phase s' <> LevelComplete.
Proof.
  intros Run G V Before After F.
  split; [lra|]. split.
  { rewrite (RingFacts.updateOf_plane_atRing b s Run), (atRing_planeZ b s Run).
    unfold inRingWindow. apply andb_false_iff. right. apply Qle_bool_gt. lra. }
  cbn [run].
  assert (E : stepOf b Frame s = Some (updateOf b s)) by (destruct b; reflexivity).
  rewrite E.
  destruct (beyond_window_frame b s ring Run G After) as [L P].
  rewrite <- L.
  apply (beyond_window_flight b ring); auto.
  - rewrite updateOf_goldenRing. exact G.
  - rewrite (updateOf_forward b s Run). exact After.
  - rewrite (updateOf_speed b s Run). apply Kinematics.throttle_bounds, V.
Qed.

Lemma ring_jumped_witness :
  exists s', run PlainBuild [Frame; KeyDown "d"; Frame] fastBeforeRing = Some s' /\
    LEVELS s' = LEVELS fastBeforeRing /\ phase s' <> LevelComplete.
Proof.
  assert (Run : running fastBeforeRing = true) by (vm_compute; reflexivity).
  assert (G : goldenRing fastBeforeRing = Some Samples.ring1)
    by (vm_compute; reflexivity).
  assert (V : MIN_SPEED <= speed fastBeforeRing <= MAX_SPEED)
    by (vm_compute; split; discriminate).
  assert (Z1 : vz (planePosition fastBeforeRing) < ring_zPosition Samples.ring1 - 2)
    by (vm_compute; reflexivity).
  assert (Z2 : ring_zPosition Samples.ring1 + 2
               < vz (planePosition fastBeforeRing) + speed (throttle fastBeforeRing))
    by (vm_compute; reflexivity).
  destruct (ring_jumped PlainBuild fastBeforeRing Samples.ring1 [KeyDown "d"; Frame]
              Run G V Z1 Z2 eq_refl) as (_ & _ & E).
  exact E.
Defined.

(** X9.  At a speed of at most 4 the window cannot be jumped: a frame in
    Playing that starts with the plane before the window ends with the
    plane still before it or inside it. *)
Theorem ring_window_reached (b : Build) (s : State) (ring : Ring) :
  running s = true -> goldenRing s = Some ring ->
  speed (throttle s) <= 4 ->
  vz (planePosition s) < ring_zPosition ring - 2 ->
  let z' := vz (position (plane (updateOf b s))) in
  z' = vz (planePosition s) + speed (throttle s) /\
  (z' < ring_zPosition ring - 2 \/ inRingWindow z' ring = true).
Proof.
  intros Run G V Before z'.
  assert (Ez : z' = vz (planePosition s) + speed (throttle s)).
  { unfold z'. rewrite (RingFacts.updateOf_plane_atRing b s Run).
    apply (atRing_planeZ b s Run). }
  split; [exact Ez|]. rewrite Ez.
  destruct (Qlt_le_dec (vz (planePosition s) + speed (throttle s))
              (ring_zPosition ring - 2)) as [Lt|Ge]; [left; exact Lt|right].
  unfold inRingWindow. apply andb_true_iff.
  split; apply Qle_bool_iff; lra.
Qed.

Lemma ring_window_reached_witness :
  inRingWindow (vz (position (plane (updateOf PlainBuild slowBeforeRing))))
    Samples.ring1 = true.
Proof.
  assert (Run : running slowBeforeRing = true) by (vm_compute; reflexivity).
  assert (G : goldenRing slowBeforeRing = Some Samples.ring1)
    by (vm_compute; reflexivity).
  assert (V : speed (throttle slowBeforeRing) <= 4) by (vm_compute; discriminate).
  assert (Z1 : vz (planePosition slowBeforeRing) < ring_zPosition Samples.ring1 - 2)
    by (vm_compute; reflexivity).
  destruct (ring_window_reached PlainBuild slowBeforeRing Samples.ring1 Run G V Z1)
    as [Ez [Lt|W]]; [|exact W].
  exfalso. rewrite Ez in Lt. revert Lt. vm_compute. discriminate.
Defined.

End RingSkip.

(** * The readouts *)

Module Readouts.

Lemma reachable_counters b rnd es s :
  run b es (initOf b rnd) = Some s ->
  MIN_SPEED <= speed s <= MAX_SPEED /\ 0 <= distance s /\
  (0 <= score s)%Z /\ exists n, score s = (10 * n)%Z.
Proof.
  pose (f := fun x : State => (speed x, distance x, score x)).
  pose (P := fun v : Q * Q * Z =>
    MIN_SPEED <= fst (fst v) <= MAX_SPEED /\ 0 <= snd (fst v) /\
    (0 <= snd v)%Z /\ exists n, snd v = (10 * n)%Z).
  change (run b es (initOf b rnd) = Some s -> P (f s)).
  apply (session_invariant f P b (fun _ => eq_refl)).
  - intros x Hx.
    destruct (running x) eqn:Run; [|rewrite (updateOf_idle b x Run); exact Hx].
    destruct Hx as (V & D & S0 & n & Sn). unfold P, f in *. cbn [fst snd] in *.
    pose proof (Kinematics.throttle_bounds x V) as V'.
    rewrite (updateOf_speed b x Run).
    rewrite (tail_field distance b x (fun _ => eq_refl) Run).
    rewrite (proj2 (Sync.kinematics_forward x)).
    rewrite (Obstacles.score_of_frame b x), Sn.
    split; [exact V'|]. split; [unfold MIN_SPEED in V'; lra|].
    split; [lia|].
    exists (n + Z.of_nat (List.length (scoredInFrame x)))%Z. lia.
  - intros k x Hx. unfold f, onKeyDown. destruct (String.eqb _ _); exact Hx.
  - intros x _. unfold P, f. cbn. unfold MIN_SPEED, MAX_SPEED, INITIAL_SPEED.
    repeat split; try lra; try lia. exists 0%Z. reflexivity.
  - unfold P, f. cbn. unfold MIN_SPEED, MAX_SPEED, INITIAL_SPEED.
    repeat split; try lra; try lia. exists 0%Z. reflexivity.
Qed.

(** X11.  What [updateUI] shows in a state that either build can reach: the
    speed display (the floor of 100 times the speed) lies between 10 and
    500; the score display is a non-negative multiple of 10; the distance
    display is not negative; and the level line names [currentLevel] and a
    remaining distance between 0 and [levelDistance]. *)
Theorem readouts_in_range (b : Build) (rnd : nat -> Q) (es : list Event) (s : State) :
  run b es (initOf b rnd) = Some s ->
  let hud := updateUI s in
  (10 <= speedDisplay hud <= 500)%Z /\
  (0 <= scoreDisplay hud)%Z /\ (exists n, scoreDisplay hud = (10 * n)%Z) /\
  (0 <= distanceDisplay hud)%Z /\
  fst (levelInfo hud) = currentLevel s /\
  0 <= snd (levelInfo hud) <= levelDistance s.
Proof.
  intros H hud.
  destruct (reachable_counters b rnd es s H) as (V & D & S0 & Sn).
  destruct (LevelTable.reachable_table b rnd es s H) as ([_ Td] & _ & l & K & Ld).
  assert (L0 : 0 <= levelDistance s).
  { unfold lookupLevel in K. destruct (_ <? 0)%Z; [discriminate|].
    apply (map_nth_error level_distance) in K. apply nth_error_In in K.
    rewrite Td, <- Ld in K. cbn [In] in K.
    destruct K as [<-|[<-|[<-|[<-|[<-|[]]]]]]; lra. }
  assert (F : (0 <= Qfloor (distance s))%Z).
  { change 0%Z with (Qfloor 0). apply Qfloor_resp_le, D. }
  unfold hud, updateUI, updateLevelDisplay, Math_floor, Math_max.
  cbn [speedDisplay scoreDisplay distanceDisplay levelInfo fst snd].
  split.
  { unfold MIN_SPEED, MAX_SPEED in V. split.
    - change 10%Z with (Qfloor 10). apply Qfloor_resp_le. lra.
    - change 500%Z with (Qfloor 500). apply Qfloor_resp_le. lra. }
  split; [exact S0|]. split; [exact Sn|]. split; [exact F|].
  split; [reflexivity|].
  assert (F' : 0 <= inject_Z (Qfloor (distance s))).
  { change 0 with (inject_Z 0). rewrite <- Zle_Qle. exact F. }
  split; [apply Q.le_max_l|].
  apply Q.max_lub; lra.
Qed.

Lemma readouts_in_range_witness :
  (10 <= speedDisplay (updateUI (ticks ThemedBuild 3 Samples.themedStart)) <= 500)%Z.
Proof.
  assert (H : run ThemedBuild shortFlight (initOf ThemedBuild Samples.half)
              = Some (ticks ThemedBuild 3 Samples.themedStart))
    by (vm_compute; reflexivity).
  exact (proj1 (readouts_in_range ThemedBuild Samples.half shortFlight _ H)).
Defined.

End Readouts.
(** * The course: rows of pillars *)

Module Course.

Lemma spawnPillars_row n z : forall s,
  fair (entropy s) ->
  exists row, pillars (spawnPillars n z s) = pillars s ++ row /\
    List.length row = n /\ Forall (inRow z) row.
Proof.
  induction n as [|n IH]; intros s F; cbn [spawnPillars Math_random].
  - exists []. rewrite app_nil_r. repeat split. constructor.
  - set (x := (entropy s (draws s) - 0.5) * 80).
    destruct (IH (createPillar x z (set_draws (S (draws s)) s)) F)
      as (row & P & L & R).
    exists (mkPillar (nextId s) x z false :: row).
    split; [|split].
    + rewrite P. cbn. rewrite <- app_assoc. reflexivity.
    + cbn. rewrite L. reflexivity.
    + constructor; [|exact R].
      unfold inRow, x. cbn. pose proof (F (draws s)).
      split; [reflexivity|]. split; [lra|reflexivity].
Qed.

Lemma row_size r :
  0 <= r < 1 -> (1 <= Z.to_nat (Math_floor (r * 3) + 1) <= 3)%nat.
Proof.
  intros H. unfold Math_floor.
  assert (L : (0 <= Qfloor (r * 3))%Z).
  { change 0%Z with (Qfloor 0). apply Qfloor_resp_le. lra. }
  assert (U : (Qfloor (r * 3) < 3)%Z).
  { rewrite Zlt_Qlt. pose proof (Qfloor_le (r * 3)). change (inject_Z 3) with 3. lra. }
  lia.
Qed.

Lemma spawnRow_row z s :
  fair (entropy s) ->
  exists row, pillars (spawnRow z s) = pillars s ++ row /\
    (1 <= List.length row <= 3)%nat /\ Forall (inRow z) row /\
    entropy (spawnRow z s) = entropy s.
Proof.
  intros F. unfold spawnRow. cbn [Math_random].
  destruct (spawnPillars_row
              (Z.to_nat (Math_floor (entropy s (draws s) * 3) + 1)) z
              (set_draws (S (draws s)) s) F) as (row & P & L & R).
  exists row. split; [exact P|]. split; [rewrite L; apply row_size, F|].
  split; [exact R|].
  rewrite (unchanged_by eraseSpawn entropy _ (fun _ => eq_refl)
             (Obstacles.spawnPillars_spawn _ z)).
  reflexivity.
Qed.

Lemma inRow_eq z z' row :
  z == z' -> Forall (inRow z) row -> Forall (inRow z') row.
Proof.
  intros E. apply Forall_impl. intros p (Z & X & U).
  unfold inRow. rewrite <- E. auto.
Qed.

(** [n] rounds of the row loop, none of which the guard stops. *)
Lemma forRows_rows n : forall z hi s,
  fair (entropy s) ->
  (forall k, (k < n)%nat -> z + PILLAR_SPACING * inject_Z (Z.of_nat k) < hi) ->
  exists rws, pillars (forRows n z hi s) = pillars s ++ List.concat rws /\
    List.length rws = n /\ rowsFrom z rws.
Proof.
  induction n as [|n IH]; intros z hi s F G; cbn [forRows].
  - exists []. rewrite app_nil_r. split; [reflexivity|]. split; [reflexivity|].
    intros k row H. destruct k; discriminate.
  - assert (G0 : z < hi).
    { pose proof (G O ltac:(lia)) as H.
      change (inject_Z (Z.of_nat 0)) with 0 in H. lra. }
    rewrite (proj2 (Qltb_lt _ _) G0).
    destruct (spawnRow_row z s F) as (row & P & L & R & E).
    destruct (IH (z + PILLAR_SPACING) hi (spawnRow z s)) as (rws & P' & L' & R').
    + rewrite E. exact F.
    + intros k Hk. pose proof (G (S k) ltac:(lia)) as H.
      rewrite Nat2Z.inj_succ in H. unfold Z.succ in H.
      rewrite inject_Z_plus in H. change (inject_Z 1) with 1 in H. lra.
    + exists (row :: rws). split; [|split].
      * rewrite P', P. cbn [List.concat]. rewrite app_assoc. reflexivity.
      * cbn. rewrite L'. reflexivity.
      * intros k rw H. destruct k as [|k]; cbn [nth_error] in H.
        -- injection H as <-. split; [exact L|].
           apply (inRow_eq z); [|exact R].
           change (inject_Z (Z.of_nat 0)) with 0. lra.
        -- destruct (R' k rw H) as [Lk Rk]. split; [exact Lk|].
           apply (inRow_eq (z + PILLAR_SPACING
                            + PILLAR_SPACING * inject_Z (Z.of_nat k)));
             [|exact Rk].
           rewrite Nat2Z.inj_succ. unfold Z.succ.
           rewrite inject_Z_plus. change (inject_Z 1) with 1.
           unfold PILLAR_SPACING. lra.
Qed.

(** The guard holds in each of the [rowRounds] rounds. *)
Lemma rowRounds_guard from upto k :
  (k < rowRounds from upto)%nat ->
  from + PILLAR_SPACING * inject_Z (Z.of_nat k) < upto.
Proof.
  unfold rowRounds, PILLAR_SPACING.
  set (c := Qceiling ((upto - from) / 50)). intros H.
  assert (K : (Z.of_nat k <= c - 1)%Z) by lia.
  rewrite Zle_Qle in K.
  pose proof (Qceiling_lt ((upto - from) / 50)) as C. fold c in C.
  assert (D : upto - from == 50 * ((upto - from) / 50)) by field.
  lra.
Qed.

(** X12.  The pillars that [generatePillars] makes, with [Math.random] in
    [0, 1), started on an empty collection: they come in rows, the first at
    [first] (20 in the plain build, 60 in the themed one, which leaves the
    start of the course free), the others 50 apart, all below
    [levelDistance - 100]; the number of rows is the least number of steps
    of 50 that reaches from [first] to [levelDistance - 100]; a row has 1,
    2 or 3 pillars, all at the row's z, unpassed, with x from -40
    (included) to 40 (excluded).  Both builds. *)
Theorem generated_course (first : Q) (s : State) :
  fair (entropy s) -> pillars s = [] ->
  exists rws,
    pillars (generatePillarsFrom first s) = List.concat rws /\
    List.length rws = rowRounds first (levelDistance s - 100) /\
    rowsFrom first rws /\
    Forall (fun p => first <= zPosition p < levelDistance s - 100)
      (pillars (generatePillarsFrom first s)) /\
    Plain.generatePillars = generatePillarsFrom 20 /\
    Themed.generatePillars = generatePillarsFrom 60.
Proof.
  intros F E. unfold generatePillarsFrom, rows.
  destruct (forRows_rows (rowRounds first (levelDistance s - 100)) first
              (levelDistance s - 100) s F (rowRounds_guard _ _))
    as (rws & P & L & R).
  rewrite E in P. cbn [app] in P.
  exists rws. split; [exact P|]. split; [exact L|]. split; [exact R|].
  split; [|split; reflexivity].
  rewrite P. apply Forall_forall. intros p Hp.
  apply in_concat in Hp as (row & Hr & Hp).
  apply In_nth_error in Hr as (k & Hk).
  destruct (R k row Hk) as [_ Rk].
  rewrite Forall_forall in Rk. destruct (Rk p Hp) as (Z & _).
  assert (Kn : (k < rowRounds first (levelDistance s - 100))%nat).
  { rewrite <- L. apply nth_error_Some. congruence. }
  pose proof (rowRounds_guard _ _ _ Kn) as G.
  assert (N : 0 <= inject_Z (Z.of_nat k)).
  { change 0 with (inject_Z 0). rewrite <- Zle_Qle. lia. }
  unfold PILLAR_SPACING in *. rewrite Z. split; [lra|exact G].
Qed.

Lemma generated_course_witness :
  exists rws,
    pillars (Themed.generatePillars (globals0 Samples.half)) = List.concat rws /\
    List.length rws = 57%nat /\ rowsFrom 60 rws.
Proof.
  assert (F : fair (entropy (globals0 Samples.half))).
  { intros n. vm_compute. split; [discriminate|reflexivity]. }
  destruct (generated_course 60 (globals0 Samples.half) F eq_refl)
    as (rws & P & L & R & _).
  exists rws. split; [exact P|]. split; [|exact R].
  rewrite L. vm_compute. reflexivity.
Defined.

End Course.

(** * Pillars ahead of the plane *)

Module Supply.






End Supply.
(** * Choosing a level from the menu *)

Module MenuSelect.



End MenuSelect.

(** * The timer of the plain build and the menu *)

Module StaleTimer.

Lemma menu_then_level s m level :
  lookupLevel (m - 1) (LEVELS s) = Some level ->
  level_unlocked level = true ->
  exists s1, run PlainBuild [ClickMainMenu; ClickLevel m] s = Some s1 /\
    phase s1 = Playing /\ currentLevel s1 = m /\ timers s1 = timers s /\
    LEVELS s1 = LEVELS s.
Proof.
  intros L U.
  cbn [run stepOf Plain.step]. unfold Plain.selectLevel.
  change (LEVELS (returnToMainMenu s)) with (LEVELS s). rewrite L, U. cbn [negb].
  eexists. split; [reflexivity|]. repeat split.
Qed.

Lemma timer_resets s1 s2 :
  Plain.step TimerFires s1 = Some s2 -> runView s2 = startRun.
Proof.
  cbn [Plain.step]. destruct (timers s1); [discriminate|].
  unfold Plain.autoAdvance. cbv zeta.
  destruct (lookupLevel _ _); [|discriminate]. intros [= <-].
  rewrite (agree_on eraseSession runView (fun _ => eq_refl) _ _
             (plain_restartGame_kept _)).
  vm_compute. reflexivity.
Qed.

Lemma timer_fires s1 n m :
  timers s1 = S n -> currentLevel s1 = m ->
  match lookupLevel m (LEVELS s1) with
  | Some next =>
      exists s2, Plain.step TimerFires s1 = Some s2 /\
        phase s2 = Playing /\ currentLevel s2 = (m + 1)%Z /\
        levelDistance s2 = level_distance next /\
        runView s2 = startRun /\ LEVELS s2 = LEVELS s1 /\ timers s2 = n
  | None => Plain.step TimerFires s1 = None
  end.
Proof.
  intros T1 C1.
  destruct (lookupLevel m (LEVELS s1)) as [next|] eqn:N.
  - assert (N1 : lookupLevel (currentLevel s1) (LEVELS s1) = Some next).
    { rewrite C1. exact N. }
    destruct (Levels.plain_timer_advances s1 n next T1 N1)
      as (s2 & St & C2 & D2 & P2 & T2).
    exists s2. split; [exact St|]. split; [exact P2|].
    split; [rewrite C2, C1; reflexivity|]. split; [exact D2|].
    split; [|split; [|exact T2]].
    + apply (timer_resets s1 s2 St).
    + apply (LevelTable.step_LEVELS PlainBuild TimerFires s1 s2 St). discriminate.
  - cbn [Plain.step]. rewrite T1. unfold Plain.autoAdvance.
    cbn [currentLevel set_currentLevel set_gameOverHidden set_timers LEVELS].
    rewrite C1. replace (m + 1 - 1)%Z with m by lia. rewrite N. reflexivity.
Qed.

(** X15.  The timer that [completeLevel] of the plain build sets is not
    cancelled by anything.  With one pending, going back to the menu and
    starting an unlocked level m leaves it pending; and when it fires
    during that run it advances from the level now being played: if an
    entry for level m + 1 exists, that level is started from the beginning
    (locked or not, the table is not consulted nor changed); if m is the
    last level, the callback reads the distance of an entry that does not
    exist and fails. *)
Theorem timer_outlives_menu (s : State) (n : nat) (m : Z) (level : Level) :
  timers s = S n ->
  lookupLevel (m - 1) (LEVELS s) = Some level ->
  level_unlocked level = true ->
  exists s1, run PlainBuild [ClickMainMenu; ClickLevel m] s = Some s1 /\
    phase s1 = Playing /\ currentLevel s1 = m /\ timers s1 = S n /\
    match lookupLevel m (LEVELS s) with
    | Some next =>
        exists s2, Plain.step TimerFires s1 = Some s2 /\
          phase s2 = Playing /\ currentLevel s2 = (m + 1)%Z /\
          levelDistance s2 = level_distance next /\
          runView s2 = startRun /\ LEVELS s2 = LEVELS s /\ timers s2 = n
    | None => Plain.step TimerFires s1 = None
    end.
Proof.
  intros T L U.
  destruct (menu_then_level s m level L U) as (s1 & R & P1 & C1 & T1 & L1).
  exists s1. split; [exact R|]. split; [exact P1|]. split; [exact C1|].
  rewrite T in T1. split; [exact T1|].
  rewrite <- L1. apply (timer_fires s1 n m T1 C1).
Qed.

Lemma timer_outlives_menu_witness :
  exists s2,
    run PlainBuild [ClickMainMenu; ClickLevel 2; TimerFires] Samples.levelDone = Some s2 /\
    phase s2 = Playing /\ currentLevel s2 = 3%Z /\
    unlockedAt 2 (LEVELS s2) = false.
Proof.
  assert (T : timers Samples.levelDone = 1%nat) by (vm_compute; reflexivity).
  assert (L : lookupLevel (2 - 1) (LEVELS Samples.levelDone)
              = Some (mkLevel 2 6000 true)) by (vm_compute; reflexivity).
  assert (N : lookupLevel 2 (LEVELS Samples.levelDone)
              = Some (mkLevel 3 9000 false)) by (vm_compute; reflexivity).
  destruct (timer_outlives_menu Samples.levelDone 0 2 _ T L eq_refl)
    as (s1 & R & _ & _ & _ & F).
  rewrite N in F. destruct F as (s2 & St & P & C & _ & _ & Lv & _).
  exists s2. split; [|split; [exact P|split; [exact C|]]].
  - change [ClickMainMenu; ClickLevel 2; TimerFires]
      with ([ClickMainMenu; ClickLevel 2] ++ [TimerFires]).
    revert R St. cbn [run app stepOf Plain.step].
    destruct (Plain.selectLevel 2 (returnToMainMenu Samples.levelDone));
      [|discriminate].
    intros [= ->] ->. reflexivity.
  - rewrite Lv. vm_compute. reflexivity.
Defined.

End StaleTimer.

(** * The end of a model load *)

Module TowerLoad.

(** X16.  The two callbacks of [loadTowerModel].  Both put the ring at
    [levelDistance] minus 50 and the barriers at -42 and 42, and leave the
    plane, the counters of the run, the phase and the level as they are.
    When the model has loaded the old pillars are dropped first: with
    [Math.random] in [0, 1) the collection afterwards consists of the new
    rows, from 60 on.  When the load has failed an alert is shown and the
    old collection is not cleared: the new rows are added behind the
    pillars that were there. *)
Theorem tower_load_outcomes (s : State) :
  (forall ok,
     goldenRing (Themed.towerLoaded ok s) = Some (ringFor (levelDistance s)) /\
     barriers (Themed.towerLoaded ok s) = [- (42); 42] /\
     runView (Themed.towerLoaded ok s) = runView s /\
     phase (Themed.towerLoaded ok s) = phase s /\
     levelOf (Themed.towerLoaded ok s) = levelOf s) /\
  (alerts (Themed.towerLoaded true s) = alerts s /\
   (fair (entropy s) ->
    exists rws, pillars (Themed.towerLoaded true s) = List.concat rws /\
      List.length rws = rowRounds 60 (levelDistance s - 100) /\
      rowsFrom 60 rws)) /\
  (alerts (Themed.towerLoaded false s) = alerts s ++ [TowerModelFailedAlert] /\
   (fair (entropy s) ->
    exists rws, pillars (Themed.towerLoaded false s) = pillars s ++ List.concat rws /\
      List.length rws = rowRounds 60 (levelDistance s - 100) /\
      rowsFrom 60 rws)).
Proof.
  assert (A : forall (f : State -> list Alert) y,
            (forall x, f (eraseSpawn x) = f x) ->
            f (generatePillarsFrom 60 y) = f y).
  { intros f y Hf.
    apply (unchanged_by eraseSpawn f _ Hf (generatePillarsFrom_spawn 60)). }
  split; [|split].
  - intros ok.
    assert (G : goldenRing (Themed.towerLoaded ok s) = Some (ringFor (levelDistance s))).
    { unfold Themed.towerLoaded, Themed.generatePillars. cbv zeta.
      assert (R : forall y, goldenRing (createGoldenRing (Themed.createBarriers y))
                            = Some (ringFor (levelDistance y))) by reflexivity.
      destruct ok; rewrite R;
        rewrite (unchanged_by eraseSpawn levelDistance _ (fun _ => eq_refl)
                   (generatePillarsFrom_spawn 60)); reflexivity. }
    split; [exact G|].
    split; [unfold Themed.towerLoaded; destruct ok; reflexivity|].
    split.
    { rewrite (agree_on eraseSession runView (fun _ => eq_refl) _ _
                 (themed_towerLoaded_kept ok s)). reflexivity. }
    split; [|apply Levels.themed_towerLoaded_levelOf].
    unfold Themed.towerLoaded, Themed.generatePillars. cbv zeta.
    assert (P : forall y, phase (createGoldenRing (Themed.createBarriers y)) = phase y)
      by reflexivity.
    destruct ok; rewrite P, Levels.generatePillarsFrom_phase; reflexivity.
  - unfold Themed.towerLoaded, Themed.generatePillars. cbv zeta.
    assert (Al : forall y, alerts (createGoldenRing (Themed.createBarriers y)) = alerts y)
      by reflexivity.
    assert (Pl : forall y, pillars (createGoldenRing (Themed.createBarriers y)) = pillars y)
      by reflexivity.
    rewrite Al, Pl, (A alerts _ (fun _ => eq_refl)).
    split; [reflexivity|]. intros F.
    set (s0 := set_goldenRing None (set_barriers [] (set_pillars [] s))).
    destruct (Course.forRows_rows (rowRounds 60 (levelDistance s0 - 100)) 60
                (levelDistance s0 - 100) s0 F (Course.rowRounds_guard _ _))
      as (rws & P & L & R).
    exists rws. split; [exact P|]. split; [exact L|exact R].
  - unfold Themed.towerLoaded, Themed.generatePillars. cbv zeta.
    assert (Al : forall y, alerts (createGoldenRing (Themed.createBarriers y)) = alerts y)
      by reflexivity.
    assert (Pl : forall y, pillars (createGoldenRing (Themed.createBarriers y)) = pillars y)
      by reflexivity.
    rewrite Al, Pl, (A alerts _ (fun _ => eq_refl)).
    split; [reflexivity|]. intros F.
    set (s0 := set_alerts (alerts s ++ [TowerModelFailedAlert]) s).
    destruct (Course.forRows_rows (rowRounds 60 (levelDistance s0 - 100)) 60
                (levelDistance s0 - 100) s0 F (Course.rowRounds_guard _ _))
      as (rws & P & L & R).
    exists rws. split; [exact P|]. split; [exact L|exact R].
Qed.

End TowerLoad.
(** * The goal line when a level is completed *)

Module GoalLine.
Import Shape.

Lemma floor_ge x k : inject_Z k <= x -> (k <= Qfloor x)%Z.
Proof. intros H. rewrite <- (Qfloor_Z k). apply Qfloor_resp_le, H. Qed.

Lemma floor_le x k : x <= inject_Z k -> (Qfloor x <= k)%Z.
Proof. intros H. rewrite <- (Qfloor_Z k). apply Qfloor_resp_le, H. Qed.

(** X17.  The ring stands 50 before [levelDistance] and its window reaches 2 to
    either side.  So with the ring of the level being played in place,
    [distance] equal to the plane's z and [levelDistance] a whole number (as
    they are in every state the script can reach), a frame that ends in
    LevelComplete leaves the goal line of the display at between 48 and 52
    metres to go.  Both builds. *)
Theorem goal_line_at_completion (b : Build) (s : State) (k : Z) :
  running s = true ->
  goldenRing s = Some (ringFor (levelDistance s)) ->
  distance s = vz (planePosition s) ->
  levelDistance s = inject_Z k ->
  phase (updateOf b s) = LevelComplete ->
  fst (updateLevelDisplay (updateOf b s)) = currentLevel s /\
  48 <= snd (updateLevelDisplay (updateOf b s)) <= 52.
Proof.
  intros Run G Hd Ek C.
  destruct (Levels.levelOf_eq _ _ (Levels.updateOf_levelOf b s)) as [Cl Ld].
  unfold updateLevelDisplay. cbv zeta. cbn [fst snd]. split; [exact Cl|].
  rewrite Ld.
  assert (W : levelDistance s - 52 <= distance (updateOf b s) <= levelDistance s - 48).
  { rewrite (tail_field distance b s (fun _ => eq_refl) Run).
    rewrite (proj2 (Sync.kinematics_forward s)), Hd.
    destruct (frame_shape b s Run) as [E|[E|[_ (r & G' & W & _)]]].
    - exfalso. rewrite E in C.
      destruct (phase_atRing b s Run) as [D|D]; rewrite D in C; discriminate.
    - exfalso. rewrite E in C. discriminate.
    - rewrite G in G'. injection G' as <-.
      rewrite (RingSkip.atRing_planeZ b s Run) in W.
      unfold inRingWindow, ringFor in W. cbn [ring_zPosition] in W.
      apply andb_true_iff in W as [W1 W2].
      apply Qle_bool_iff in W1, W2. split; lra. }
  rewrite Ek in *.
  set (d := distance (updateOf b s)) in *.
  assert (F1 : (k - 52 <= Qfloor d)%Z).
  { apply floor_ge. unfold Z.sub. rewrite inject_Z_plus. exact (proj1 W). }
  assert (F2 : (Qfloor d <= k - 48)%Z).
  { apply floor_le. unfold Z.sub. rewrite inject_Z_plus. exact (proj2 W). }
  unfold Math_floor, Math_max.
  assert (R : 48 <= inject_Z k - inject_Z (Qfloor d) <= 52).
  { rewrite Zle_Qle in F1, F2. unfold Z.sub in F1, F2.
    rewrite inject_Z_plus in F1, F2.
    change (inject_Z (- (52))) with (- (52)) in F1.
    change (inject_Z (- (48))) with (- (48)) in F2. lra. }
  rewrite Q.max_r by lra. exact R.
Qed.

Lemma goal_line_at_completion_witness :
  48 <= snd (updateLevelDisplay (updateOf PlainBuild atRingDoor)) <= 52.
Proof.
  apply (goal_line_at_completion PlainBuild atRingDoor 3000);
    vm_compute; reflexivity.
Defined.

End GoalLine.

(** * From a completed level to the next *)

Module Progress.
Import Shape.

(** X18.  In the themed build, with the level table in its declared shape and a
    level before the last being played: after a frame that ends in
    LevelComplete, the restart button (which then reads "Continue") starts
    the next level, [currentLevel] and [levelDistance] are those of its
    entry, and that entry is by then unlocked; the run is back in Playing
    with the plane and the counters at their start values and the model of
    the level requested. *)
Theorem continue_plays_unlocked (s : State) :
  tableShape (LEVELS s) -> (1 <= currentLevel s < 5)%Z ->
  running s = true -> phase (Themed.update s) = LevelComplete ->
  exists s1 level,
    Themed.step ClickRestart (Themed.update s) = Some s1 /\
    lookupLevel (currentLevel s1 - 1) (LEVELS s1) = Some level /\
    level_unlocked level = true /\
    currentLevel s1 = (currentLevel s + 1)%Z /\
    levelDistance s1 = level_distance level /\
    levelDistance s1 == 3000 * inject_Z (currentLevel s1) /\
    phase s1 = Playing /\ runView s1 = startRun /\ loads s1 = S (loads s).
Proof.
  intros T C Run P.
  change (Themed.update s) with (updateOf ThemedBuild s) in *.
  set (s' := updateOf ThemedBuild s) in *.
  destruct (Levels.levelOf_eq _ _ (Levels.updateOf_levelOf ThemedBuild s)) as [Cl _].
  fold s' in Cl.
  destruct (LevelTable.atRing_session ThemedBuild s) as [La Ca].
  assert (L' : LEVELS s' = unlockAt (Z.to_nat (currentLevel s)) (LEVELS s)).
  { destruct (LevelTable.frame_LEVELS ThemedBuild s Run) as [[NC _]|[_ E]];
      [contradiction|].
    fold s' in E. rewrite E, LevelTable.LEVELS_completeLevelOf by (rewrite Ca; lia).
    rewrite Ca, La. reflexivity. }
  pose proof (LevelTable.table_length _ T) as Len.
  assert (T' : tableShape (LEVELS s')).
  { unfold tableShape. rewrite L', LevelTable.unlockAt_numbers,
      LevelTable.unlockAt_distances. exact T. }
  pose proof (LevelTable.table_length _ T') as Len'.
  destruct (lookupLevel (currentLevel s') (LEVELS s')) as [level|] eqn:K;
    [|apply (LevelTable.lookupLevel_None _ _ Len') in K; lia].
  assert (U : level_unlocked level = true).
  { pose proof (LevelTable.unlockedAt_unlockAt (Z.to_nat (currentLevel s))
                  (Z.to_nat (currentLevel s)) (LEVELS s)) as H.
    rewrite <- L', Nat.eqb_refl, Len in H.
    replace (Z.to_nat (currentLevel s) <? 5)%nat with true in H
      by (symmetry; apply Nat.ltb_lt; lia).
    rewrite orb_true_r in H. unfold unlockedAt in H.
    unfold lookupLevel in K. rewrite Cl in K.
    destruct (currentLevel s <? 0)%Z; [discriminate|].
    rewrite K in H. exact H. }
  assert (G : (currentLevel s' <? LEVELS_length s')%Z = true).
  { apply Z.ltb_lt. unfold LEVELS_length. rewrite Len'. lia. }
  destruct (Levels.themed_continue s' level P G K)
    as (s1 & St & C1 & D1 & P1 & _ & Ld).
  assert (L1 : LEVELS s1 = LEVELS s').
  { apply (LevelTable.step_LEVELS ThemedBuild ClickRestart s' s1 St). discriminate. }
  exists s1, level.
  split; [exact St|]. split.
  { rewrite C1, L1. replace (currentLevel s' + 1 - 1)%Z with (currentLevel s') by lia.
    exact K. }
  split; [exact U|]. split; [rewrite C1, Cl; reflexivity|]. split; [exact D1|].
  split.
  { rewrite D1, C1, Cl.
    destruct T' as [_ Td]. unfold lookupLevel in K. rewrite Cl in K.
    destruct (currentLevel s <? 0)%Z; [discriminate|].
    apply (map_nth_error level_distance) in K. rewrite Td in K.
    assert (E : currentLevel s = Z.of_nat (Z.to_nat (currentLevel s))) by lia.
    revert K E. generalize (Z.to_nat (currentLevel s)). intros n K E. rewrite E.
    do 5 (destruct n as [|n]; [injection K as <-; reflexivity|]).
    destruct n; discriminate. }
  split; [exact P1|]. split.
  - apply (themed_restartGame_kept s' s1) in St.
    rewrite (agree_on eraseSession runView (fun _ => eq_refl) _ _ St). reflexivity.
  - rewrite Ld. f_equal.
    unfold s'. rewrite (tail_field loads ThemedBuild s (fun _ => eq_refl) Run).
    apply (agree_on eraseKin loads (fun _ => eq_refl) _ _ (kinematics_kin s)).
Qed.

Lemma continue_plays_unlocked_witness :
  exists s1 level,
    Themed.step ClickRestart (Themed.update themedAtRingDoor) = Some s1 /\
    lookupLevel (currentLevel s1 - 1) (LEVELS s1) = Some level /\
    level_unlocked level = true /\ currentLevel s1 = 2%Z.
Proof.
  assert (T : tableShape (LEVELS themedAtRingDoor)) by (split; vm_compute; reflexivity).
  assert (C : (1 <= currentLevel themedAtRingDoor < 5)%Z)
    by (vm_compute; split; [discriminate|reflexivity]).
  assert (Run : running themedAtRingDoor = true) by (vm_compute; reflexivity).
  assert (P : phase (Themed.update themedAtRingDoor) = LevelComplete)
    by (vm_compute; reflexivity).
  destruct (continue_plays_unlocked themedAtRingDoor T C Run P)
    as (s1 & level & St & K & U & C1 & _).
  exists s1, level. split; [exact St|]. split; [exact K|]. split; [exact U|].
  rewrite C1. vm_compute. reflexivity.
Defined.

End Progress.

(** * Restarting after a lost run *)

Module Replay.

(** X19.  The restart button after a lost run (the button then reads "Restart
    Game"), or after the last level was completed: the level stays the one
    that was played, the level table is untouched, the run is back in Playing
    and the plane and the counters are at their start values.  The plain
    build makes the new pillars and the ring at once; the themed build
    empties the collection and requests the level's model, whose load will
    make them. *)
Theorem restart_replays_level (b : Build) (s : State) :
  phase s = GameOver \/
  (phase s = LevelComplete /\ (LEVELS_length s <= currentLevel s)%Z) ->
  exists s1, stepOf b ClickRestart s = Some s1 /\
    levelOf s1 = levelOf s /\ LEVELS s1 = LEVELS s /\
    phase s1 = Playing /\ runView s1 = startRun /\
    match b with
    | PlainBuild => goldenRing s1 = Some (ringFor (levelDistance s))
    | ThemedBuild => pillars s1 = [] /\ loads s1 = S (loads s)
    end.
Proof.
  intros H. destruct b; cbn [stepOf Plain.step Themed.step].
  - exists (Plain.restartGame s). split; [reflexivity|].
    destruct (Levels.plain_restartGame_session s) as (Lv & Ph & _).
    split; [exact Lv|].
    split.
    { apply (LevelTable.step_LEVELS PlainBuild ClickRestart s); [reflexivity|].
      discriminate. }
    split; [exact Ph|]. split.
    { rewrite (agree_on eraseSession runView (fun _ => eq_refl) _ _
                 (plain_restartGame_kept s)). reflexivity. }
    unfold Plain.restartGame, Plain.generatePillars. cbv zeta.
    assert (G : forall y, goldenRing (set_gameOverHidden true (createGoldenRing y))
                          = Some (ringFor (levelDistance y))) by reflexivity.
    rewrite G, (proj2 (Levels.levelOf_eq _ _ (Levels.generatePillarsFrom_levelOf 20 _))).
    reflexivity.
  - unfold Themed.restartGame.
    assert (A : restartBtnText s = RestartGameText \/
                (currentLevel s <? LEVELS_length s)%Z = false).
    { destruct H as [P|[P C]].
      - left. unfold phase in P. destruct (gameOver s).
        + destruct (restartBtnText s); [reflexivity|discriminate].
        + destruct (gameStarted s); discriminate.
      - right. apply Z.ltb_ge. exact C. }
    destruct (restartBtnText s).
    + eexists. split; [reflexivity|]. repeat split.
    + destruct A as [A|A]; [discriminate|]. rewrite A.
      eexists. split; [reflexivity|]. repeat split.
Qed.

Lemma restart_replays_level_witness :
  exists s1, stepOf ThemedBuild ClickRestart (endGame Samples.themedStart) = Some s1 /\
    levelOf s1 = (1%Z, 3000) /\ phase s1 = Playing.
Proof.
  destruct (restart_replays_level ThemedBuild (endGame Samples.themedStart)
              (or_introl eq_refl)) as (s1 & St & Lv & _ & P & _).
  exists s1. split; [exact St|]. split; [|exact P].
  rewrite Lv. vm_compute. reflexivity.
Defined.

End Replay.

(** * Every run ends *)

Module Ending.
Import Shape.

Lemma idle_frozen b n : forall s, running s = false -> ticks b n s = s.
Proof.
  induction n as [|n IH]; intros s I; cbn [ticks]; [reflexivity|].
  rewrite (updateOf_idle b s I). apply IH, I.
Qed.

(** A frame in Playing that leaves the plane more than 10 beyond the ring
    ends the run. *)
Lemma beyond_ring_ends b s ring :
  running s = true -> goldenRing s = Some ring ->
  ring_zPosition ring + 10 < vz (planePosition s) + speed (throttle s) ->
  running (updateOf b s) = false.
Proof.
  intros Run G Z. rewrite (Outcome.frame_verdict b s Run), G. cbv zeta.
  rewrite (RingFacts.updateOf_plane_atRing b s Run), (RingSkip.atRing_planeZ b s Run).
  rewrite (proj2 (Qltb_lt _ _) Z). cbn [negb]. rewrite !andb_false_r. reflexivity.
Qed.

(** X20.  No run goes on for ever once the plane model has loaded.  The speed
    never falls below [MIN_SPEED] = 0.1, so every frame in Playing moves
    the plane forward by at least 0.1, and the frame that leaves it more
    than 10 beyond the ring ends the run if nothing has before.  With a
    ring in place no further than the last level's, the plane at or beyond
    the start line and the speed inside its bounds: after n + 1 frames,
    where 0.09 * (n + 1) exceeds what separates the plane from the point 10
    beyond the ring, the run is not in Playing, whatever keys are held.
    The count allows a tenth of each step for the rounding of the sums on
    doubles.  Both builds. *)
Theorem run_ends (b : Build) (ring : Ring) (n : nat) (s : State) :
  goldenRing s = Some ring ->
  ring_zPosition ring <= 15000 ->
  0 <= vz (planePosition s) ->
  MIN_SPEED <= speed s <= MAX_SPEED ->
  ring_zPosition ring + 10
    < vz (planePosition s) + 0.09 * inject_Z (Z.of_nat (S n)) ->
  running (ticks b (S n) s) = false.
Proof.
  intros G _. revert s G. induction n as [|n IH]; intros s G P V Z.
  - cbn [ticks].
    destruct (running s) eqn:Run; [|rewrite (updateOf_idle b s Run); exact Run].
    apply (beyond_ring_ends b s ring Run G).
    pose proof (Kinematics.throttle_bounds s V) as V'. unfold MIN_SPEED in V'.
    change (inject_Z (Z.of_nat 1)) with 1 in Z. lra.
  - change (ticks b (S (S n)) s) with (ticks b (S n) (updateOf b s)).
    destruct (running s) eqn:Run.
    + pose proof (Kinematics.throttle_bounds s V) as V'.
      apply IH.
      * rewrite RingSkip.updateOf_goldenRing. exact G.
      * rewrite (RingSkip.updateOf_forward b s Run). unfold MIN_SPEED in V'. lra.
      * rewrite (updateOf_speed b s Run). exact V'.
      * rewrite (RingSkip.updateOf_forward b s Run).
        rewrite Nat2Z.inj_succ in Z. unfold Z.succ in Z.
        rewrite inject_Z_plus in Z. change (inject_Z 1) with 1 in Z.
        unfold MIN_SPEED in *. lra.
    + rewrite (updateOf_idle b s Run), (idle_frozen b (S n) s Run). exact Run.
Qed.

Lemma run_ends_witness : running (ticks PlainBuild 140 fastBeforeRing) = false.
Proof.
  apply (run_ends PlainBuild Samples.ring1 139 fastBeforeRing).
  - vm_compute. reflexivity.
  - vm_compute. discriminate.
  - vm_compute. discriminate.
  - vm_compute. split; discriminate.
  - vm_compute. reflexivity.
Defined.

(** ** Completion *)

Lemma panel_completeLevelCommon s :
  gameOverHidden (completeLevelCommon s) = false /\
  gameOverTitle (completeLevelCommon s)
  = (if (currentLevel s =? LEVELS_length s)%Z
     then AllLevelsCompleteTitle else LevelCompleteTitle).
Proof.
  unfold completeLevelCommon.
  change (LEVELS_length (set_gameStarted false (set_gameOver true s)))
    with (LEVELS_length s).
  change (currentLevel (set_gameStarted false (set_gameOver true s)))
    with (currentLevel s).
  destruct (currentLevel s <? LEVELS_length s)%Z; split; try reflexivity.
  cbn [gameOverTitle set_gameOverTitle set_restartBtnText set_gameOverHidden].
  unfold LEVELS_length. cbn [LEVELS set_LEVELS currentLevel].
  rewrite Levels.unlockAt_length. reflexivity.
Qed.

Lemma panel_completeLevelOf b s :
  gameOverHidden (completeLevelOf b s) = false /\
  gameOverTitle (completeLevelOf b s)
  = (if (currentLevel s =? LEVELS_length s)%Z
     then AllLevelsCompleteTitle else LevelCompleteTitle).
Proof.
  destruct b; cbn [completeLevelOf]; [|apply panel_completeLevelCommon].
  unfold Plain.completeLevel. cbv zeta.
  destruct (_ <? _)%Z; [|apply panel_completeLevelCommon].
  assert (T : forall n y, gameOverHidden (set_timers n y) = gameOverHidden y /\
                          gameOverTitle (set_timers n y) = gameOverTitle y)
    by (intros; split; reflexivity).
  destruct (T (S (timers (completeLevelCommon s))) (completeLevelCommon s)) as [-> ->].
  apply panel_completeLevelCommon.
Qed.

(** X21.  A level is completed only at the ring.  If a frame in Playing ends
    in LevelComplete then there is a ring and the plane is within 2 of it
    in z (the ring block is the only caller of [completeLevel], and only
    inside its window); and the panel is shown with the button reading
    "Continue" and the title "All Levels Complete!" if the level was the
    last of the table, "Level Complete!" otherwise.  Both builds. *)
Theorem completion_only_through_ring (b : Build) (s : State) :
  running s = true -> phase (updateOf b s) = LevelComplete ->
  exists ring,
    goldenRing s = Some ring /\
    goldenRing (updateOf b s) = Some ring /\
    let m := plane (updateOf b s) in
    ring_zPosition ring - 2 <= vz (position m) <= ring_zPosition ring + 2 /\
    updateOf b s = completeLevelOf b (atRing b s) /\
    restartBtnText (updateOf b s) = ContinueText /\
    gameOverHidden (updateOf b s) = false /\
    gameOverTitle (updateOf b s)
    = (if (currentLevel s =? LEVELS_length s)%Z
       then AllLevelsCompleteTitle else LevelCompleteTitle).
Proof.
  intros Run C.
  destruct (frame_shape b s Run) as [E|[E|[E (ring & G & W & D)]]].
  - exfalso. rewrite E in C.
    destruct (phase_atRing b s Run) as [P|P]; rewrite P in C; discriminate.
  - exfalso. rewrite E in C. discriminate.
  - exists ring. split; [exact G|].
    split; [rewrite RingSkip.updateOf_goldenRing; exact G|]. cbv zeta.
    rewrite (RingFacts.updateOf_plane_atRing b s Run).
    set (m := plane (atRing b s)) in *.
    assert (Wz : ring_zPosition ring - 2 <= vz (position m) <= ring_zPosition ring + 2).
    { unfold inRingWindow in W. apply andb_true_iff in W as [W1 W2].
      apply Qle_bool_iff in W1, W2. split; assumption. }
    split; [exact Wz|]. split; [exact E|].
    split; [exact (proj2 (Levels.phase_LevelComplete _ C))|].
    rewrite E. destruct (panel_completeLevelOf b (atRing b s)) as [H T].
    split; [exact H|]. rewrite T.
    destruct (LevelTable.atRing_session b s) as [L Cl].
    unfold LEVELS_length. rewrite L, Cl. reflexivity.
Qed.

Lemma completion_only_through_ring_witness :
  exists ring, goldenRing themedAtRingDoor = Some ring /\
    gameOverTitle (updateOf ThemedBuild themedAtRingDoor) = LevelCompleteTitle.
Proof.
  assert (Run : running themedAtRingDoor = true) by (vm_compute; reflexivity).
  assert (P : phase (updateOf ThemedBuild themedAtRingDoor) = LevelComplete)
    by (vm_compute; reflexivity).
  destruct (completion_only_through_ring ThemedBuild themedAtRingDoor Run P)
    as (ring & G & _ & _ & _ & _ & _ & T).
  exists ring. split; [exact G|].
  rewrite T. vm_compute. reflexivity.
Defined.

End Ending.

(** * A model load that ends during a run *)

Module LateLoad.

Lemma towerLoaded_run s :
  running (Themed.towerLoaded true s) = running s /\
  score (Themed.towerLoaded true s) = score s.
Proof.
  unfold Themed.towerLoaded, Themed.generatePillars. cbv zeta.
  assert (A : forall y, running (createGoldenRing (Themed.createBarriers y)) = running y /\
                        score (createGoldenRing (Themed.createBarriers y)) = score y)
    by (intros; split; reflexivity).
  destruct (A (generatePillarsFrom 60
                 (set_goldenRing None (set_barriers [] (set_pillars [] s)))))
    as [-> ->].
  rewrite (unchanged_by eraseSpawn running _ (fun _ => eq_refl)
             (generatePillarsFrom_spawn 60)).
  rewrite (unchanged_by eraseSpawn score _ (fun _ => eq_refl)
             (generatePillarsFrom_spawn 60)).
  split; reflexivity.
Qed.

Lemma towerLoaded_rows s :
  fair (entropy s) ->
  exists rws, pillars (Themed.towerLoaded true s) = List.concat rws /\
    List.length rws = rowRounds 60 (levelDistance s - 100) /\ rowsFrom 60 rws.
Proof.
  intros F. unfold Themed.towerLoaded, Themed.generatePillars. cbv zeta.
  assert (Pl : forall y, pillars (createGoldenRing (Themed.createBarriers y)) = pillars y)
    by reflexivity.
  rewrite Pl.
  set (s0 := set_goldenRing None (set_barriers [] (set_pillars [] s))).
  destruct (Course.forRows_rows (rowRounds 60 (levelDistance s0 - 100)) 60
              (levelDistance s0 - 100) s0 F (Course.rowRounds_guard _ _))
    as (rws & P & L & R).
  exists rws. split; [exact P|]. split; [exact L|exact R].
Qed.

(** X22.  The callback of a successful model load replaces the pillars by
    the rows of a whole new course, from z = 60 on, all unpassed, wherever
    the plane is.  If the run is in Playing, the scoring pass of the next
    frame takes every one of them that lies behind the plane for a pillar
    just passed: the score grows by 10 for each pillar of the new course
    whose z is below the plane's new z, at once; by at least 10 if the plane
    is beyond 60 and the level is longer than 160.  (With [Math.random] in
    [0, 1); themed build.) *)
Theorem late_load_scores (s : State) :
  fair (entropy s) -> running s = true ->
  let s1 := Themed.towerLoaded true s in
  let z := frameZ s1 in
  score (Themed.update s1)
  = (score s + 10 * Z.of_nat (List.length
       (filter (fun p => Qltb (zPosition p) z) (pillars s1))))%Z /\
  (60 < z -> 160 < levelDistance s -> (score s + 10 <= score (Themed.update s1))%Z).
Proof.
  intros F Run s1 z.
  destruct (towerLoaded_run s) as [R1 S1]. fold s1 in R1, S1.
  destruct (towerLoaded_rows s F) as (rws & P & L & R). fold s1 in P.
  assert (U : forall p, In p (pillars s1) -> passed p = false).
  { intros p Hp. rewrite P in Hp. apply in_concat in Hp as (row & Hr & Hp).
    apply In_nth_error in Hr as (k & Hk). destruct (R k row Hk) as [_ Rk].
    rewrite Forall_forall in Rk. apply (Rk p Hp). }
  assert (E : score (Themed.update s1)
              = (score s + 10 * Z.of_nat (List.length
                   (filter (fun p => Qltb (zPosition p) z) (pillars s1))))%Z).
  { change (Themed.update s1) with (updateOf ThemedBuild s1).
    rewrite (Obstacles.score_of_frame ThemedBuild s1), S1.
    unfold scoredInFrame. rewrite R1, Run, length_map. fold z.
    do 4 f_equal. apply filter_ext_in. intros p Hp.
    unfold justPassed. rewrite (U p Hp). reflexivity. }
  split; [exact E|]. intros Z60 L160. rewrite E.
  assert (N : (1 <= List.length
                 (filter (fun p => Qltb (zPosition p) z) (pillars s1)))%nat).
  { pose proof (rowRounds_enough 60 (levelDistance s - 100)) as Enough.
    rewrite <- L in Enough.
    destruct rws as [|row rws].
    { change (inject_Z (Z.of_nat (List.length (@nil (list Pillar))))) with 0
        in Enough.
      unfold PILLAR_SPACING in Enough. lra. }
    destruct (R O row eq_refl) as [Lr Rr].
    destruct row as [|p row]; [cbn in Lr; lia|].
    apply Forall_inv in Rr. destruct Rr as (Zp & _).
    change (inject_Z (Z.of_nat 0)) with 0 in Zp.
    assert (Hp : In p (filter (fun p => Qltb (zPosition p) z) (pillars s1))).
    { apply filter_In. split; [rewrite P; left; reflexivity|].
      apply Qltb_lt. rewrite Zp. unfold PILLAR_SPACING. lra. }
    destruct (filter _ _); [contradiction|cbn; lia]. }
  lia.
Qed.

Lemma late_load_scores_witness :
  (score midCourse + 10
   <= score (Themed.update (Themed.towerLoaded true midCourse)))%Z.
Proof.
  assert (F : fair (entropy midCourse)).
  { intros n. vm_compute. split; [discriminate|reflexivity]. }
  assert (Run : running midCourse = true) by (vm_compute; reflexivity).
  apply (proj2 (late_load_scores midCourse F Run)); vm_compute; reflexivity.
Defined.

End LateLoad.

(** * The order of doubles *)

Module FloatOrderFacts.
Import SpecFloat FloatAxioms FloatOrder.
Local Open Scope Z_scope.

Lemma SFcompare_key f g :
  SFcompare f g =
    match key f, key g with
    | Some a, Some b => Some (lex a b)
    | _, _ => None
    end.
Proof.
  destruct f as [sf|sf| |sf mf ef], g as [sg|sg| |sg mg eg]; cbn [SFcompare key];
    try reflexivity;
    try (destruct sf; reflexivity); try (destruct sg; reflexivity);
    try (destruct sf, sg; reflexivity).
  change (Pos.compare_cont Eq mf mg) with (Zpos mf ?= Zpos mg).
  destruct sf, sg; cbn [lex]; try reflexivity;
    repeat match goal with
    | |- context [(?a ?= ?b)%Z] => destruct (Z.compare_spec a b)
    end; cbn [CompOpp]; try reflexivity; try discriminate; lia.
Qed.

Ltac float_order :=
  intros;
  repeat match goal with
  | H : context [PrimFloat.leb _ _] |- _ => rewrite leb_spec in H
  | H : context [PrimFloat.ltb _ _] |- _ => rewrite ltb_spec in H
  end;
  rewrite ?leb_spec, ?ltb_spec;
  unfold SFleb, SFltb in *; rewrite !SFcompare_key in *;
  repeat match goal with
  | H : context [key ?f] |- _ => destruct (key f) as [[[? ?] ?]|]
  | |- context [key ?f] => destruct (key f) as [[[? ?] ?]|]
  end;
  cbn [lex] in *;
  repeat match goal with
  | H : context [(?a ?= ?b)%Z] |- _ => destruct (Z.compare_spec a b)
  | |- context [(?a ?= ?b)%Z] => destruct (Z.compare_spec a b)
  end;
  try discriminate; try reflexivity; try lia.

Lemma leb_ltb_trans a b c :
  PrimFloat.leb a b = true -> PrimFloat.ltb b c = true -> PrimFloat.ltb a c = true.
Proof. float_order. Qed.







End FloatOrderFacts.

(** * The ring on doubles *)

Module Ring64Facts.
Import PrimFloat FloatOrderFacts.
Local Open Scope float_scope.

Section RingBlock.

Variable Math_sqrt : float -> float.
Variable Math_pow : float -> float -> float.

Let distanceFromCenter := Ring64.distanceFromCenter Math_sqrt Math_pow.
Let ringCheck := Ring64.ringCheck Math_sqrt Math_pow.


(** Outside the window the block does nothing. *)
Lemma ringCheck_outside b p ring s :
  Ring64.inRingWindow (Ring64.vz p) ring = false ->
  ringCheck b p (Some ring) s = s.
Proof. intros W. unfold ringCheck, Ring64.ringCheck. rewrite W. reflexivity. Qed.

End RingBlock.





(** ** Positions that the keys reach

    On a host with correctly rounded [Math.sqrt] and squares.  "a" held
    for 12 frames puts x at 3.5999999999999992, and "arrowdown" for 101
    frames, then "arrowup" for 22, puts y at 12.800000000000008: the block
    computes 6.0000000000000062 and ends the run, where exact steps of 0.3
    and 0.1 would give 3.6 and 12.8, at distance 6. *)
Lemma keys_reach_the_rim :
  Ring64.leftTwelve = 0x1.ccccccccccccbp+1 /\
  Ring64.downThenUp = 0x1.999999999999ep+3 /\
  Ring64.distanceFromCenter Ring64.sqrtRounded Ring64.powRounded
    (Ring64.mkVec3 Ring64.leftTwelve Ring64.downThenUp 2950)
    (Ring64.createGoldenRing 3000) = 0x1.8000000000007p+2 /\
  phase (Ring64.ringBlocks Ring64.sqrtRounded Ring64.powRounded PlainBuild
           (Ring64.mkVec3 Ring64.leftTwelve Ring64.downThenUp 2950)
           (Some (Ring64.createGoldenRing 3000)) Samples.plainStart) = GameOver.
Proof. repeat split; vm_compute; reflexivity. Qed.

(** "a" for 14 frames, "d" for 68 and "a" for 74 puts x at 6, and
    "arrowdown" for 101 frames, then "arrowup" for 70, puts y at
    8.0000000000000249: the block computes exactly 6 and completes the
    level, while the exact distance of that position is above 6, so the
    test of module [Core] on rationals would end the run. *)
Lemma rounded_distance_completes :
  Ring64.leftRightLeft = 6 /\
  Ring64.downThenFurtherUp = 0x1.000000000000ep+3 /\
  Ring64.distanceFromCenter Ring64.sqrtRounded Ring64.powRounded
    (Ring64.mkVec3 Ring64.leftRightLeft Ring64.downThenFurtherUp 2950)
    (Ring64.createGoldenRing 3000) = 6 /\
  phase (Ring64.ringBlocks Ring64.sqrtRounded Ring64.powRounded PlainBuild
           (Ring64.mkVec3 Ring64.leftRightLeft Ring64.downThenFurtherUp 2950)
           (Some (Ring64.createGoldenRing 3000)) Samples.plainStart)
    = LevelComplete /\
  (let dx := FloatOrder.toQ Ring64.leftRightLeft - 0 in
   let dy := FloatOrder.toQ Ring64.downThenFurtherUp - 8 in
   Core.sqrt_leb (dx ^ 2 + dy ^ 2) 6 = false)%Q.
Proof. repeat split; vm_compute; reflexivity. Qed.

End Ring64Facts.

(** * The page as the browser runs it *)

Module BrowserFacts.

(** With the plane loaded, a reaction that [stepOf] describes is the one
    described here. *)
Lemma handle_loaded b e s s' :
  stepOf b e s = Some s' -> Browser.handle b true e s = Some s'.
Proof.
  destruct b, e; cbn [stepOf Plain.step Themed.step Browser.handle];
    try (intros H; exact H); try discriminate.
  - unfold Browser.selectLevel. intros ->. reflexivity.
  - destruct (timers s) as [|n]; [discriminate|].
    unfold Plain.autoAdvance, Browser.plainAutoAdvance. cbv zeta.
    destruct (lookupLevel _ _); [|discriminate]. intros H; exact H.
  - unfold Themed.restartGame, Browser.themedRestartGame.
    destruct (restartBtnText s); [intros H; exact H|].
    destruct (_ <? _)%Z; [|intros H; exact H].
    cbv zeta. destruct (lookupLevel _ _); [intros H; exact H|discriminate].
  - unfold Browser.selectLevel. intros ->. reflexivity.
Qed.

Lemma eraseSession_resetGlobals started s :
  eraseSession (Browser.resetGlobals started s)
  = eraseSession (Browser.resetGlobals true s).
Proof. vm_compute. reflexivity. Qed.

Lemma selectLevel_kept_page b n s :
  eraseSession (Browser.selectLevel b n s) = eraseSession s.
Proof.
  unfold Browser.selectLevel.
  pose proof (selectLevel_kept b n s) as K.
  destruct b; cbn [stepOf Plain.step Themed.step] in K.
  - destruct (Plain.selectLevel n s) as [s'|]; [apply K|]; reflexivity.
  - destruct (Themed.selectLevel n s) as [s'|]; [apply K|]; reflexivity.
Qed.

(** What a reaction does to the globals that [eraseSession] keeps (the
    plane, the counters of a run, the view mode, the level table and the
    random source): it is a reaction of [stepOf], or a frame before the
    plane has loaded, or it leaves them as they are, or it resets the
    globals of a run before the plane has loaded. *)
Lemma handle_cases b loaded e s s' :
  Browser.handle b loaded e s = Some s' ->
  (loaded = true /\ stepOf b e s = Some s') \/
  (loaded = false /\ e = Frame /\ s' = Browser.updateBeforePlane s) \/
  eraseSession s' = eraseSession s \/
  (loaded = false /\
   eraseSession s' = eraseSession (Browser.resetGlobals true s)).
Proof.
  destruct e as [ |k|k| | | |n| |ok]; cbn [Browser.handle].
  - intros [= <-]. destruct loaded.
    + left. split; [reflexivity|]. destruct b; reflexivity.
    + right. left. repeat split.
  - intros [= <-]. destruct loaded.
    + left. split; [reflexivity|]. destruct b; reflexivity.
    + right. right. left. vm_compute. reflexivity.
  - intros [= <-]. right. right. left. vm_compute. reflexivity.
  - intros [= <-]. right. right. left. vm_compute. reflexivity.
  - intros [= <-]. destruct b, loaded.
    + left. split; reflexivity.
    + right. right. right. split; reflexivity.
    + unfold Browser.themedRestartGame.
      destruct (Themed.restartGame s) as [x|] eqn:E.
      * left. split; [reflexivity|]. cbn [stepOf Themed.step]. rewrite E.
        f_equal. symmetry.
        pose proof (handle_loaded ThemedBuild ClickRestart s x E) as H.
        cbn [Browser.handle] in H. injection H as H. exact H.
      * right. right. left. unfold Themed.restartGame in E.
        destruct (restartBtnText s); [discriminate|].
        destruct (_ <? _)%Z; [|discriminate].
        cbv zeta in E |- *. destruct (lookupLevel _ _); [discriminate|].
        vm_compute. reflexivity.
    + unfold Browser.themedRestartGame.
      destruct (restartBtnText s);
        [right; right; right; split; [reflexivity|vm_compute; reflexivity]|].
      destruct (_ <? _)%Z;
        [|right; right; right; split; [reflexivity|vm_compute; reflexivity]].
      cbv zeta. destruct (lookupLevel _ _) as [level|].
      * right. right. right. split; [reflexivity|vm_compute; reflexivity].
      * right. right. left. vm_compute. reflexivity.
  - intros [= <-]. destruct loaded.
    + left. split; [reflexivity|]. destruct b; reflexivity.
    + right. right. right. split; [reflexivity|]. vm_compute. reflexivity.
  - intros [= <-]. right. right. left. apply selectLevel_kept_page.
  - destruct b; [|discriminate]. destruct (timers s) as [|m] eqn:T; [discriminate|].
    intros [= <-]. unfold Browser.plainAutoAdvance. cbv zeta.
    destruct (lookupLevel _ _) as [level|] eqn:L.
    + destruct loaded.
      * left. split; [reflexivity|]. cbn [stepOf Plain.step]. rewrite T.
        unfold Plain.autoAdvance. cbv zeta. rewrite L. reflexivity.
      * right. right. right. split; [reflexivity|]. vm_compute. reflexivity.
    + right. right. left. vm_compute. reflexivity.
  - destruct b; [discriminate|]. destruct (loads s) as [|m]; [discriminate|].
    intros [= <-]. right. right. left.
    rewrite themed_towerLoaded_kept. vm_compute. reflexivity.
Qed.

(** A property kept by every reaction holds along every sequence of
    signals. *)
Lemma page_invariant (P : Browser.Page -> Prop) b :
  (forall sig p p', P p -> Browser.react b sig p = Some p' -> P p') ->
  forall sigs p p', P p -> Browser.run b sigs p = Some p' -> P p'.
Proof.
  intros Hstep sigs. induction sigs as [|sig sigs IH]; intros p p' Hp Hrun;
    cbn [Browser.run] in Hrun.
  - injection Hrun as <-. exact Hp.
  - destruct (Browser.react b sig p) as [p1|] eqn:E; [|discriminate].
    apply (IH p1 p' (Hstep sig p p1 Hp E) Hrun).
Qed.

(** A property of the globals that [eraseSession] keeps, which may depend
    on whether the plane has loaded, holds in every state of the page if it
    holds of the declared globals and is kept by the frame (with and
    without the plane), by a key press and the reset of a run with the
    plane, by the reset of the globals without it, and by the end of the
    load. *)
Lemma page_session_invariant {A} (f : State -> A) (P : bool -> A -> Prop) b :
  (forall y, f (eraseSession y) = f y) ->
  (forall s, P true (f s) -> P true (f (updateOf b s))) ->
  (forall k s, P true (f s) -> P true (f (onKeyDown k s))) ->
  (forall s, P true (f s) -> P true (f (resetRun s))) ->
  (forall s, P false (f s) -> P false (f (Browser.updateBeforePlane s))) ->
  (forall s, P false (f s) -> P false (f (Browser.resetGlobals true s))) ->
  (forall s, P false (f s) ->
     P true (f (set_plane
                  (mkMesh (planePosition s) PLANE_PERMANENT_ROTATION true) s))) ->
  forall rnd, P false (f (globals0 rnd)) ->
  forall sigs p, Browser.run b sigs (Browser.init b rnd) = Some p ->
    P (Browser.isLoaded (Browser.planeLoad p)) (f (Browser.globals p)).
Proof.
  intros Hf Hu Hk Hr Hub Hrb Hl rnd H0 sigs p Hrun.
  apply (page_invariant
           (fun x => P (Browser.isLoaded (Browser.planeLoad x))
                       (f (Browser.globals x))) b)
    with (sigs := sigs) (p := Browser.init b rnd); [| |exact Hrun].
  - intros sig x x' Hx Hstep. destruct sig as [e|ok]; cbn [Browser.react] in Hstep.
    + destruct (Browser.handle b _ e (Browser.globals x)) as [s'|] eqn:E;
        [|discriminate].
      injection Hstep as <-. cbn [Browser.globals Browser.planeLoad].
      destruct (handle_cases b _ e _ _ E) as [[L S]|[(L & -> & ->)|[K|[L K]]]].
      * rewrite L in *.
        destruct e as [ |k|k| | | |n| |ok];
          try (destruct (step_session b _ _ _ S) as [K|K];
               [discriminate|intros; discriminate| |];
               [rewrite (agree_on eraseSession f Hf _ _ K); exact Hx
               |rewrite (agree_on eraseSession f Hf _ _ K); apply Hr, Hx]).
        -- destruct b; injection S as <-; apply Hu, Hx.
        -- destruct b; injection S as <-; apply Hk, Hx.
      * rewrite L in *. apply Hub, Hx.
      * rewrite (agree_on eraseSession f Hf _ _ K). exact Hx.
      * rewrite L in *. rewrite (agree_on eraseSession f Hf _ _ K).
        apply Hrb, Hx.
    + unfold Browser.planeLoadEnds in Hstep.
      destruct (Browser.planeLoad x) eqn:L; try discriminate.
      destruct ok; injection Hstep as <-; cbn [Browser.globals Browser.planeLoad
                                                Browser.isLoaded] in *.
      * apply Hl, Hx.
      * rewrite <- (Hf (set_alerts _ _)), <- (Hf (Browser.globals x)) in *.
        exact Hx.
  - cbn [Browser.init Browser.globals Browser.planeLoad Browser.isLoaded].
    rewrite (agree_on eraseSession f Hf _ _ (initOf_kept b rnd)). exact H0.
Qed.

End BrowserFacts.
(** * The model and the logical position, with the load of the model *)

Module PageSync.
Import BrowserFacts.

(** What is kept in step at every moment, and what only once the plane has
    loaded. *)
Lemma frame_position b s :
  distance s = vz (planePosition s) -> vy (planeRotation s) = 0 ->
  position (plane s) = planePosition s -> vy (rotation (plane s)) = 0 ->
  distance (updateOf b s) = vz (planePosition (updateOf b s)) /\
  vy (planeRotation (updateOf b s)) = 0 /\
  position (plane (updateOf b s)) = planePosition (updateOf b s) /\
  vy (rotation (plane (updateOf b s))) = 0.
Proof.
  intros Hd Hr Hp Hm.
  destruct (running s) eqn:Run;
    [|rewrite (updateOf_idle b s Run); repeat split; assumption].
  destruct (Barriers.updateOf_position b s Run) as [P M].
  destruct (Sync.finish_rest (orbit (pitch (steer (throttle s)))))
    as (_ & _ & R & R').
  destruct (Sync.controls_rest s) as (Pl & _ & _ & Ry & _).
  split; [|split; [|split]].
  - rewrite (tail_field distance b s (fun _ => eq_refl) Run).
    rewrite (tail_field (fun x => vz (planePosition x)) b s (fun _ => eq_refl) Run).
    destruct (Sync.kinematics_forward s) as [Z D]. rewrite Z, D, Hd. reflexivity.
  - rewrite (tail_field planeRotation b s (fun _ => eq_refl) Run).
    unfold kinematics. rewrite R', Ry. exact Hr.
  - rewrite M, P. apply Sync.atGroundTest_position.
  - rewrite (tail_field (fun x => rotation (plane x)) b s (fun _ => eq_refl) Run).
    unfold kinematics. rewrite R, Pl. exact Hm.
Qed.

(** After a frame in Playing with the plane loaded the model is turned as
    the logical rotation says. *)
Lemma frame_rotation b s :
  running s = true -> vy (rotation (plane s)) = vy (planeRotation s) ->
  rotation (plane (updateOf b s)) = planeRotation (updateOf b s).
Proof.
  intros Run H.
  rewrite (tail_field (fun x => rotation (plane x)) b s (fun _ => eq_refl) Run).
  rewrite (tail_field planeRotation b s (fun _ => eq_refl) Run).
  apply Sync.kinematics_rotation, H.
Qed.

Lemma before_plane_rest s :
  distance (Browser.updateBeforePlane s) = distance s /\
  vz (planePosition (Browser.updateBeforePlane s)) = vz (planePosition s) /\
  vy (planeRotation (Browser.updateBeforePlane s)) = vy (planeRotation s).
Proof.
  unfold Browser.updateBeforePlane.
  destruct (negb (gameStarted s) || gameOver s); [repeat split|].
  destruct (Sync.controls_rest s) as (_ & D & Z & R & _). auto.
Qed.

(** X2.  The model and the logical position, in every state of the page: of
    either build, after any sequence of events, whenever the load of the
    plane model ends in it.  [distance] equals the plane's z.  Once the
    model has loaded it is at the logical position ([plane.position]
    equals [planePosition]: the callback of the load puts it there, and
    the barrier clamp of the themed build writes to both), and a frame in
    Playing leaves the model turned as the logical rotation says
    ([plane.rotation] equals [planeRotation]).  Between the load and the
    first such frame the two rotations can differ, since the frames before
    the load steer without a model to turn. *)
Theorem model_in_step (b : Build) (rnd : nat -> Q) (sigs : list Browser.Signal)
    (p : Browser.Page) :
  Browser.run b sigs (Browser.init b rnd) = Some p ->
  let s := Browser.globals p in
  distance s = vz (planePosition s) /\
  (Browser.planeLoad p = Browser.Loaded ->
     position (plane s) = planePosition s /\
     (running s = true -> inStep (updateOf b s))).
Proof.
  intros H. cbv zeta.
  pose (f := fun x : State =>
    (position (plane x), rotation (plane x), planePosition x, planeRotation x,
     distance x)).
  pose (P := fun (loaded : bool) (v : Vec3 * Vec3 * Vec3 * Vec3 * Q) =>
    snd v = vz (snd (fst (fst v))) /\ vy (snd (fst v)) = 0 /\
    (loaded = true ->
       fst (fst (fst (fst v))) = snd (fst (fst v)) /\
       vy (snd (fst (fst (fst v)))) = 0)).
  assert (I : P (Browser.isLoaded (Browser.planeLoad p)) (f (Browser.globals p))).
  { apply (page_session_invariant f P b (fun _ => eq_refl)) with rnd sigs;
      [| | | | | | |exact H].
    - intros x (Hd & Hr & Hl). destruct (Hl eq_refl) as [Hp Hm].
      unfold P, f in *. cbn [fst snd] in *.
      destruct (frame_position b x Hd Hr Hp Hm) as (A & B & C & D).
      split; [exact A|]. split; [exact B|]. intros _. split; assumption.
    - intros k x Hx. unfold P, f, onKeyDown in *.
      destruct (String.eqb _ _); exact Hx.
    - intros x _. split; [reflexivity|]. split; [reflexivity|].
      intros _. split; reflexivity.
    - intros x (Hd & Hr & _). unfold P, f in *. cbn [fst snd] in *.
      destruct (before_plane_rest x) as (D & Z & R).
      rewrite D, Z, R. split; [exact Hd|]. split; [exact Hr|]. discriminate.
    - intros x _. split; [reflexivity|]. split; [reflexivity|]. discriminate.
    - intros x (Hd & Hr & _). split; [exact Hd|]. split; [exact Hr|].
      intros _. split; reflexivity.
    - split; [reflexivity|]. split; [reflexivity|]. discriminate. }
  destruct I as (Hd & Hr & Hl). unfold f in *. cbn [fst snd] in *.
  split; [exact Hd|]. intros L. rewrite L in Hl.
  destruct (Hl eq_refl) as [Hp Hm].
  split; [exact Hp|]. intros Run.
  destruct (frame_position b _ Hd Hr Hp Hm) as (A & _ & C & _).
  split; [exact C|]. split; [|exact A].
  apply (frame_rotation b _ Run). rewrite Hm, Hr. reflexivity.
Qed.

Lemma pageFlight_reached :
  Browser.run ThemedBuild pageFlight (Browser.init ThemedBuild Samples.half)
  = Some pageAfterFlight.
Proof. vm_compute. reflexivity. Qed.

Lemma model_in_step_witness :
  position (plane (Browser.globals pageAfterFlight))
  = planePosition (Browser.globals pageAfterFlight).
Proof.
  pose proof (model_in_step ThemedBuild Samples.half pageFlight
                pageAfterFlight pageFlight_reached) as H.
  cbv zeta in H. destruct H as [_ H]. destruct (H eq_refl) as [P _]. exact P.
Defined.

(** The themed build steered before the plane model has loaded: when the
    model loads it stands level while the logical roll is -0.3. *)
Lemma late_load_out_of_step :
  Browser.run ThemedBuild (steeringEarly ++ [Browser.PlaneLoadEnds true])
    (Browser.init ThemedBuild Samples.half) = Some earlyLoaded /\
  vz (rotation (plane (Browser.globals earlyLoaded))) == 0 /\
  vz (planeRotation (Browser.globals earlyLoaded)) == -0.3.
Proof. split; [|split]; vm_compute; reflexivity. Qed.

End PageSync.
(** * The keyboard, with the load of the model *)

Module PageKeys.
Import BrowserFacts.

Lemma keys_plain_restartGame s : keys (Plain.restartGame s) = keys s.
Proof.
  unfold Plain.restartGame, Plain.generatePillars. cbv zeta.
  assert (G : forall y, keys (set_gameOverHidden true (createGoldenRing y)) = keys y)
    by reflexivity.
  rewrite G.
  rewrite (unchanged_by eraseSpawn keys _ (fun _ => eq_refl)
             (generatePillarsFrom_spawn 20)).
  reflexivity.
Qed.

Lemma keys_towerLoaded ok s : keys (Themed.towerLoaded ok s) = keys s.
Proof.
  unfold Themed.towerLoaded, Themed.generatePillars. cbv zeta.
  assert (G : forall y, keys (createGoldenRing (Themed.createBarriers y)) = keys y)
    by reflexivity.
  destruct ok; rewrite G;
    rewrite (unchanged_by eraseSpawn keys _ (fun _ => eq_refl)
               (generatePillarsFrom_spawn 60)); reflexivity.
Qed.

Lemma keys_selectLevel b n s : keys (Browser.selectLevel b n s) = keys s.
Proof.
  unfold Browser.selectLevel.
  destruct b; unfold Plain.selectLevel, Themed.selectLevel, Themed.selectLevelWith;
    (destruct (lookupLevel _ _); [|reflexivity]);
    match goal with |- context [if ?c then _ else _] => destruct c end;
    reflexivity.
Qed.

(** No handler but the two of the keyboard writes the key table. *)
Lemma handle_keys b loaded e s s' :
  Browser.handle b loaded e s = Some s' ->
  (forall k, e <> KeyDown k) -> (forall k, e <> KeyUp k) ->
  keys s' = keys s.
Proof.
  intros H ND NU.
  destruct e as [ |k|k| | | |n| |ok]; cbn [Browser.handle] in H.
  - injection H as <-. destruct loaded; [apply updateOf_keys|].
    unfold Browser.updateBeforePlane.
    destruct (negb (gameStarted s) || gameOver s); [reflexivity|].
    apply (agree_on eraseKin keys (fun _ => eq_refl) _ _ (Barriers.controls_kin s)).
  - exfalso. apply (ND k). reflexivity.
  - exfalso. apply (NU k). reflexivity.
  - injection H as <-. reflexivity.
  - injection H as <-. destruct b, loaded.
    + apply keys_plain_restartGame.
    + reflexivity.
    + unfold Browser.themedRestartGame.
      destruct (restartBtnText s); [reflexivity|].
      destruct (_ <? _)%Z; [|reflexivity].
      cbv zeta. destruct (lookupLevel _ _); reflexivity.
    + unfold Browser.themedRestartGame.
      destruct (restartBtnText s); [reflexivity|].
      destruct (_ <? _)%Z; [|reflexivity].
      cbv zeta. destruct (lookupLevel _ _); reflexivity.
  - injection H as <-. destruct loaded; reflexivity.
  - injection H as <-. apply keys_selectLevel.
  - destruct b; [|discriminate]. destruct (timers s) as [|m]; [discriminate|].
    injection H as <-. unfold Browser.plainAutoAdvance. cbv zeta.
    destruct (lookupLevel _ _); [|reflexivity].
    destruct loaded; [rewrite keys_plain_restartGame|]; reflexivity.
  - destruct b; [discriminate|]. destruct (loads s) as [|m]; [discriminate|].
    injection H as <-. rewrite keys_towerLoaded. reflexivity.
Qed.

Lemma keys_keyDown b loaded k s s' :
  Browser.handle b loaded (KeyDown k) s = Some s' ->
  keys s' = assignKey (toLowerCase k) true (keys s).
Proof.
  cbn [Browser.handle]. intros [= <-].
  destruct loaded; [apply Keyboard.keys_onKeyDown|reflexivity].
Qed.

Lemma keys_keyUp b loaded k s s' :
  Browser.handle b loaded (KeyUp k) s = Some s' ->
  keys s' = assignKey (toLowerCase k) false (keys s).
Proof. cbn [Browser.handle]. intros [= <-]. reflexivity. Qed.

(** X3.  The key table follows the keyboard, and nothing else, in both builds
    and whether or not the plane model has loaded.  For a key whose name is
    made of ASCII characters, a press sets the entry of the lower-cased
    name and a release clears it, and every other entry is left as it is;
    so a press and a release that differ in case only (as with Shift held)
    work on the same entry, and "ArrowUp" and "W" work on the entries
    "arrowup" and "w" that the frame reads.  No other handler (the frame, a
    click, the timer, the end of a load of the tower model or of the plane
    model) writes the table, so a key that is held when a run ends or
    restarts is still held afterwards. *)
Theorem keys_follow_keyboard (b : Build) (loaded : bool) :
  (forall k s s', asciiKey k = true ->
     Browser.handle b loaded (KeyDown k) s = Some s' ->
     keys s' (toLowerCase k) = true /\
     forall j, j <> toLowerCase k -> keys s' j = keys s j) /\
  (forall k s s', asciiKey k = true ->
     Browser.handle b loaded (KeyUp k) s = Some s' ->
     keys s' (toLowerCase k) = false /\
     forall j, j <> toLowerCase k -> keys s' j = keys s j) /\
  (forall k k' s s' s'', asciiKey k = true -> asciiKey k' = true ->
     toLowerCase k' = toLowerCase k ->
     Browser.handle b loaded (KeyDown k) s = Some s' ->
     Browser.handle b loaded (KeyUp k') s' = Some s'' ->
     keys s'' (toLowerCase k) = false) /\
  (toLowerCase "ArrowUp" = "arrowup"%string /\ toLowerCase "W" = "w"%string /\
   toLowerCase "w" = "w"%string) /\
  (forall sig p p', Browser.react b sig p = Some p' ->
     (forall k, sig <> Browser.Deliver (KeyDown k)) ->
     (forall k, sig <> Browser.Deliver (KeyUp k)) ->
     keys (Browser.globals p') = keys (Browser.globals p)).
Proof.
  split.
  { intros k s s' _ H. rewrite (keys_keyDown b loaded k s s' H).
    split; [apply Keyboard.assignKey_same|].
    intros j N. apply Keyboard.assignKey_other, N. }
  split.
  { intros k s s' _ H. rewrite (keys_keyUp b loaded k s s' H).
    split; [apply Keyboard.assignKey_same|].
    intros j N. apply Keyboard.assignKey_other, N. }
  split.
  { intros k k' s s' s'' _ _ E _ H. rewrite (keys_keyUp b loaded k' s' s'' H), E.
    apply Keyboard.assignKey_same. }
  split; [repeat split|].
  intros sig p p' H ND NU. destruct sig as [e|ok]; cbn [Browser.react] in H.
  - destruct (Browser.handle b _ e (Browser.globals p)) as [s'|] eqn:E;
      [|discriminate].
    injection H as <-. cbn [Browser.globals].
    apply (handle_keys b _ e _ _ E).
    + intros k C. apply (ND k). rewrite C. reflexivity.
    + intros k C. apply (NU k). rewrite C. reflexivity.
  - unfold Browser.planeLoadEnds in H.
    destruct (Browser.planeLoad p); try discriminate.
    destruct ok; injection H as <-; reflexivity.
Qed.

(** ** The view mode *)

(** X4.  The view mode and the model, in every state of the page: of either
    build, after any sequence of events, whenever the load of the plane
    model ends in it.  Until the model has loaded the view is the
    third-person one and a press of "c" or "C" changes nothing but the key
    table (the guard [key === 'c' && plane] fails).  Once it has loaded,
    the model is shown exactly when the view is the third-person one
    ([plane.visible] is the negation of [firstPersonView]), and a press of
    "c" or "C" flips the view mode and hides or shows the model
    accordingly.  A press of any other key leaves both as they are. *)
Theorem view_mode (b : Build) (rnd : nat -> Q) (sigs : list Browser.Signal)
    (p : Browser.Page) :
  Browser.run b sigs (Browser.init b rnd) = Some p ->
  let s := Browser.globals p in
  let loaded := Browser.isLoaded (Browser.planeLoad p) in
  (loaded = true -> visible (plane s) = negb (firstPersonView s)) /\
  (loaded = false -> firstPersonView s = false) /\
  (forall k s', Browser.handle b loaded (KeyDown k) s = Some s' ->
     (toLowerCase k = "c"%string -> loaded = true ->
        firstPersonView s' = negb (firstPersonView s) /\
        visible (plane s') = firstPersonView s) /\
     (toLowerCase k = "c"%string -> loaded = false ->
        firstPersonView s' = false /\ plane s' = plane s) /\
     (toLowerCase k <> "c"%string ->
        firstPersonView s' = firstPersonView s /\ plane s' = plane s)).
Proof.
  intros H. cbv zeta.
  pose (f := fun x : State => (visible (plane x), firstPersonView x)).
  pose (P := fun (loaded : bool) (v : bool * bool) =>
    if loaded then fst v = negb (snd v) else snd v = false).
  assert (I : P (Browser.isLoaded (Browser.planeLoad p)) (f (Browser.globals p))).
  { apply (page_session_invariant f P b (fun _ => eq_refl)) with rnd sigs;
      [| | | | | | |exact H]; unfold P, f; cbn [fst snd].
    - intros x Hx. destruct (Keyboard.updateOf_view b x) as [-> ->]. exact Hx.
    - intros k x Hx.
      destruct (String.eqb (toLowerCase k) "c") eqn:E.
      + apply String.eqb_eq in E.
        destruct (proj1 (Keyboard.onKeyDown_view k x) E) as [-> ->].
        rewrite negb_involutive. reflexivity.
      + assert (N : toLowerCase k <> "c"%string).
        { intros C. rewrite C in E. discriminate. }
        destruct (proj2 (Keyboard.onKeyDown_view k x) N) as [-> ->]. exact Hx.
    - intros x _. reflexivity.
    - intros x Hx. unfold Browser.updateBeforePlane.
      destruct (negb (gameStarted x) || gameOver x); [exact Hx|].
      rewrite (agree_on eraseKin firstPersonView (fun _ => eq_refl) _ _
                 (Barriers.controls_kin x)). exact Hx.
    - intros x _. reflexivity.
    - intros x Hx. cbn. rewrite Hx. reflexivity.
    - reflexivity. }
  unfold P, f in I. cbn [fst snd] in I.
  set (loaded := Browser.isLoaded (Browser.planeLoad p)) in *.
  split; [intros L; rewrite L in I; exact I|].
  split; [intros L; rewrite L in I; exact I|].
  intros k s' Hk. cbn [Browser.handle] in Hk. injection Hk as <-.
  split; [|split].
  - intros E ->. apply (proj1 (Keyboard.onKeyDown_view k _) E).
  - intros E L. rewrite L in *. split; [exact I|reflexivity].
  - intros N. destruct loaded.
    + apply (proj2 (Keyboard.onKeyDown_view k _) N).
    + split; reflexivity.
Qed.

Lemma view_mode_witness :
  visible (plane (Browser.globals pageAfterFlight))
  = negb (firstPersonView (Browser.globals pageAfterFlight)).
Proof.
  pose proof (view_mode ThemedBuild Samples.half pageFlight pageAfterFlight
                PageSync.pageFlight_reached) as H.
  cbv zeta in H. destruct H as [H _]. exact (H eq_refl).
Defined.

(** Before the plane model has loaded, "c" is pressed: the key is held and
    the view is still the third-person one. *)
Lemma view_key_before_plane :
  match Browser.react ThemedBuild (Browser.Deliver (KeyDown "C")) earlyPage with
  | Some p' =>
      keys (Browser.globals p') "c" = true /\
      firstPersonView (Browser.globals p') = false
  | None => False
  end.
Proof. vm_compute. split; reflexivity. Qed.

End PageKeys.
(** * The level being played, with exceptions *)

Module PageLevels.
Import BrowserFacts.

(** How a reaction changes [currentLevel] and [levelDistance]: not at all;
    or to the number and distance of an entry that exists (a level
    button); or to the next number and the distance of its entry (the timer
    of the plain build, "Continue" in the themed one); or to the next
    number alone, when that entry does not exist and the read of its
    distance throws. *)
Lemma handle_level b loaded e s s' :
  Browser.handle b loaded e s = Some s' ->
  levelOf s' = levelOf s \/
  (exists n level,
     lookupLevel (n - 1) (LEVELS s) = Some level /\
     levelOf s' = (n, level_distance level)) \/
  (exists level,
     lookupLevel (currentLevel s + 1 - 1) (LEVELS s) = Some level /\
     levelOf s' = ((currentLevel s + 1)%Z, level_distance level)) \/
  (lookupLevel (currentLevel s + 1 - 1) (LEVELS s) = None /\
   levelOf s' = ((currentLevel s + 1)%Z, levelDistance s) /\
   (b = ThemedBuild -> (currentLevel s <? LEVELS_length s)%Z = true)).
Proof.
  destruct e as [ |k|k| | | |n| |ok]; cbn [Browser.handle].
  - intros [= <-]. left. destruct loaded; [apply Levels.updateOf_levelOf|].
    unfold Browser.updateBeforePlane.
    destruct (negb (gameStarted s) || gameOver s); [reflexivity|].
    apply (agree_on eraseKin levelOf (fun _ => eq_refl) _ _ (Barriers.controls_kin s)).
  - intros [= <-]. left. destruct loaded; [apply Levels.onKeyDown_levelOf|reflexivity].
  - intros [= <-]. left. reflexivity.
  - intros [= <-]. left. reflexivity.
  - intros [= <-]. destruct b.
    + left. destruct loaded; [apply Levels.plain_restartGame_session|reflexivity].
    + unfold Browser.themedRestartGame.
      destruct (restartBtnText s); [left; destruct loaded; reflexivity|].
      destruct (currentLevel s <? LEVELS_length s)%Z eqn:C;
        [|left; destruct loaded; reflexivity].
      cbv zeta. cbn [currentLevel set_currentLevel LEVELS].
      destruct (lookupLevel _ _) as [level|] eqn:L.
      * right. right. left. exists level. split; [reflexivity|].
        destruct loaded; reflexivity.
      * right. right. right. split; [reflexivity|]. split; [reflexivity|].
        intros _. reflexivity.
  - intros [= <-]. left. destruct loaded; reflexivity.
  - intros [= <-]. unfold Browser.selectLevel.
    destruct b; unfold Plain.selectLevel, Themed.selectLevel, Themed.selectLevelWith;
      (destruct (lookupLevel _ _) as [level|] eqn:L; [|left; reflexivity]);
      match goal with |- context [if ?c then _ else _] => destruct c end;
      try (left; reflexivity);
      right; left; exists n, level; (split; [exact L|reflexivity]).
  - destruct b; [|discriminate]. destruct (timers s) as [|m]; [discriminate|].
    intros [= <-]. unfold Browser.plainAutoAdvance. cbv zeta.
    cbn [currentLevel set_currentLevel set_gameOverHidden set_timers LEVELS].
    destruct (lookupLevel _ _) as [level|] eqn:L.
    + right. right. left. exists level. split; [reflexivity|].
      destruct loaded; [|reflexivity].
      unfold Browser.plainRestartGame.
      rewrite (proj1 (Levels.plain_restartGame_session _)). reflexivity.
    + right. right. right. split; [reflexivity|]. split; [reflexivity|].
      discriminate.
  - destruct b; [discriminate|]. destruct (loads s) as [|m]; [discriminate|].
    intros [= <-]. left. rewrite Levels.themed_towerLoaded_levelOf. reflexivity.
Qed.

(** The level table is written by a frame with the plane loaded and by
    nothing else, and that frame can only unlock the entry after the level
    being played. *)
Lemma handle_LEVELS b loaded e s s' :
  Browser.handle b loaded e s = Some s' -> (0 <= currentLevel s)%Z ->
  LEVELS s' = LEVELS s \/
  LEVELS s' = unlockAt (Z.to_nat (currentLevel s)) (LEVELS s).
Proof.
  intros H C.
  destruct (handle_cases b loaded e s s' H) as [[L S]|[(L & -> & ->)|[K|[L K]]]].
  - assert (D : e = Frame \/ e <> Frame) by (destruct e; auto; right; discriminate).
    destruct D as [-> | NF];
      [|left; apply (LevelTable.step_LEVELS b e s s' S NF)].
    assert (E : s' = updateOf b s) by (destruct b; injection S as <-; reflexivity).
    rewrite E. apply (LevelTable.updateOf_LEVELS b s C).
  - left. unfold Browser.updateBeforePlane.
    destruct (negb (gameStarted s) || gameOver s); [reflexivity|].
    apply (agree_on eraseKin LEVELS (fun _ => eq_refl) _ _ (Barriers.controls_kin s)).
  - left. apply (agree_on eraseSession LEVELS (fun _ => eq_refl) _ _ K).
  - left. apply (agree_on eraseSession LEVELS (fun _ => eq_refl) _ _ K).
Qed.

(** The entry of index i of a table in its declared shape. *)
Lemma table_entry ls i l :
  tableShape ls -> lookupLevel i ls = Some l ->
  (0 <= i < 5)%Z /\ level_number l = (i + 1)%Z /\
  level_distance l == 3000 * inject_Z (i + 1).
Proof.
  intros [Tn Td] K. unfold lookupLevel in K.
  destruct (i <? 0)%Z eqn:E; [discriminate|]. apply Z.ltb_ge in E.
  pose proof (map_nth_error level_number _ _ K) as Kn.
  pose proof (map_nth_error level_distance _ _ K) as Kd.
  rewrite Tn in Kn. rewrite Td in Kd.
  assert (C : i = Z.of_nat (Z.to_nat i)) by lia.
  revert C Kn Kd. generalize (Z.to_nat i). intros n C Kn Kd. rewrite C.
  do 5 (destruct n as [|n];
        [injection Kn as <-; injection Kd as <-;
         split; [cbn; lia|split; reflexivity]|]).
  destruct n; discriminate.
Qed.

(** What the bookkeeping of levels keeps. *)
Lemma handle_bookkeeping b loaded e s s' :
  Browser.handle b loaded e s = Some s' ->
  tableShape (LEVELS s) /\ unlockedAt 0 (LEVELS s) = true /\
  (1 <= currentLevel s)%Z /\
  levelDistance s == 3000 * inject_Z (Z.min (currentLevel s) 5) /\
  (b = ThemedBuild -> (currentLevel s <= 5)%Z) ->
  tableShape (LEVELS s') /\ unlockedAt 0 (LEVELS s') = true /\
  (1 <= currentLevel s')%Z /\
  levelDistance s' == 3000 * inject_Z (Z.min (currentLevel s') 5) /\
  (b = ThemedBuild -> (currentLevel s' <= 5)%Z).
Proof.
  intros H (T & U & C & D & B).
  assert (T' : tableShape (LEVELS s') /\ unlockedAt 0 (LEVELS s') = true).
  { destruct (handle_LEVELS b loaded e s s' H ltac:(lia)) as [-> | ->];
      [split; assumption|].
    split.
    - unfold tableShape.
      rewrite LevelTable.unlockAt_numbers, LevelTable.unlockAt_distances. exact T.
    - rewrite LevelTable.unlockedAt_unlockAt, U. reflexivity. }
  destruct T' as [T' U']. split; [exact T'|]. split; [exact U'|].
  pose proof (LevelTable.table_length _ T) as Len.
  destruct (handle_level b loaded e s s' H)
    as [E|[(n & level & L & E)|[(level & L & E)|(L & E & Bt)]]];
    destruct (Levels.levelOf_eq s' (set_levelDistance (snd (levelOf s'))
                (set_currentLevel (fst (levelOf s')) s')) eq_refl) as [_ _];
    pose proof (f_equal fst E : currentLevel s' = _) as Ec;
    pose proof (f_equal snd E : levelDistance s' = _) as Ed;
    cbn [fst snd levelOf] in Ec, Ed; rewrite Ec, Ed.
  - split; [exact C|]. split; [exact D|exact B].
  - destruct (table_entry _ _ _ T L) as (R & _ & Dl).
    split; [lia|]. split; [|intros _; lia].
    rewrite Dl, Z.min_l by lia. replace (n - 1 + 1)%Z with n by lia. reflexivity.
  - destruct (table_entry _ _ _ T L) as (R & _ & Dl).
    split; [lia|]. split; [|intros _; lia].
    rewrite Dl, Z.min_l by lia.
    replace (currentLevel s + 1 - 1 + 1)%Z with (currentLevel s + 1)%Z by lia.
    reflexivity.
  - apply (LevelTable.lookupLevel_None _ _ Len) in L.
    assert (C5 : (5 <= currentLevel s)%Z) by lia.
    split; [lia|]. split.
    + rewrite D, !Z.min_r by lia. reflexivity.
    + intros Hb. pose proof (Bt Hb) as Lt. apply Z.ltb_lt in Lt.
      unfold LEVELS_length in Lt. rewrite Len in Lt. lia.
Qed.

(** What the bookkeeping keeps, in every state of the page. *)
Lemma reachable_levels (b : Build) (rnd : nat -> Q)
    (sigs : list Browser.Signal) (p : Browser.Page) :
  Browser.run b sigs (Browser.init b rnd) = Some p ->
  let s := Browser.globals p in
  tableShape (LEVELS s) /\ unlockedAt 0 (LEVELS s) = true /\
  (1 <= currentLevel s)%Z /\
  levelDistance s == 3000 * inject_Z (Z.min (currentLevel s) 5) /\
  (b = ThemedBuild -> (currentLevel s <= 5)%Z).
Proof.
  intros H. cbv zeta.
  pose (J := fun x : Browser.Page =>
                 let s := Browser.globals x in
                 tableShape (LEVELS s) /\ unlockedAt 0 (LEVELS s) = true /\
                 (1 <= currentLevel s)%Z /\
                 levelDistance s == 3000 * inject_Z (Z.min (currentLevel s) 5) /\
                 (b = ThemedBuild -> (currentLevel s <= 5)%Z)).
  change (J p).
  apply (page_invariant J b) with (sigs := sigs) (p := Browser.init b rnd);
    unfold J; [| |exact H].
  - intros sig x x' Hx Hreact. cbv zeta in *.
    destruct sig as [e|ok]; cbn [Browser.react] in Hreact.
    + destruct (Browser.handle b _ e (Browser.globals x)) as [s'|] eqn:E;
        [|discriminate].
      injection Hreact as <-. cbn [Browser.globals].
      apply (handle_bookkeeping b _ e _ _ E Hx).
    + unfold Browser.planeLoadEnds in Hreact.
      destruct (Browser.planeLoad x); try discriminate.
      destruct ok; injection Hreact as <-; exact Hx.
  - cbv zeta. cbn [Browser.init Browser.globals].
    destruct (LevelTable.reachable_table b rnd [] (initOf b rnd) eq_refl)
      as (T & U & l & K & D).
    assert (V : levelOf (initOf b rnd) = (1%Z, 3000)).
    { destruct b; cbn [initOf]; [|reflexivity].
      unfold Plain.init, Plain.generatePillars.
      assert (G : forall y, levelOf (createGoldenRing y) = levelOf y) by reflexivity.
      rewrite G, Levels.generatePillarsFrom_levelOf. reflexivity. }
    rewrite (f_equal fst V : currentLevel _ = _),
      (f_equal snd V : levelDistance _ = _).
    cbn [fst snd].
    split; [exact T|]. split; [exact U|]. split; [lia|].
    split; [reflexivity|]. intros _. lia.
Qed.

(** X6.  The bookkeeping of levels, in every state of the page: of either
    build, after any sequence of events, handlers that throw included.  The
    level table has its five entries with their declared numbers 1 to 5
    and distances 3000 to 15000, and level 1 is unlocked.  [currentLevel]
    is at least 1 and [levelDistance] is 3000 times [currentLevel] as long
    as that is at most 5, when it is the distance of the entry of
    [currentLevel]; in the themed build it always is.  In the plain build
    the callback of a timer that outlives its run can leave [currentLevel]
    above 5, where no entry is: [levelDistance] is then 15000, the distance
    of the last level. *)
Theorem level_bookkeeping (b : Build) (rnd : nat -> Q)
    (sigs : list Browser.Signal) (p : Browser.Page) :
  Browser.run b sigs (Browser.init b rnd) = Some p ->
  let s := Browser.globals p in
  tableShape (LEVELS s) /\
  unlockedAt 0 (LEVELS s) = true /\
  (1 <= currentLevel s)%Z /\
  levelDistance s == 3000 * inject_Z (Z.min (currentLevel s) 5) /\
  (b = ThemedBuild -> (currentLevel s <= 5)%Z) /\
  ((currentLevel s <= 5)%Z ->
     exists l, lookupLevel (currentLevel s - 1) (LEVELS s) = Some l /\
               level_number l = currentLevel s /\
               levelDistance s == level_distance l).
Proof.
  intros H. cbv zeta.
  pose proof (reachable_levels b rnd sigs p H) as I.
  cbv zeta in I. destruct I as (T & U & C & D & B).
  split; [exact T|]. split; [exact U|]. split; [exact C|]. split; [exact D|].
  split; [exact B|]. intros C5.
  pose proof (LevelTable.table_length _ T) as Len.
  set (s := Browser.globals p) in *.
  destruct (lookupLevel (currentLevel s - 1) (LEVELS s)) as [l|] eqn:L.
  - exists l. destruct (table_entry _ _ _ T L) as (_ & N & Dl).
    split; [reflexivity|]. split; [lia|].
    rewrite D, Dl, Z.min_l by lia.
    replace (currentLevel s - 1 + 1)%Z with (currentLevel s) by lia. reflexivity.
  - apply (LevelTable.lookupLevel_None _ _ Len) in L. lia.
Qed.

Lemma level_bookkeeping_witness :
  (1 <= currentLevel (Browser.globals pageAfterFlight))%Z /\
  levelDistance (Browser.globals pageAfterFlight)
  == 3000 * inject_Z (Z.min (currentLevel (Browser.globals pageAfterFlight)) 5).
Proof.
  pose proof (level_bookkeeping ThemedBuild Samples.half pageFlight pageAfterFlight
                PageSync.pageFlight_reached) as H.
  cbv zeta in H. destruct H as (_ & _ & C & D & _). split; [exact C|exact D].
Defined.

End PageLevels.
(** * Which handlers throw *)

Module PageThrows.



(** The timer of the plain build firing while level 5 is played, as after
    a return to the menu and the choice of level 5 while the timer of level
    4 is pending: the callback throws, and the page runs on with the panel
    hidden, [currentLevel] at 6, where no entry of the table is, and the
    level line reading "Level 6". *)
Lemma timer_leaves_level_six loaded n s :
  timers s = S n -> currentLevel s = 5%Z -> tableShape (LEVELS s) ->
  exists s', Browser.handle PlainBuild loaded TimerFires s = Some s' /\
    currentLevel s' = 6%Z /\ levelDistance s' = levelDistance s /\
    lookupLevel (currentLevel s' - 1) (LEVELS s') = None /\
    gameOverHidden s' = true /\ timers s' = n /\
    gameStarted s' = gameStarted s /\ gameOver s' = gameOver s /\
    fst (updateLevelDisplay s') = 6%Z.
Proof.
  intros T C Sh. cbn [Browser.handle]. rewrite T.
  unfold Browser.plainAutoAdvance. cbv zeta.
  cbn [currentLevel set_currentLevel set_gameOverHidden set_timers LEVELS].
  assert (L : lookupLevel (currentLevel s + 1 - 1) (LEVELS s) = None).
  { apply (LevelTable.lookupLevel_None _ _ (LevelTable.table_length _ Sh)). lia. }
  rewrite L. eexists. split; [reflexivity|].
  cbn. rewrite C. repeat split. rewrite <- C. exact L.
Qed.

End PageThrows.

(** * The overlap test and the altitude *)

Module PageClearance.

Lemma page_altitude b rnd sigs p :
  Browser.run b sigs (Browser.init b rnd) = Some p ->
  1 <= vy (planePosition (Browser.globals p)) <= 15.
Proof.
  intros H.
  apply (BrowserFacts.page_session_invariant (fun x => vy (planePosition x))
           (fun _ y => 1 <= y <= 15) b (fun _ => eq_refl)) with rnd sigs;
    [| | | | | | |exact H].
  - intros x. apply Altitude.altitude_kept.
  - intros k x Hx. unfold onKeyDown. destruct (String.eqb _ _); exact Hx.
  - intros x _. cbn. lra.
  - intros x Hx. unfold Browser.updateBeforePlane.
    destruct (negb (gameStarted x) || gameOver x); [exact Hx|].
    rewrite (proj2 (proj2 (orbit_rest _))), pitch_y.
    rewrite (proj2 (proj2 (steer_rest _))).
    rewrite (agree_on eraseKin keys (fun _ => eq_refl) _ _ (steer_kin (throttle x))).
    rewrite (agree_on eraseKin keys (fun _ => eq_refl) _ _ (throttle_kin x)).
    rewrite (proj1 (throttle_pose x)).
    destruct (keys x "arrowup"), (keys x "arrowdown"); minmax; lra.
  - intros x _. cbn. lra.
  - intros x Hx. exact Hx.
  - cbn. lra.
Qed.

(** X10.  A pillar is 20 high and the plane flies between 1 and 15, so the
    vertical part of the overlap test never decides: there is no flying
    over a pillar.  In every state of the page (of either build, after any
    sequence of events, whenever the load of the plane model ends in it),
    the model as the kinematic blocks of a frame leave it, from which the
    box of the collision test is built, has its y in [1, 15], and the test
    for a pillar is the conjunction of its comparisons in x and in z
    ([collisionX && collisionZ]): the comparisons in y, of y + 0.5 with 0
    and of y - 0.5 with 20, both hold. *)
Theorem no_flying_over (b : Build) (rnd : nat -> Q) (sigs : list Browser.Signal)
    (pg : Browser.Page) (p : Pillar) :
  Browser.run b sigs (Browser.init b rnd) = Some pg ->
  let m := plane (kinematics (Browser.globals pg)) in
  1 <= vy (position m) <= 15 /\
  0 <= vy (position m) + 0.5 /\ vy (position m) - 0.5 <= PILLAR_HEIGHT /\
  hitsPillar m p = collisionX m p && collisionZ m p.
Proof.
  intros H m. set (s := Browser.globals pg) in *.
  assert (Y : 1 <= vy (position m) <= 15).
  { unfold m. rewrite (proj1 (proj2 (kinematics_plane s))), kinematics_y, pitch_y.
    pose proof (page_altitude b rnd sigs pg H). fold s in H0.
    destruct (keys s "arrowup"), (keys s "arrowdown"); minmax; lra. }
  split; [exact Y|]. unfold PILLAR_HEIGHT.
  split; [lra|]. split; [lra|].
  unfold hitsPillar, collisionX, collisionZ, PILLAR_HEIGHT. cbv zeta.
  assert (A : Qle_bool 0 (vy (position m) + 0.5) = true)
    by (apply Qle_bool_iff; lra).
  assert (B : Qle_bool (vy (position m) - 0.5) 20 = true)
    by (apply Qle_bool_iff; lra).
  rewrite A, B. cbn [andb]. rewrite andb_true_r. reflexivity.
Qed.

Lemma no_flying_over_witness :
  hitsPillar (plane (kinematics (Browser.globals pageAfterFlight)))
    (mkPillar 0 3 3 false)
  = collisionX (plane (kinematics (Browser.globals pageAfterFlight)))
      (mkPillar 0 3 3 false)
    && collisionZ (plane (kinematics (Browser.globals pageAfterFlight)))
         (mkPillar 0 3 3 false).
Proof.
  pose proof (no_flying_over ThemedBuild Samples.half pageFlight pageAfterFlight
                (mkPillar 0 3 3 false) PageSync.pageFlight_reached) as H.
  cbv zeta in H. destruct H as (_ & _ & _ & H). exact H.
Defined.

End PageClearance.
